(** * Order tracking for pedidos-iseas: the gateway hook and the page logic

    A shallow embedding of [hooks/use-supabase.ts] (the persistence
    gateway, the process-wide order cache and the working flags) and of
    the order page (the derived buckets and the notification diff),
    followed by the properties the specification states about them.

    Conventions of the embedding.
    - A JavaScript [number] is an integer [Z].  The embedded code never
      computes with the numbers it carries: it copies them and tests
      them for truthiness, so only zero / non-zero matters.
    - A [Date] is its epoch time in milliseconds, a [Z].
    - An optional property ([x?: T]) and a nullable column are
      [option T]; [undefined] and [null] are both [None], but in the
      body of the request of [updateOrder], the one place where the
      code tells them apart (see [Nulls]).
    - A string is truthy when it is not empty, a number when it is not
      zero, an optional value when it is present and truthy.
    - [localStorage] holds the parsed list of orders: writing a list
      with [JSON.stringify] and reading it back with [JSON.parse] and
      the revival of the dates gives the same list.
    - The clock does not move during one operation.
    - The texts shown to the user are written without accents. *)

From Stdlib Require Import List String ZArith Bool Lia Permutation Sorted.
Import ListNotations.

Local Open Scope Z_scope.
Local Open Scope list_scope.

(** ** Types of the domain *)

Inductive OrderStatus : Type :=
| en_armado
| armado
| armado_controlado
| facturado
| factura_controlada
| en_transito
| entregado
| pagado.

Definition OrderStatus_eqb (a b : OrderStatus) : bool :=
  match a, b with
  | en_armado, en_armado
  | armado, armado
  | armado_controlado, armado_controlado
  | facturado, facturado
  | factura_controlada, factura_controlada
  | en_transito, en_transito
  | entregado, entregado
  | pagado, pagado => true
  | _, _ => false
  end.

Inductive Role : Type := vale | armador.

Inductive PaymentMethod : Type := efectivo | transferencia.

Module User.
Record t : Type := mk
  { id : string;
    name : string;
    role : Role }.
End User.

Module Product.
Record t : Type := mk
  { id : string;
    code : option string;
    name : string;
    quantity : Z;
    originalQuantity : option Z;
    isChecked : option bool;
    unitPrice : option Z;
    subtotal : option Z }.
End Product.

Module MissingProduct.
Record t : Type := mk
  { productId : string;
    productName : string;
    code : option string;
    quantity : Z }.
End MissingProduct.

Module ReturnedProduct.
Record t : Type := mk
  { productId : string;
    productName : string;
    code : option string;
    quantity : Z;
    reason : option string }.
End ReturnedProduct.

Module HistoryEntry.
Record t : Type := mk
  { id : string;
    action : string;
    user : string;
    timestamp : Z;
    notes : option string }.
End HistoryEntry.

Module Order.
Record t : Type := mk
  { id : string;
    clientName : string;
    clientAddress : string;
    products : list Product.t;
    status : OrderStatus;
    missingProducts : list MissingProduct.t;
    returnedProducts : list ReturnedProduct.t;
    paymentMethod : option PaymentMethod;
    isPaid : bool;
    createdAt : Z;
    history : list HistoryEntry.t;
    armedBy : option string;
    controlledBy : option string;
    awaitingPaymentVerification : option bool;
    initialNotes : option string;
    currentlyWorkingBy : option string;
    workingStartTime : option Z;
    totalAmount : option Z }.

(** [{ ...o, currentlyWorkingBy: by, workingStartTime: start }] *)
Definition with_working (o : t) (by_ : option string) (start : option Z) : t :=
  mk (id o) (clientName o) (clientAddress o) (products o) (status o)
     (missingProducts o) (returnedProducts o) (paymentMethod o) (isPaid o)
     (createdAt o) (history o) (armedBy o) (controlledBy o)
     (awaitingPaymentVerification o) (initialNotes o) by_ start
     (totalAmount o).
End Order.

(** The argument of [createOrder]: an [Order] without the fields the
    gateway assigns itself. *)
Module OrderData.
Record t : Type := mk
  { clientName : string;
    clientAddress : string;
    products : list Product.t;
    paymentMethod : option PaymentMethod;
    armedBy : option string;
    controlledBy : option string;
    awaitingPaymentVerification : option bool;
    initialNotes : option string;
    totalAmount : option Z }.
End OrderData.

(** ** Truthiness and small helpers *)

Definition truthy_string (s : string) : bool := negb (String.eqb s "").

Definition truthy_number (n : Z) : bool := negb (n =? 0).

Definition is_set {A : Type} (x : option A) : bool :=
  match x with Some _ => true | None => false end.

Definition option_string_eqb (a b : option string) : bool :=
  match a, b with
  | Some x, Some y => String.eqb x y
  | None, None => true
  | _, _ => false
  end.

(** [x || fallback] on an optional string. *)
Definition string_or (x : option string) (fallback : string) : string :=
  match x with
  | Some s => if truthy_string s then s else fallback
  | None => fallback
  end.

(** [x || undefined] on an optional string. *)
Definition string_or_undefined (x : option string) : option string :=
  match x with
  | Some s => if truthy_string s then Some s else None
  | None => None
  end.

(** [x ? Number.parseFloat(x) : undefined] on a nullable numeric column. *)
Definition parse_if_truthy (x : option Z) : option Z :=
  match x with
  | Some n => if truthy_number n then Some n else None
  | None => None
  end.

(** ** The page: derived buckets (part_001, lines 258-260) *)

Definition is_active (o : Order.t) : bool :=
  negb (OrderStatus_eqb (Order.status o) pagado)
  && negb (OrderStatus_eqb (Order.status o) entregado).

Definition is_pendingPayment (o : Order.t) : bool :=
  OrderStatus_eqb (Order.status o) entregado && negb (Order.isPaid o).

Definition is_completed (o : Order.t) : bool :=
  OrderStatus_eqb (Order.status o) pagado.

Definition activeOrders (orders : list Order.t) : list Order.t :=
  filter is_active orders.

Definition pendingPaymentOrders (orders : list Order.t) : list Order.t :=
  filter is_pendingPayment orders.

Definition completedOrders (orders : list Order.t) : list Order.t :=
  filter is_completed orders.

(** Number of buckets an order falls in. *)
Definition bucket_count (o : Order.t) : nat :=
  (if is_active o then 1 else 0)%nat
  + (if is_pendingPayment o then 1 else 0)%nat
  + (if is_completed o then 1 else 0)%nat.

(** ** The page: notifications derived from two snapshots
    (part_001, lines 219-244) *)

Inductive NotificationType : Type := success | error | info | warning.

Module Notification.
Record t : Type := mk
  { type : NotificationType;
    title : string;
    message : string }.
End Notification.

Definition status_label (s : OrderStatus) : string :=
  match s with
  | en_armado => "En Armado"
  | armado => "Armado"
  | armado_controlado => "Armado Controlado"
  | facturado => "Facturado"
  | factura_controlada => "Factura Controlada"
  | en_transito => "En Transito"
  | entregado => "Entregado"
  | pagado => "Pagado"
  end.

(** [currentUser?.name] *)
Definition currentUser_name (currentUser : option User.t) : option string :=
  option_map User.name currentUser.

Definition has_id (i : string) (o : Order.t) : bool := String.eqb (Order.id o) i.

(** [orders.filter((o) => !previousOrders.some((p) => p.id === o.id))] *)
Definition newOrders (previousOrders orders : list Order.t) : list Order.t :=
  filter (fun o => negb (existsb (has_id (Order.id o)) previousOrders)) orders.

Definition new_order_event (o : Order.t) : Notification.t :=
  Notification.mk info "Nuevo Pedido"
    (String.append "Se creo el pedido para " (Order.clientName o)).

Definition status_event (o : Order.t) (last : HistoryEntry.t) : Notification.t :=
  Notification.mk success "Estado Actualizado"
    (String.append (Order.clientName o)
       (String.append " - "
          (String.append (status_label (Order.status o))
             (String.append " por " (HistoryEntry.user last))))).

Definition working_event (o : Order.t) (who : string) : Notification.t :=
  Notification.mk info "Trabajando en Pedido"
    (String.append who
       (String.append " esta trabajando en " (Order.clientName o))).

(** The first [forEach]: one event per new order unless the current
    user is called "Vale". *)
Definition new_order_events (currentUser : option User.t)
    (previousOrders orders : list Order.t) : list Notification.t :=
  flat_map
    (fun o =>
       if negb (option_string_eqb (currentUser_name currentUser) (Some "Vale"%string))
       then [new_order_event o] else [])
    (newOrders previousOrders orders).

(** [history[history.length - 1]] *)
Definition last_entry (h : list HistoryEntry.t) : option HistoryEntry.t :=
  nth_error h (List.length h - 1).

(** The body of the second [forEach] for one order. *)
Definition change_events (currentUser : option User.t)
    (previousOrders : list Order.t) (o : Order.t) : list Notification.t :=
  match find (has_id (Order.id o)) previousOrders with
  | None => []
  | Some prev =>
      (if negb (OrderStatus_eqb (Order.status prev) (Order.status o)) then
         match last_entry (Order.history o) with
         | Some last =>
             if negb (option_string_eqb (Some (HistoryEntry.user last))
                        (currentUser_name currentUser))
             then [status_event o last] else []
         | None => []
         end
       else [])
      ++
      (match Order.currentlyWorkingBy o with
       | Some who =>
           if negb (is_set (string_or_undefined (Order.currentlyWorkingBy prev)))
              && truthy_string who
              && negb (option_string_eqb (Some who) (currentUser_name currentUser))
           then [working_event o who] else []
       | None => []
       end)
  end.

(** The effect run on every change of [orders]: the events it adds, and
    the new value of [previousOrders]. *)
Definition notification_effect (currentUser : option User.t)
    (previousOrders orders : list Order.t)
  : list Notification.t * list Order.t :=
  (if (0 <? List.length previousOrders)%nat && (0 <? List.length orders)%nat
   then new_order_events currentUser previousOrders orders
        ++ flat_map (change_events currentUser previousOrders) orders
   else [],
   orders).

(** ** The remote store

    The five tables the hook reads and writes.  A nullable column is an
    [option]; numeric columns come back from the store as numbers. *)

Module OrderRow.
Record t : Type := mk
  { id : string;
    client_name : string;
    client_address : option string;
    status : OrderStatus;
    payment_method : option PaymentMethod;
    is_paid : bool;
    armed_by : option string;
    controlled_by : option string;
    awaiting_payment_verification : option bool;
    initial_notes : option string;
    created_at : Z;
    currently_working_by : option string;
    working_start_time : option Z;
    total_amount : option Z }.
End OrderRow.

Module ProductRow.
Record t : Type := mk
  { id : string;
    order_id : string;
    code : option string;
    name : string;
    quantity : Z;
    original_quantity : option Z;
    is_checked : option bool;
    unit_price : option Z;
    subtotal : option Z }.
End ProductRow.

Module MissingRow.
Record t : Type := mk
  { order_id : string;
    product_id : string;
    product_name : string;
    code : option string;
    quantity : Z }.
End MissingRow.

Module ReturnedRow.
Record t : Type := mk
  { order_id : string;
    product_id : string;
    product_name : string;
    code : option string;
    quantity : Z;
    reason : option string }.
End ReturnedRow.

Module HistoryRow.
Record t : Type := mk
  { id : string;
    order_id : string;
    action : string;
    user_name : string;
    notes : option string;
    created_at : Z }.
End HistoryRow.

Module DB.
Record t : Type := mk
  { orders : list OrderRow.t;
    products : list ProductRow.t;
    missing_products : list MissingRow.t;
    returned_products : list ReturnedRow.t;
    order_history : list HistoryRow.t }.

Definition empty : t := mk [] [] [] [] [].

Definition with_orders (d : t) (x : list OrderRow.t) : t :=
  mk x (products d) (missing_products d) (returned_products d) (order_history d).
Definition with_products (d : t) (x : list ProductRow.t) : t :=
  mk (orders d) x (missing_products d) (returned_products d) (order_history d).
Definition with_missing_products (d : t) (x : list MissingRow.t) : t :=
  mk (orders d) (products d) x (returned_products d) (order_history d).
Definition with_returned_products (d : t) (x : list ReturnedRow.t) : t :=
  mk (orders d) (products d) (missing_products d) x (order_history d).
Definition with_order_history (d : t) (x : list HistoryRow.t) : t :=
  mk (orders d) (products d) (missing_products d) (returned_products d) x.
End DB.

(** A row of [select("*, products (*), missing_products (*),
    returned_products (*), order_history (*)")]: the order row with the
    rows of the four owned tables that refer to it. *)
Module Joined.
Record t : Type := mk
  { row : OrderRow.t;
    products : list ProductRow.t;
    missing_products : list MissingRow.t;
    returned_products : list ReturnedRow.t;
    order_history : list HistoryRow.t }.
End Joined.

Definition join (d : DB.t) (r : OrderRow.t) : Joined.t :=
  Joined.mk r
    (filter (fun p => String.eqb (ProductRow.order_id p) (OrderRow.id r)) (DB.products d))
    (filter (fun m => String.eqb (MissingRow.order_id m) (OrderRow.id r)) (DB.missing_products d))
    (filter (fun x => String.eqb (ReturnedRow.order_id x) (OrderRow.id r)) (DB.returned_products d))
    (filter (fun h => String.eqb (HistoryRow.order_id h) (OrderRow.id r)) (DB.order_history d)).

(** Stable sorting by insertion; [Array.prototype.sort] and the store's
    [order by] are modelled by it. *)
Section Sorting.
Context {A : Type} (le : A -> A -> bool).

Fixpoint insert_sorted (x : A) (l : list A) : list A :=
  match l with
  | [] => [x]
  | y :: l' => if le x y then x :: y :: l' else y :: insert_sorted x l'
  end.

Fixpoint stable_sort (l : list A) : list A :=
  match l with
  | [] => []
  | x :: l' => insert_sorted x (stable_sort l')
  end.
End Sorting.

(** [.order("created_at", { ascending: false })] *)
Definition newest_first (a b : OrderRow.t) : bool :=
  OrderRow.created_at b <=? OrderRow.created_at a.

(** [(a, b) => a.timestamp.getTime() - b.timestamp.getTime()] *)
Definition oldest_first (a b : HistoryEntry.t) : bool :=
  HistoryEntry.timestamp a <=? HistoryEntry.timestamp b.

(** The query of [fetchOrders]: newest first, without the paid orders
    and at most 60 rows when active orders are prioritized, at most 200
    rows otherwise. *)
Definition select_orders (prioritizeActive : bool) (d : DB.t) : list Joined.t :=
  let sorted := stable_sort newest_first (DB.orders d) in
  let rows :=
    if prioritizeActive
    then firstn 60 (filter (fun r => negb (OrderStatus_eqb (OrderRow.status r) pagado)) sorted)
    else firstn 200 sorted in
  map (join d) rows.

(** ** Mapping a fetched row to an order (use-supabase.ts, lines 130-171) *)

Definition mapProductRow (p : ProductRow.t) : Product.t :=
  Product.mk (ProductRow.id p) (ProductRow.code p) (ProductRow.name p)
    (ProductRow.quantity p)
    (parse_if_truthy (ProductRow.original_quantity p))
    (ProductRow.is_checked p)
    (parse_if_truthy (ProductRow.unit_price p))
    (parse_if_truthy (ProductRow.subtotal p)).

Definition mapMissingRow (m : MissingRow.t) : MissingProduct.t :=
  MissingProduct.mk (MissingRow.product_id m) (MissingRow.product_name m)
    (MissingRow.code m) (MissingRow.quantity m).

Definition mapReturnedRow (r : ReturnedRow.t) : ReturnedProduct.t :=
  ReturnedProduct.mk (ReturnedRow.product_id r) (ReturnedRow.product_name r)
    (ReturnedRow.code r) (ReturnedRow.quantity r) (ReturnedRow.reason r).

Definition mapHistoryRow (h : HistoryRow.t) : HistoryEntry.t :=
  HistoryEntry.mk (HistoryRow.id h) (HistoryRow.action h) (HistoryRow.user_name h)
    (HistoryRow.created_at h) (HistoryRow.notes h).

Definition mapOrderRow (orderData : Joined.t) : Order.t :=
  let r := Joined.row orderData in
  Order.mk
    (OrderRow.id r)
    (OrderRow.client_name r)
    (string_or (OrderRow.client_address r) "")
    (map mapProductRow (Joined.products orderData))
    (OrderRow.status r)
    (map mapMissingRow (Joined.missing_products orderData))
    (map mapReturnedRow (Joined.returned_products orderData))
    (OrderRow.payment_method r)
    (OrderRow.is_paid r)
    (OrderRow.created_at r)
    (stable_sort oldest_first (map mapHistoryRow (Joined.order_history orderData)))
    (OrderRow.armed_by r)
    (OrderRow.controlled_by r)
    (OrderRow.awaiting_payment_verification r)
    (OrderRow.initial_notes r)
    (OrderRow.currently_working_by r)
    (OrderRow.working_start_time r)
    (parse_if_truthy (OrderRow.total_amount r)).

(** ** The world of the hook

    The module-level cache, the two persistence layers and what the
    environment decides: the clock, the random part of generated ids,
    and which of the coming persistence calls fail.  React's [loading]
    and [error] states only feed the display and are left out. *)

Module Broadcast.
Record t : Type := mk
  { type : NotificationType;
    title : string;
    message : string;
    excludeUser : option string;
    timestamp : Z;
    id : string }.
End Broadcast.

Module World.
Record t : Type := mk
  { ordersCache : list Order.t;
    lastFetchTime : Z;
    (** [localStorage["orders"]], parsed *)
    stored_orders : option (list Order.t);
    (** [localStorage["broadcast_notification"]] *)
    broadcast_notification : option Broadcast.t;
    db : DB.t;
    (** [Date.now()] *)
    now : Z;
    (** the random suffix of the n-th generated id, and n *)
    rand : nat -> string;
    generated : nat;
    (** outcome of the coming persistence calls, [true] for a failure;
        calls beyond the list succeed *)
    faults : list bool }.

Definition with_ordersCache (w : t) (x : list Order.t) : t :=
  mk x (lastFetchTime w) (stored_orders w) (broadcast_notification w) (db w)
     (now w) (rand w) (generated w) (faults w).
Definition with_lastFetchTime (w : t) (x : Z) : t :=
  mk (ordersCache w) x (stored_orders w) (broadcast_notification w) (db w)
     (now w) (rand w) (generated w) (faults w).
Definition with_stored_orders (w : t) (x : option (list Order.t)) : t :=
  mk (ordersCache w) (lastFetchTime w) x (broadcast_notification w) (db w)
     (now w) (rand w) (generated w) (faults w).
Definition with_broadcast_notification (w : t) (x : option Broadcast.t) : t :=
  mk (ordersCache w) (lastFetchTime w) (stored_orders w) x (db w)
     (now w) (rand w) (generated w) (faults w).
Definition with_db (w : t) (x : DB.t) : t :=
  mk (ordersCache w) (lastFetchTime w) (stored_orders w) (broadcast_notification w) x
     (now w) (rand w) (generated w) (faults w).
Definition with_generated (w : t) (x : nat) : t :=
  mk (ordersCache w) (lastFetchTime w) (stored_orders w) (broadcast_notification w) (db w)
     (now w) (rand w) x (faults w).
Definition with_faults (w : t) (x : list bool) : t :=
  mk (ordersCache w) (lastFetchTime w) (stored_orders w) (broadcast_notification w) (db w)
     (now w) (rand w) (generated w) x.
End World.

(** ** A monad for the hook: state and exceptions *)

Inductive Outcome (A : Type) : Type :=
| Return (a : A)
| Throw.
Arguments Return {A} a.
Arguments Throw {A}.

Definition M (A : Type) : Type := World.t -> Outcome A * World.t.

Definition ret {A : Type} (a : A) : M A := fun w => (Return a, w).

Definition bind {A B : Type} (m : M A) (k : A -> M B) : M B :=
  fun w =>
    match m w with
    | (Return a, w') => k a w'
    | (Throw, w') => (Throw, w')
    end.

Definition throw {A : Type} : M A := fun w => (Throw, w).

(** [try { body } catch { handler }] *)
Definition try_catch {A : Type} (body handler : M A) : M A :=
  fun w =>
    match body w with
    | (Return a, w') => (Return a, w')
    | (Throw, w') => handler w'
    end.

Definition gets {A : Type} (f : World.t -> A) : M A := fun w => (Return (f w), w).

Definition modify (f : World.t -> World.t) : M unit := fun w => (Return tt, f w).

Declare Scope hook_scope.
Delimit Scope hook_scope with hook.
Notation "x <- m ;; k" := (bind m (fun x => k))
  (at level 61, m at next level, right associativity) : hook_scope.
Notation "m ;; k" := (bind m (fun _ => k))
  (at level 61, right associativity) : hook_scope.
Local Open Scope hook_scope.

Fixpoint mapM {A B : Type} (f : A -> M B) (l : list A) : M (list B) :=
  match l with
  | [] => ret []
  | x :: l' => y <- f x ;; ys <- mapM f l' ;; ret (y :: ys)
  end.

(** The next persistence call: does it fail? *)
Definition next_fault : M bool :=
  fun w =>
    match World.faults w with
    | [] => (Return false, w)
    | b :: fs => (Return b, World.with_faults w fs)
    end.

(** [generateUniqueId(prefix)] *)
Definition generateUniqueId (prefix : string) : M string :=
  fun w =>
    (Return (String.append prefix (World.rand w (World.generated w))),
     World.with_generated w (S (World.generated w))).

(** [x || generateUniqueId(prefix)] *)
Definition id_or_generate (x : string) (prefix : string) : M string :=
  if truthy_string x then ret x else generateUniqueId prefix.

Definition set_ordersCache (f : list Order.t -> list Order.t) : M unit :=
  modify (fun w => World.with_ordersCache w (f (World.ordersCache w))).

(** [localStorage.setItem]: fails when the environment says so, and
    then writes nothing. *)
Definition localStorage_set (write : World.t -> World.t) : M unit :=
  failed <- next_fault ;;
  if failed : bool then throw else modify write.

Definition setItem_orders (l : list Order.t) : M unit :=
  localStorage_set (fun w => World.with_stored_orders w (Some l)).

(** [saved ? JSON.parse(saved) : []] *)
Definition parsed_or_empty (saved : option (list Order.t)) : list Order.t :=
  match saved with Some l => l | None => [] end.

(** [broadcastNotification] (use-supabase.ts, lines 618-622); the timer
    that clears the slot a second later is not modelled. *)
Definition broadcastNotification (type : NotificationType) (title message : string)
    (excludeUser : option string) : M unit :=
  timestamp <- gets World.now ;;
  id <- generateUniqueId "NOTIF-" ;;
  localStorage_set (fun w =>
    World.with_broadcast_notification w
      (Some (Broadcast.mk type title message excludeUser timestamp id))).

(** The answer of the store to one request: [{ data, error }]. *)
Module Response.
Record t (A : Type) : Type := mk
  { data : option A;
    error : bool }.
Arguments mk {A} data error.
Arguments data {A} t.
Arguments error {A} t.
End Response.

(** [await supabase.from(..)...]: a failed request changes nothing in
    the store. *)
Definition await {A : Type} (query : DB.t -> A * DB.t) : M (Response.t A) :=
  failed <- next_fault ;;
  if failed : bool then ret (Response.mk None true)
  else fun w =>
         let (a, d) := query (World.db w) in
         (Return (Response.mk (Some a) false), World.with_db w d).

(** [if (error) throw error] *)
Definition throw_if_error {A : Type} (r : Response.t A) : M unit :=
  if Response.error r then throw else ret tt.

(** ** Requests to the store

    A request is a function on the tables.  A key whose value is
    [undefined] is not sent (the request body is JSON): in an [update]
    its column keeps the stored value, in an [insert] it becomes
    [null]. *)

Definition order_id_is (i : string) (r : OrderRow.t) : bool := String.eqb (OrderRow.id r) i.

(** An optional value in the payload of an [update], when its unset
    value is [undefined]. *)
Definition sent_or_kept {A : Type} (sent stored : option A) : option A :=
  match sent with
  | Some v => Some v
  | None => stored
  end.

(** An optional field of an order is [None] when it is unset, be it
    [undefined] or [null].  The code tells the two apart in one place
    only, the body of the request of [updateOrder]: JSON drops a key
    whose value is [undefined] and sends a [null], which empties the
    column.  [mapOrderRow] copies six fields from the row as they are,
    [null] when the column is NULL, whereas [createOrder],
    [setWorkingOnOrder] and [clearWorkingOnOrder] leave or make fields
    [undefined].  So the order given to [updateOrder] comes with the
    record of which of these six fields, when unset, hold [null]. *)
Module Nulls.
Record t : Type := mk
  { paymentMethod : bool;
    armedBy : bool;
    controlledBy : bool;
    awaitingPaymentVerification : bool;
    initialNotes : bool;
    currentlyWorkingBy : bool }.

(** The unset fields of an order that [mapOrderRow] has made. *)
Definition fetched : t := mk true true true true true true.

(** An order all of whose unset fields are [undefined]. *)
Definition none : t := mk false false false false false false.
End Nulls.

(** An optional value in the payload of an [update], when its unset
    value is [null] ([is_null]) or [undefined]. *)
Definition sent_null_or_kept {A : Type} (is_null : bool) (sent stored : option A)
  : option A :=
  match sent with
  | Some v => Some v
  | None => if is_null then None else stored
  end.

(** [from("orders").update(payload).eq("id", i)] *)
Definition update_orders (payload : OrderRow.t -> OrderRow.t) (i : string)
  : DB.t -> unit * DB.t :=
  fun d =>
    (tt, DB.with_orders d
           (map (fun r => if order_id_is i r then payload r else r) (DB.orders d))).

(** [from("orders").insert(row)] *)
Definition insert_order (row : OrderRow.t) : DB.t -> unit * DB.t :=
  fun d => (tt, DB.with_orders d (DB.orders d ++ [row])).

Definition insert_products (rows : list ProductRow.t) : DB.t -> unit * DB.t :=
  fun d => (tt, DB.with_products d (DB.products d ++ rows)).

Definition insert_missing_products (rows : list MissingRow.t) : DB.t -> unit * DB.t :=
  fun d => (tt, DB.with_missing_products d (DB.missing_products d ++ rows)).

Definition insert_returned_products (rows : list ReturnedRow.t) : DB.t -> unit * DB.t :=
  fun d => (tt, DB.with_returned_products d (DB.returned_products d ++ rows)).

Definition insert_order_history (rows : list HistoryRow.t) : DB.t -> unit * DB.t :=
  fun d => (tt, DB.with_order_history d (DB.order_history d ++ rows)).

(** [from(table).delete().eq("order_id", i)] *)
Definition delete_products (i : string) : DB.t -> unit * DB.t :=
  fun d =>
    (tt, DB.with_products d
           (filter (fun p => negb (String.eqb (ProductRow.order_id p) i)) (DB.products d))).

Definition delete_missing_products (i : string) : DB.t -> unit * DB.t :=
  fun d =>
    (tt, DB.with_missing_products d
           (filter (fun m => negb (String.eqb (MissingRow.order_id m) i))
              (DB.missing_products d))).

Definition delete_returned_products (i : string) : DB.t -> unit * DB.t :=
  fun d =>
    (tt, DB.with_returned_products d
           (filter (fun x => negb (String.eqb (ReturnedRow.order_id x) i))
              (DB.returned_products d))).

(** [from("order_history").select("id").eq("order_id", i)] *)
Definition select_history_ids (i : string) : DB.t -> list string * DB.t :=
  fun d =>
    (map HistoryRow.id
       (filter (fun h => String.eqb (HistoryRow.order_id h) i) (DB.order_history d)),
     d).

(** Modelled from the spec: the table definitions are not part of the
    sources; deleting an order row deletes the rows of the four tables
    it owns (cascade-delete semantics).

    [from("orders").delete().eq("id", i)] *)
Definition delete_order (i : string) : DB.t -> unit * DB.t :=
  fun d =>
    (tt, DB.mk
           (filter (fun r => negb (order_id_is i r)) (DB.orders d))
           (filter (fun p => negb (String.eqb (ProductRow.order_id p) i)) (DB.products d))
           (filter (fun m => negb (String.eqb (MissingRow.order_id m) i))
              (DB.missing_products d))
           (filter (fun x => negb (String.eqb (ReturnedRow.order_id x) i))
              (DB.returned_products d))
           (filter (fun h => negb (String.eqb (HistoryRow.order_id h) i))
              (DB.order_history d))).

Definition query_orders (prioritizeActive : bool) : DB.t -> list Joined.t * DB.t :=
  fun d => (select_orders prioritizeActive d, d).

(** [ordersCache[i] = order] at the first index that satisfies [p]. *)
Fixpoint replace_first {A : Type} (p : A -> bool) (x : A) (l : list A) : list A :=
  match l with
  | [] => []
  | y :: l' => if p y then x :: l' else y :: replace_first p x l'
  end.

Definition CACHE_MS : Z := 5000.

(** ** The hook [useSupabase] (use-supabase.ts, lines 118-609) *)

Section useSupabase.

(** [!supabase]: fixed when the module is loaded. *)
Variable useLocalStorage : bool.

(** *** fetchOrders (lines 174-233) *)
Definition fetchOrders (forceRefresh prioritizeActive : bool) : M (list Order.t) :=
  now <- gets World.now ;;
  cache <- gets World.ordersCache ;;
  lastFetchTime <- gets World.lastFetchTime ;;
  if negb forceRefresh && (0 <? List.length cache)%nat && (now - lastFetchTime <? CACHE_MS)
  then ret cache
  else
    try_catch
      (if useLocalStorage then
         saved <- gets World.stored_orders ;;
         match saved with
         | None => ret []
         | Some parsed =>
             set_ordersCache (fun _ => parsed) ;;
             modify (fun w => World.with_lastFetchTime w now) ;;
             ret parsed
         end
       else
         r <- await (query_orders prioritizeActive) ;;
         throw_if_error r ;;
         let mapped := map mapOrderRow (match Response.data r with Some d => d | None => [] end) in
         (if prioritizeActive then
            set_ordersCache (fun ordersCache =>
              let previousPaid :=
                filter (fun o => OrderStatus_eqb (Order.status o) pagado) ordersCache in
              mapped ++ previousPaid)
          else set_ordersCache (fun _ => mapped)) ;;
         modify (fun w => World.with_lastFetchTime w now) ;;
         gets World.ordersCache)
      (gets World.ordersCache).

(** *** createOrder (lines 266-375) *)
Definition createOrder (orderData : OrderData.t) (currentUser : User.t) : M bool :=
  orderId <- generateUniqueId "PED-" ;;
  createdAt <- gets World.now ;;
  histId <- generateUniqueId "HIST-" ;;
  timestamp <- gets World.now ;;
  products <-
    mapM (fun p =>
            id <- id_or_generate (Product.id p) "PROD-" ;;
            ret (Product.mk id (Product.code p) (Product.name p) (Product.quantity p)
                   (Some (Product.quantity p)) (Some false)
                   (Product.unitPrice p) (Product.subtotal p)))
         (OrderData.products orderData) ;;
  let optimistic :=
    Order.mk orderId
      (OrderData.clientName orderData)
      (OrderData.clientAddress orderData)
      products
      en_armado
      []
      []
      (OrderData.paymentMethod orderData)
      false
      createdAt
      [HistoryEntry.mk histId "Presupuesto creado y pedido listo para armar"
         (User.name currentUser) timestamp
         (string_or_undefined (OrderData.initialNotes orderData))]
      (OrderData.armedBy orderData)
      (OrderData.controlledBy orderData)
      (OrderData.awaitingPaymentVerification orderData)
      (OrderData.initialNotes orderData)
      None
      None
      (OrderData.totalAmount orderData) in
  set_ordersCache (fun ordersCache => optimistic :: ordersCache) ;;
  try_catch
    (if useLocalStorage then
       saved <- gets World.stored_orders ;;
       let list := parsed_or_empty saved in
       setItem_orders (optimistic :: list) ;;
       broadcastNotification info "Nuevo Presupuesto"
         (String.append "Vale creo un presupuesto para " (OrderData.clientName orderData))
         (Some (User.name currentUser)) ;;
       ret true
     else
       server_time <- gets World.now ;;
       r <- await (insert_order
                     (OrderRow.mk orderId
                        (OrderData.clientName orderData)
                        (Some (OrderData.clientAddress orderData))
                        en_armado
                        None
                        false
                        None None None
                        (OrderData.initialNotes orderData)
                        server_time
                        None None
                        (OrderData.totalAmount orderData))) ;;
       throw_if_error r ;;
       productsToInsert <-
         mapM (fun p =>
                 id <- id_or_generate (Product.id p) "PROD-" ;;
                 ret (ProductRow.mk id orderId (Product.code p) (Product.name p)
                        (Product.quantity p) (Some (Product.quantity p)) (Some false)
                        (Product.unitPrice p) (Product.subtotal p)))
              (OrderData.products orderData) ;;
       r <- await (insert_products productsToInsert) ;;
       throw_if_error r ;;
       histRowId <- generateUniqueId "HIST-" ;;
       r <- await (insert_order_history
                     [HistoryRow.mk histRowId orderId
                        "Presupuesto creado y pedido listo para armar"
                        (User.name currentUser)
                        (OrderData.initialNotes orderData)
                        server_time]) ;;
       throw_if_error r ;;
       broadcastNotification info "Nuevo Presupuesto"
         (String.append "Vale creo un presupuesto para " (OrderData.clientName orderData))
         (Some (User.name currentUser)) ;;
       ret true)
    (set_ordersCache (filter (fun o => negb (has_id orderId o))) ;;
     ret false).

(** *** Working flags (lines 378-428) *)
Definition mark_working (orderId : string) (by_ : option string) (start : option Z)
    (l : list Order.t) : list Order.t :=
  map (fun o => if has_id orderId o then Order.with_working o by_ start else o) l.

Definition setWorkingOnOrder (orderId userName userRole : string) : M bool :=
  if negb (String.eqb userRole "armador") then ret true
  else
    start <- gets World.now ;;
    set_ordersCache (mark_working orderId (Some userName) (Some start)) ;;
    try_catch
      (if useLocalStorage then
         saved <- gets World.stored_orders ;;
         let list := parsed_or_empty saved in
         match find (has_id orderId) list with
         | Some o =>
             start' <- gets World.now ;;
             setItem_orders
               (replace_first (has_id orderId)
                  (Order.with_working o (Some userName) (Some start')) list) ;;
             ret true
         | None => ret true
         end
       else
         start' <- gets World.now ;;
         r <- await (update_orders
                       (fun r =>
                          OrderRow.mk (OrderRow.id r) (OrderRow.client_name r)
                            (OrderRow.client_address r) (OrderRow.status r)
                            (OrderRow.payment_method r) (OrderRow.is_paid r)
                            (OrderRow.armed_by r) (OrderRow.controlled_by r)
                            (OrderRow.awaiting_payment_verification r)
                            (OrderRow.initial_notes r) (OrderRow.created_at r)
                            (Some userName) (Some start')
                            (OrderRow.total_amount r))
                       orderId) ;;
         throw_if_error r ;;
         ret true)
      (set_ordersCache (mark_working orderId None None) ;;
       ret false).

Definition clearWorkingOnOrder (orderId : string) (userName userRole : option string)
  : M bool :=
  if match userRole with
     | Some r => truthy_string r && negb (String.eqb r "armador")
     | None => false
     end
  then ret true
  else
    set_ordersCache (mark_working orderId None None) ;;
    try_catch
      (if useLocalStorage then
         saved <- gets World.stored_orders ;;
         let list := parsed_or_empty saved in
         match find (has_id orderId) list with
         | Some o =>
             if negb (is_set (string_or_undefined userName))
                || option_string_eqb (Order.currentlyWorkingBy o) userName
             then
               setItem_orders
                 (replace_first (has_id orderId) (Order.with_working o None None) list) ;;
               ret true
             else ret true
         | None => ret true
         end
       else
         r <- await (update_orders
                       (fun r =>
                          OrderRow.mk (OrderRow.id r) (OrderRow.client_name r)
                            (OrderRow.client_address r) (OrderRow.status r)
                            (OrderRow.payment_method r) (OrderRow.is_paid r)
                            (OrderRow.armed_by r) (OrderRow.controlled_by r)
                            (OrderRow.awaiting_payment_verification r)
                            (OrderRow.initial_notes r) (OrderRow.created_at r)
                            None None
                            (OrderRow.total_amount r))
                       orderId) ;;
         throw_if_error r ;;
         ret true)
      (ret false).

(** *** updateOrder (lines 431-557) *)
Definition updateOrder_payload (order : Order.t) (nulls : Nulls.t) (r : OrderRow.t)
  : OrderRow.t :=
  OrderRow.mk
    (OrderRow.id r)
    (Order.clientName order)
    (Some (Order.clientAddress order))
    (Order.status order)
    (sent_null_or_kept (Nulls.paymentMethod nulls) (Order.paymentMethod order)
       (OrderRow.payment_method r))
    (Order.isPaid order)
    (sent_null_or_kept (Nulls.armedBy nulls) (Order.armedBy order) (OrderRow.armed_by r))
    (sent_null_or_kept (Nulls.controlledBy nulls) (Order.controlledBy order)
       (OrderRow.controlled_by r))
    (sent_null_or_kept (Nulls.awaitingPaymentVerification nulls)
       (Order.awaitingPaymentVerification order)
       (OrderRow.awaiting_payment_verification r))
    (sent_null_or_kept (Nulls.initialNotes nulls) (Order.initialNotes order)
       (OrderRow.initial_notes r))
    (OrderRow.created_at r)
    (sent_null_or_kept (Nulls.currentlyWorkingBy nulls) (Order.currentlyWorkingBy order)
       (OrderRow.currently_working_by r))
    (* [order.workingStartTime?.toISOString()] is [undefined] when the
       field is unset, and so is [totalAmount] in an order that
       [mapOrderRow] has made *)
    (sent_or_kept (Order.workingStartTime order) (OrderRow.working_start_time r))
    (sent_or_kept (Order.totalAmount order) (OrderRow.total_amount r)).

Definition notify_update (order : Order.t) (currentUser : option User.t) : M unit :=
  match currentUser with
  | Some u =>
      match last_entry (Order.history order) with
      | Some last =>
          if String.eqb (HistoryEntry.user last) (User.name u) then
            broadcastNotification success "Estado Actualizado"
              (String.append (User.name u)
                 (String.append " actualizo el pedido de " (Order.clientName order)))
              (Some (User.name u))
          else ret tt
      | None => ret tt
      end
  | None => ret tt
  end.

Definition updateOrder (order : Order.t) (nulls : Nulls.t) (currentUser : option User.t)
  : M bool :=
  set_ordersCache (replace_first (has_id (Order.id order)) order) ;;
  try_catch
    (if useLocalStorage then
       saved <- gets World.stored_orders ;;
       let list := parsed_or_empty saved in
       (if existsb (has_id (Order.id order)) list
        then setItem_orders (replace_first (has_id (Order.id order)) order list)
        else ret tt) ;;
       notify_update order currentUser ;;
       ret true
     else
       r <- await (update_orders (updateOrder_payload order nulls) (Order.id order)) ;;
       throw_if_error r ;;

       _ <- await (delete_products (Order.id order)) ;;
       (if (0 <? List.length (Order.products order))%nat then
          toInsert <-
            mapM (fun p =>
                    id <- id_or_generate (Product.id p) "PROD-" ;;
                    ret (ProductRow.mk id (Order.id order) (Product.code p)
                           (Product.name p) (Product.quantity p)
                           (Product.originalQuantity p) (Product.isChecked p)
                           (Product.unitPrice p) (Product.subtotal p)))
                 (Order.products order) ;;
          r <- await (insert_products toInsert) ;;
          throw_if_error r
        else ret tt) ;;

       _ <- await (delete_missing_products (Order.id order)) ;;
       (if (0 <? List.length (Order.missingProducts order))%nat then
          let toInsert :=
            map (fun m =>
                   MissingRow.mk (Order.id order) (MissingProduct.productId m)
                     (MissingProduct.productName m) (MissingProduct.code m)
                     (MissingProduct.quantity m))
                (Order.missingProducts order) in
          r <- await (insert_missing_products toInsert) ;;
          throw_if_error r
        else ret tt) ;;

       _ <- await (delete_returned_products (Order.id order)) ;;
       (if (0 <? List.length (Order.returnedProducts order))%nat then
          let toInsert :=
            map (fun x =>
                   ReturnedRow.mk (Order.id order) (ReturnedProduct.productId x)
                     (ReturnedProduct.productName x) (ReturnedProduct.code x)
                     (ReturnedProduct.quantity x) (ReturnedProduct.reason x))
                (Order.returnedProducts order) in
          r <- await (insert_returned_products toInsert) ;;
          throw_if_error r
        else ret tt) ;;

       existing <- await (select_history_ids (Order.id order)) ;;
       let existingIds := match Response.data existing with Some l => l | None => [] end in
       let toHist :=
         filter (fun h => negb (existsb (String.eqb (HistoryEntry.id h)) existingIds))
                (Order.history order) in
       (if (0 <? List.length toHist)%nat then
          rows <-
            mapM (fun h =>
                    id <- id_or_generate (HistoryEntry.id h) "HIST-" ;;
                    ret (HistoryRow.mk id (Order.id order) (HistoryEntry.action h)
                           (HistoryEntry.user h) (HistoryEntry.notes h)
                           (HistoryEntry.timestamp h)))
                 toHist ;;
          r <- await (insert_order_history rows) ;;
          throw_if_error r
        else ret tt) ;;

       notify_update order currentUser ;;
       ret true)
    (ret false).

(** *** deleteOrder (lines 560-582) *)
Definition deleteOrder (orderId : string) : M bool :=
  prev <- gets World.ordersCache ;;
  set_ordersCache (filter (fun o => negb (has_id orderId o))) ;;
  try_catch
    (if useLocalStorage then
       saved <- gets World.stored_orders ;;
       let list := parsed_or_empty saved in
       setItem_orders (filter (fun o => negb (has_id orderId o)) list) ;;
       ret true
     else
       r <- await (delete_order orderId) ;;
       throw_if_error r ;;
       ret true)
    (set_ordersCache (fun _ => prev) ;;
     ret false).

End useSupabase.

(** ** Vocabulary of the properties *)

(** An order that is delivered and already paid. *)
Definition delivered_and_paid (o : Order.t) : bool :=
  OrderStatus_eqb (Order.status o) entregado && Order.isPaid o.

(** Both working flags are set, or neither. *)
Definition flags_agree (o : Order.t) : bool :=
  Bool.eqb (is_set (Order.currentlyWorkingBy o)) (is_set (Order.workingStartTime o)).

Definition row_flags_agree (r : OrderRow.t) : bool :=
  Bool.eqb (is_set (OrderRow.currently_working_by r)) (is_set (OrderRow.working_start_time r)).

(** The working flags agree on every order of the cache and of both
    persistence layers. *)
Definition flags_consistent (w : World.t) : Prop :=
  Forall (fun o => flags_agree o = true) (World.ordersCache w)
  /\ Forall (fun o => flags_agree o = true) (parsed_or_empty (World.stored_orders w))
  /\ Forall (fun r => row_flags_agree r = true) (DB.orders (World.db w)).

(** Setters used to state what [mapOrderRow] does with amounts. *)
Definition row_with_total_amount (r : OrderRow.t) (x : option Z) : OrderRow.t :=
  OrderRow.mk (OrderRow.id r) (OrderRow.client_name r) (OrderRow.client_address r)
    (OrderRow.status r) (OrderRow.payment_method r) (OrderRow.is_paid r)
    (OrderRow.armed_by r) (OrderRow.controlled_by r)
    (OrderRow.awaiting_payment_verification r) (OrderRow.initial_notes r)
    (OrderRow.created_at r) (OrderRow.currently_working_by r)
    (OrderRow.working_start_time r) x.

Definition product_row_with_amounts (p : ProductRow.t)
    (original_quantity unit_price subtotal : option Z) : ProductRow.t :=
  ProductRow.mk (ProductRow.id p) (ProductRow.order_id p) (ProductRow.code p)
    (ProductRow.name p) (ProductRow.quantity p) original_quantity
    (ProductRow.is_checked p) unit_price subtotal.

Definition joined_with_row (j : Joined.t) (r : OrderRow.t) : Joined.t :=
  Joined.mk r (Joined.products j) (Joined.missing_products j)
    (Joined.returned_products j) (Joined.order_history j).

(** Nobody holds the order: under the invariant of the working flags,
    an order whose [currentlyWorkingBy] is unset has no
    [workingStartTime] either. *)
Definition no_claim (o : Order.t) : Prop :=
  Order.currentlyWorkingBy o = None /\ Order.workingStartTime o = None.

Definition row_no_claim (r : OrderRow.t) : Prop :=
  OrderRow.currently_working_by r = None /\ OrderRow.working_start_time r = None.

(** Nobody holds the order [orderId], in the cache, in local storage
    and in the remote table. *)
Definition unclaimed (orderId : string) (w : World.t) : Prop :=
  (forall o, In o (World.ordersCache w) -> has_id orderId o = true -> no_claim o)
  /\ (forall o, In o (parsed_or_empty (World.stored_orders w)) ->
                has_id orderId o = true -> no_claim o)
  /\ (forall r, In r (DB.orders (World.db w)) -> order_id_is orderId r = true ->
                row_no_claim r).

(** The id [createOrder] gives to the order it creates in [w]. *)
Definition next_order_id (w : World.t) : string :=
  String.append "PED-" (World.rand w (World.generated w)).

(** One of the first [n] coming persistence calls fails. *)
Definition fails_within (n : nat) (w : World.t) : bool :=
  existsb (fun b : bool => b) (firstn n (World.faults w)).

(** [fetchOrders] answers from the cache without fetching. *)
Definition served_from_cache (forceRefresh : bool) (w : World.t) : bool :=
  negb forceRefresh
  && (0 <? List.length (World.ordersCache w))%nat
  && (World.now w - World.lastFetchTime w <? CACHE_MS).

(** What the store answers to a prioritized and to a full query. *)
Definition fresh_active (w : World.t) : list Order.t :=
  map mapOrderRow (select_orders true (World.db w)).

Definition fresh_all (w : World.t) : list Order.t :=
  map mapOrderRow (select_orders false (World.db w)).

(** The paid orders the cache holds. *)
Definition cached_paid (w : World.t) : list Order.t :=
  filter (fun o => OrderStatus_eqb (Order.status o) pagado) (World.ordersCache w).

(** An optional amount that is not a zero. *)
Definition nonzero_if_set (x : option Z) : bool :=
  match x with
  | Some n => truthy_number n
  | None => true
  end.

(** A line that [updateOrder] stores under its own id and with amounts
    that are not zero. *)
Definition product_roundtrips (p : Product.t) : bool :=
  truthy_string (Product.id p)
  && nonzero_if_set (Product.originalQuantity p)
  && nonzero_if_set (Product.unitPrice p)
  && nonzero_if_set (Product.subtotal p).

(** The rows [updateOrder] sends for the collections of an order. *)
Definition product_row_of (orderId : string) (p : Product.t) : ProductRow.t :=
  ProductRow.mk (Product.id p) orderId (Product.code p) (Product.name p)
    (Product.quantity p) (Product.originalQuantity p) (Product.isChecked p)
    (Product.unitPrice p) (Product.subtotal p).

Definition missing_row_of (orderId : string) (m : MissingProduct.t) : MissingRow.t :=
  MissingRow.mk orderId (MissingProduct.productId m) (MissingProduct.productName m)
    (MissingProduct.code m) (MissingProduct.quantity m).

Definition returned_row_of (orderId : string) (x : ReturnedProduct.t) : ReturnedRow.t :=
  ReturnedRow.mk orderId (ReturnedProduct.productId x) (ReturnedProduct.productName x)
    (ReturnedProduct.code x) (ReturnedProduct.quantity x) (ReturnedProduct.reason x).

Definition history_row_of (orderId : string) (h : HistoryEntry.t) : HistoryRow.t :=
  HistoryRow.mk (HistoryEntry.id h) orderId (HistoryEntry.action h) (HistoryEntry.user h)
    (HistoryEntry.notes h) (HistoryEntry.timestamp h).

(** The history rows the store holds for an order. *)
Definition history_rows_of (orderId : string) (d : DB.t) : list HistoryRow.t :=
  filter (fun h => String.eqb (HistoryRow.order_id h) orderId) (DB.order_history d).

(** The history entries of an order that the store does not hold yet. *)
Definition new_history (o : Order.t) (d : DB.t) : list HistoryEntry.t :=
  filter (fun h => negb (existsb (String.eqb (HistoryEntry.id h))
                           (map HistoryRow.id (history_rows_of (Order.id o) d))))
         (Order.history o).

(** The tables after an [updateOrder] all of whose requests succeed,
    for an order whose lines and new history entries have ids. *)
Definition stored_after_update (o : Order.t) (nulls : Nulls.t) (d : DB.t) : DB.t :=
  DB.mk
    (map (fun r => if order_id_is (Order.id o) r then updateOrder_payload o nulls r else r)
         (DB.orders d))
    (filter (fun p => negb (String.eqb (ProductRow.order_id p) (Order.id o))) (DB.products d)
     ++ map (product_row_of (Order.id o)) (Order.products o))
    (filter (fun m => negb (String.eqb (MissingRow.order_id m) (Order.id o)))
       (DB.missing_products d)
     ++ map (missing_row_of (Order.id o)) (Order.missingProducts o))
    (filter (fun x => negb (String.eqb (ReturnedRow.order_id x) (Order.id o)))
       (DB.returned_products d)
     ++ map (returned_row_of (Order.id o)) (Order.returnedProducts o))
    (DB.order_history d ++ map (history_row_of (Order.id o)) (new_history o d)).

(** The stored row agrees with the order on what [updateOrder] does not
    write: the creation time, and every optional field the order leaves
    unset. *)
Definition row_ready (o : Order.t) (r : OrderRow.t) : Prop :=
  OrderRow.created_at r = Order.createdAt o
  /\ (Order.paymentMethod o = None -> OrderRow.payment_method r = None)
  /\ (Order.armedBy o = None -> OrderRow.armed_by r = None)
  /\ (Order.controlledBy o = None -> OrderRow.controlled_by r = None)
  /\ (Order.awaitingPaymentVerification o = None ->
      OrderRow.awaiting_payment_verification r = None)
  /\ (Order.initialNotes o = None -> OrderRow.initial_notes r = None)
  /\ (Order.currentlyWorkingBy o = None -> OrderRow.currently_working_by r = None)
  /\ (Order.workingStartTime o = None -> OrderRow.working_start_time r = None)
  /\ (Order.totalAmount o = None -> parse_if_truthy (OrderRow.total_amount r) = None).

(** The history of the order continues the stored one: the stored
    entries first, then entries with ids of their own, the whole in the
    order of the timestamps. *)
Definition history_ready (o : Order.t) (d : DB.t) : Prop :=
  exists added : list HistoryEntry.t,
    Order.history o = map mapHistoryRow (history_rows_of (Order.id o) d) ++ added
    /\ Forall (fun h => truthy_string (HistoryEntry.id h) = true
                        /\ ~ In (HistoryEntry.id h)
                               (map HistoryRow.id (history_rows_of (Order.id o) d)))
         added
    /\ StronglySorted (fun a b => oldest_first a b = true) (Order.history o).

(** An order that the remote round trip gives back as it is. *)
Definition remote_ready (d : DB.t) (o : Order.t) : Prop :=
  In (Order.id o) (map OrderRow.id (DB.orders d))
  /\ (List.length (DB.orders d) <= 200)%nat
  /\ (forall r, In r (DB.orders d) -> OrderRow.id r = Order.id o -> row_ready o r)
  /\ Forall (fun p => product_roundtrips p = true) (Order.products o)
  /\ nonzero_if_set (Order.totalAmount o) = true
  /\ history_ready o d.

(** An order that the round trip gives back as it is: in local mode
    any order that local storage holds. *)
Definition roundtrip_ready (useLocalStorage : bool) (w : World.t) (o : Order.t) : Prop :=
  if useLocalStorage
  then In (Order.id o) (map Order.id (parsed_or_empty (World.stored_orders w)))
  else remote_ready (World.db w) o.

(** [updateOrder] then a forced full [fetchOrders]: the order fetched
    under the id of the updated one, if any; [None] when [updateOrder]
    does not return [true] or the fetch throws. *)
Definition round_trip (useLocalStorage : bool) (order : Order.t) (nulls : Nulls.t)
    (currentUser : option User.t) (w : World.t) : option (option Order.t) :=
  match updateOrder useLocalStorage order nulls currentUser w with
  | (Return true, w1) =>
      match fetchOrders useLocalStorage true false w1 with
      | (Return fetched, _) => Some (find (has_id (Order.id order)) fetched)
      | (Throw, _) => None
      end
  | _ => None
  end.

(** What [createOrder] makes of one line of the order. *)
Definition created_from (p p' : Product.t) : Prop :=
  Product.quantity p' = Product.quantity p
  /\ Product.originalQuantity p' = Some (Product.quantity p)
  /\ Product.isChecked p' = Some false
  /\ Product.name p' = Product.name p.

(** What the remote branch of [createOrder] stores for one line. *)
Definition row_created_from (orderId : string) (p : Product.t) (r : ProductRow.t) : Prop :=
  ProductRow.order_id r = orderId
  /\ ProductRow.quantity r = Product.quantity p
  /\ ProductRow.original_quantity r = Some (Product.quantity p)
  /\ ProductRow.is_checked r = Some false
  /\ ProductRow.name r = Product.name p.

(** A relation between the world before and after that is kept by the
    bookkeeping of the environment. *)
Class Stable (R : World.t -> World.t -> Prop) : Prop :=
  { stable_refl : forall w, R w w;
    stable_trans : forall a b c, R a b -> R b c -> R a c;
    stable_faults : forall w fs, R w (World.with_faults w fs);
    stable_generated : forall w n, R w (World.with_generated w n);
    stable_broadcast : forall w b, R w (World.with_broadcast_notification w b) }.

Definition steps_in (R : World.t -> World.t -> Prop) {A : Type} (m : M A) : Prop :=
  forall w, R w (snd (m w)).

(** The cache is left alone. *)
Definition same_cache (w w' : World.t) : Prop :=
  World.ordersCache w' = World.ordersCache w.

(** An invariant that does not depend on the bookkeeping of the
    environment. *)
Class EnvInvariant (I : World.t -> Prop) : Prop :=
  { inv_faults : forall w fs, I w -> I (World.with_faults w fs);
    inv_generated : forall w n, I w -> I (World.with_generated w n);
    inv_broadcast : forall w b, I w -> I (World.with_broadcast_notification w b) }.

(** [m] keeps the invariant [I], whether it returns or throws, and what
    it returns from a world that satisfies [I] satisfies [Q]. *)
Definition keeps {A : Type} (I : World.t -> Prop) (m : M A) (Q : A -> Prop) : Prop :=
  forall w, I w ->
    I (snd (m w)) /\ (forall a, fst (m w) = Return a -> Q a).

(** The identifiers of the history rows of the store are kept. *)
Definition history_ids_kept (w w' : World.t) : Prop :=
  incl (map HistoryRow.id (DB.order_history (World.db w)))
       (map HistoryRow.id (DB.order_history (World.db w'))).

(** ** Sample data *)

Fixpoint tally (n : nat) : string :=
  match n with
  | O => "0"
  | S k => String.append "1" (tally k)
  end.

Definition camilo : User.t := User.mk "camilo-1" "Camilo" armador.
Definition riki : User.t := User.mk "riki-1" "Riki" vale.

Definition vino : Product.t :=
  Product.mk "PROD-1" (Some "V-750"%string) "Vino tinto" 10 (Some 10) (Some false)
    (Some 1500) (Some 15000).

Definition creado : HistoryEntry.t :=
  HistoryEntry.mk "HIST-1" "Presupuesto creado y pedido listo para armar" "Riki" 1000 None.

Definition armado_hecho : HistoryEntry.t :=
  HistoryEntry.mk "HIST-2" "Pedido armado" "Camilo" 2000 None.

Definition acme : Order.t :=
  Order.mk "PED-1" "Acme" "Calle 1" [vino] en_armado [] [] None false 1000 [creado]
    None None None None None None (Some 15000).

Definition acme_row : OrderRow.t :=
  OrderRow.mk "PED-1" "Acme" (Some "Calle 1"%string) en_armado None false None None None
    None 1000 None None (Some 15000).

Definition vino_row : ProductRow.t :=
  ProductRow.mk "PROD-1" "PED-1" (Some "V-750"%string) "Vino tinto" 10 (Some 10)
    (Some false) (Some 1500) (Some 15000).

Definition creado_row : HistoryRow.t :=
  HistoryRow.mk "HIST-1" "PED-1" "Presupuesto creado y pedido listo para armar" "Riki"
    None 1000.

Definition acme_db : DB.t := DB.mk [acme_row] [vino_row] [] [] [creado_row].

(** A world that holds the order of Acme in the cache and in both
    persistence layers; no persistence call is going to fail. *)
Definition acme_world : World.t :=
  World.mk [acme] 0 (Some [acme]) None acme_db 60000 tally 0 [].

(** The same world when the next persistence call fails. *)
Definition acme_world_offline : World.t :=
  World.mk [acme] 0 (Some [acme]) None acme_db 60000 tally 0 [true].

(** The order of Acme delivered and paid in cash on delivery. *)
Definition acme_delivered_paid : Order.t :=
  Order.mk "PED-1" "Acme" "Calle 1" [vino] entregado [] [] (Some efectivo) true 1000
    [creado] None None None None None None (Some 15000).

(** The order of Acme once paid, and an order of Bodega. *)
Definition acme_paid : Order.t :=
  Order.mk "PED-1" "Acme" "Calle 1" [vino] pagado [] [] (Some efectivo) true 1000 [creado]
    None None None None None None (Some 15000).

Definition bodega : Order.t :=
  Order.mk "PED-2" "Bodega" "Calle 2" [] en_armado [] [] None false 2000 []
    None None None None None None None.

Definition bodega_paid : Order.t :=
  Order.mk "PED-2" "Bodega" "Calle 2" [] pagado [] [] (Some efectivo) true 2000 []
    None None None None None None None.

Definition bodega_row : OrderRow.t :=
  OrderRow.mk "PED-2" "Bodega" (Some "Calle 2"%string) en_armado None false None None None
    None 2000 None None None.

(** Remote mode: the cache still says that the order of Acme is paid,
    the store says that it is being prepared. *)
Definition stale_paid_world : World.t :=
  World.mk [acme_paid] 0 None None acme_db 60000 tally 0 [].

(** Remote mode: the cache was filled a second ago; since then Bodega
    placed an order. *)
Definition just_fetched_world : World.t :=
  World.mk [acme] 59000 None None
    (DB.mk [acme_row; bodega_row] [vino_row] [] [] [creado_row]) 60000 tally 0 [].

(** Local mode: the cache holds a paid order that local storage does
    not hold any more. *)
Definition local_world : World.t :=
  World.mk [bodega_paid; acme] 0 (Some [acme]) None DB.empty 60000 tally 0 [].

(** An update of the order of Acme prepared from a copy that never saw
    the entry [creado]. *)
Definition acme_armado_stale : Order.t :=
  Order.mk "PED-1" "Acme" "Calle 1" [vino] armado [] [] None false 1000 [armado_hecho]
    (Some "Camilo"%string) None None None None None (Some 15000).

(** The ids of the history entries kept for an order in local storage. *)
Definition stored_history_ids (orderId : string) (w : World.t) : list string :=
  flat_map (fun o => map HistoryEntry.id (Order.history o))
    (filter (has_id orderId) (parsed_or_empty (World.stored_orders w))).

(** Camilo has prepared the order of Acme. *)
Definition acme_armado : Order.t :=
  Order.mk "PED-1" "Acme" "Calle 1" [vino] armado [] [] None false 1000
    [creado; armado_hecho] (Some "Camilo"%string) None None None None None (Some 15000).

(** The order of Acme given away: its total is 0. *)
Definition acme_free : Order.t :=
  Order.mk "PED-1" "Acme" "Calle 1" [vino] en_armado [] [] None false 1000 [creado]
    None None None None None None (Some 0).

(** The order of Acme with another creation time. *)
Definition acme_redated : Order.t :=
  Order.mk "PED-1" "Acme" "Calle 1" [vino] en_armado [] [] None false 7777 [creado]
    None None None None None None (Some 15000).

(** The order of Acme with a line that has no id yet. *)
Definition acme_new_line : Order.t :=
  Order.mk "PED-1" "Acme" "Calle 1"
    [Product.mk "" None "Agua" 6 (Some 6) (Some false) None None]
    en_armado [] [] None false 1000 [creado]
    None None None None None None (Some 15000).

(** The order of Acme with a new history entry dated before the stored one. *)
Definition acme_backdated : Order.t :=
  Order.mk "PED-1" "Acme" "Calle 1" [vino] en_armado [] [] None false 1000
    [creado; HistoryEntry.mk "HIST-0" "Nota" "Riki" 500 None]
    None None None None None None (Some 15000).

(** The order of Acme with its line replaced by another one. *)
Definition acme_agua : Order.t :=
  Order.mk "PED-1" "Acme" "Calle 1"
    [Product.mk "PROD-9" None "Agua" 6 (Some 6) (Some false) None None]
    en_armado [] [] None false 1000 [creado]
    None None None None None None (Some 15000).

(** The world of Acme when the second request to come fails. *)
Definition acme_world_second_fails : World.t :=
  World.mk [acme] 0 (Some [acme]) None acme_db 60000 tally 0 [false; true].

(** The store when Camilo holds the order of Acme. *)
Definition acme_claimed_world : World.t :=
  World.mk [] 0 None None
    (DB.mk
       [OrderRow.mk "PED-1" "Acme" (Some "Calle 1"%string) en_armado None false None None
          None None 1000 (Some "Camilo"%string) (Some 50000) (Some 15000)]
       [vino_row] [] [] [creado_row])
    60000 tally 0 [].

(** The store with 200 orders placed after the order of Acme. *)
Definition crowded_world : World.t :=
  World.mk [] 0 None None
    (DB.mk
       (acme_row
        :: map (fun n => OrderRow.mk (String.append "N-" (tally n)) "Bodega" None en_armado
                           None false None None None None (2000 + Z.of_nat n) None None None)
               (seq 0 200))
       [vino_row] [] [] [creado_row])
    60000 tally 0 [].

Definition acme_data : OrderData.t :=
  OrderData.mk "Acme" "Calle 1"
    [Product.mk "" None "Vino tinto" 10 None None (Some 1500) (Some 15000)]
    None None None None None (Some 15000).

(** ** The rest of the hook (use-supabase.ts) *)

(** The built-in users (lines 88-94). *)
Definition DEFAULT_USERS : list User.t :=
  [ User.mk "riki-1" "Riki" vale;
    User.mk "camilo-1" "Camilo" armador;
    User.mk "jesus-1" "Jesus" armador;
    User.mk "eze-1" "Eze" armador;
    User.mk "chino-1" "chino" armador ].

(** The query of [fetchCompletedOrders]: the paid orders, newest first,
    at most 120. *)
Definition select_completed (d : DB.t) : list Joined.t :=
  map (join d)
    (firstn 120
       (filter (fun r => OrderStatus_eqb (OrderRow.status r) pagado)
          (stable_sort newest_first (DB.orders d)))).

Definition query_completed : DB.t -> list Joined.t * DB.t :=
  fun d => (select_completed d, d).

(** The query of [fetchUsers] on the table of users, which the hook
    only reads: [select("id, name, role").order("name").limit(10)].  The
    order of the names is the one of the store. *)
Definition select_users (name_le : string -> string -> bool) (users : list User.t)
  : list User.t :=
  firstn 10 (stable_sort (fun a b => name_le (User.name a) (User.name b)) users).

(** Time passing between two operations. *)
Definition elapse (ms : Z) : M unit :=
  modify (fun w =>
            World.mk (World.ordersCache w) (World.lastFetchTime w) (World.stored_orders w)
              (World.broadcast_notification w) (World.db w) (World.now w + ms)
              (World.rand w) (World.generated w) (World.faults w)).

Section useSupabaseRest.

Variable useLocalStorage : bool.

(** *** fetchCompletedOrders (lines 236-263) *)
Definition fetchCompletedOrders : M (list Order.t) :=
  if useLocalStorage then
    ordersCache <- gets World.ordersCache ;;
    ret (filter (fun o => OrderStatus_eqb (Order.status o) pagado) ordersCache)
  else
    try_catch
      (r <- await query_completed ;;
       throw_if_error r ;;
       let completed :=
         map mapOrderRow (match Response.data r with Some d => d | None => [] end) in
       set_ordersCache (fun ordersCache =>
         let nonPaid :=
           filter (fun o => negb (OrderStatus_eqb (Order.status o) pagado)) ordersCache in
         nonPaid ++ completed) ;;
       now <- gets World.now ;;
       modify (fun w => World.with_lastFetchTime w now) ;;
       ret completed)
      (ret []).

(** *** fetchUsers (lines 585-594) *)
Definition fetchUsers (name_le : string -> string -> bool) (users : list User.t)
  : M (list User.t) :=
  if useLocalStorage then ret DEFAULT_USERS
  else
    try_catch
      (r <- await (fun d => (select_users name_le users, d)) ;;
       throw_if_error r ;;
       ret (map (fun u => User.mk (User.id u) (User.name u) (User.role u))
              (match Response.data r with Some d => d | None => [] end)))
      (ret DEFAULT_USERS).

End useSupabaseRest.

(** *** useRealtimeOrders (lines 642-673): on a change of one of the
    five tables the cache is emptied and the callback runs.  The
    subscription exists in remote mode only. *)
Definition on_postgres_change {A : Type} (onOrderChange : M A) : M A :=
  set_ordersCache (fun _ => []) ;;
  onOrderChange.

(** *** useBroadcastNotifications (lines 624-639) *)

(** What [JSON.parse] makes of the value of a storage event. *)
Inductive ItemValue : Type :=
| Unparsable
| Parsed (notif : Broadcast.t).

Module StorageEvent.
Record t : Type := mk
  { key : string;
    (** [None] for [null] and for the empty string *)
    newValue : option ItemValue }.
End StorageEvent.

(** The handler: what it passes to [onNotification], if anything. *)
Definition broadcast_handler (currentUserName : string) (e : StorageEvent.t)
  : option Broadcast.t :=
  if negb (String.eqb (StorageEvent.key e) "broadcast_notification") then None
  else
    match StorageEvent.newValue e with
    | None => None
    | Some Unparsable => None
    | Some (Parsed notif) =>
        if negb (option_string_eqb (Broadcast.excludeUser notif) (Some currentUserName))
        then Some notif
        else None
    end.

(** The event the other tabs receive for the broadcast slot of [w]. *)
Definition broadcast_event (w : World.t) : StorageEvent.t :=
  StorageEvent.mk "broadcast_notification"
    (option_map Parsed (World.broadcast_notification w)).

(** ** The rest of the page (part_001) *)

Definition role_name (r : Role) : string :=
  match r with
  | vale => "vale"
  | armador => "armador"
  end.

Definition Role_eqb (a b : Role) : bool :=
  match a, b with
  | vale, vale | armador, armador => true
  | _, _ => false
  end.

(** The choice of the session user on load (lines 193-202): the saved
    user when the list has its id, else the user called "Vale", else
    the first user. *)
Definition choose_user (saved : option User.t) (usersData : list User.t)
  : option User.t :=
  let def :=
    match find (fun u => String.eqb (User.name u) "Vale") usersData with
    | Some u => Some u
    | None => hd_error usersData
    end in
  match saved with
  | Some s =>
      if existsb (fun u => String.eqb (User.id u) (User.id s)) usersData
      then Some s
      else def
  | None => def
  end.

(** The two fetches of the load effect (lines 204-212), [ms]
    milliseconds apart. *)
Definition load_orders (useLocalStorage : bool) (ms : Z)
  : M (list Order.t * list Order.t) :=
  activeFirst <- fetchOrders useLocalStorage false true ;;
  elapse ms ;;
  all <- fetchOrders useLocalStorage false false ;;
  ret (activeFirst, all).

(** The callback given to [useRealtimeOrders] (lines 181-184), run on a
    change. *)
Definition realtime_refresh : M (list Order.t) :=
  on_postgres_change (fetchOrders false true true).

(** [s.includes(sub)] *)
Fixpoint includes (s sub : string) : bool :=
  String.prefix sub s
  || match s with
     | EmptyString => false
     | String _ s' => includes s' sub
     end.

(** [getFiltered] (lines 263-271); [statusFilter] is [None] for "all".
    The lower-casing of the engine is a parameter. *)
Definition getFiltered (toLowerCase : string -> string) (searchTerm : string)
    (statusFilter : option OrderStatus) (orders : list Order.t) : list Order.t :=
  let filtered :=
    filter (fun o =>
              includes (toLowerCase (Order.clientName o)) (toLowerCase searchTerm)
              || includes (toLowerCase (Order.id o)) (toLowerCase searchTerm))
           orders in
  match statusFilter with
  | None => filtered
  | Some s => filter (fun o => OrderStatus_eqb (Order.status o) s) filtered
  end.

(** [canUserWorkOnOrder] (lines 349-353) *)
Definition canUserWorkOnOrder (order : Order.t) (user : User.t) : bool :=
  if Role_eqb (User.role user) vale then true
  else
    match Order.currentlyWorkingBy order with
    | Some who =>
        if truthy_string who && negb (String.eqb who (User.name user)) then false else true
    | None => true
    end.

(** The actions of [getNextActionForUser] (lines 375-389), named by
    their labels. *)
Inductive NextAction : Type :=
| Armar_Pedido
| Controlar_Armado
| Controlar_Factura
| Marcar_En_Transito
| Marcar_Entregado
| Procesar_Pago
| Editar_Presupuesto
| Facturar
| Verificar_Transferencia.

Definition getNextActionForUser (order : Order.t) (user : User.t) : option NextAction :=
  let as_vale :=
    if Role_eqb (User.role user) vale then
      if OrderStatus_eqb (Order.status order) en_armado then Some Editar_Presupuesto
      else if OrderStatus_eqb (Order.status order) armado_controlado then Some Facturar
      else if match Order.awaitingPaymentVerification order with
              | Some b => b
              | None => false
              end
           then Some Verificar_Transferencia
      else None
    else None in
  if Role_eqb (User.role user) armador then
    if OrderStatus_eqb (Order.status order) en_armado then Some Armar_Pedido
    else if OrderStatus_eqb (Order.status order) armado
            && negb (option_string_eqb (Order.armedBy order) (Some (User.name user)))
         then Some Controlar_Armado
    else if OrderStatus_eqb (Order.status order) facturado then Some Controlar_Factura
    else if OrderStatus_eqb (Order.status order) factura_controlada
         then Some Marcar_En_Transito
    else if OrderStatus_eqb (Order.status order) en_transito then Some Marcar_Entregado
    else if OrderStatus_eqb (Order.status order) entregado && negb (Order.isPaid order)
         then Some Procesar_Pago
    else as_vale
  else as_vale.

(** The action button of a card (lines 395-398 and 507): shown when the
    card is not one of the completed tab, there is a next action and
    the user can work on the order. *)
Definition card_action (currentUser : User.t) (isCompleted : bool) (order : Order.t)
  : option NextAction :=
  if negb isCompleted && canUserWorkOnOrder order currentUser
  then getNextActionForUser order currentUser
  else None.

Section Page.

Variable useLocalStorage : bool.

(** [handleOrderSelect] (lines 335-345): the orders it displays anew,
    if it fetches, and the order it selects. *)
Definition handleOrderSelect (currentUser : option User.t) (order : Order.t)
  : M (option (list Order.t) * Order.t) :=
  match currentUser with
  | Some u =>
      if Role_eqb (User.role u) armador
         && OrderStatus_eqb (Order.status order) en_armado
         && negb (is_set (string_or_undefined (Order.currentlyWorkingBy order)))
      then
        _ <- setWorkingOnOrder useLocalStorage (Order.id order) (User.name u)
               (role_name (User.role u)) ;;
        fresh <- fetchOrders useLocalStorage true true ;;
        ret (Some fresh,
             match find (has_id (Order.id order)) fresh with
             | Some updated => updated
             | None => order
             end)
      else ret (None, order)
  | None => ret (None, order)
  end.

(** [onClose] of the detail of the selected order (lines 784-791): the
    orders it displays anew, if it fetches. *)
Definition onClose (currentUser : User.t) (selectedOrder : Order.t)
  : M (option (list Order.t)) :=
  if option_string_eqb (Order.currentlyWorkingBy selectedOrder) (Some (User.name currentUser))
  then
    _ <- clearWorkingOnOrder useLocalStorage (Order.id selectedOrder)
           (Some (User.name currentUser)) (Some (role_name (User.role currentUser))) ;;
    fresh <- fetchOrders useLocalStorage true true ;;
    ret (Some fresh)
  else ret None.

(** [handleDeleteOrder] (lines 315-324): the orders it displays anew
    when the deletion succeeds. *)
Definition handleDeleteOrder (orderId : string) : M (option (list Order.t)) :=
  ok <- deleteOrder useLocalStorage orderId ;;
  if ok : bool then
    fresh <- fetchOrders useLocalStorage true true ;;
    ret (Some fresh)
  else ret None.

End Page.

(** The paid orders the store answers to [fetchCompletedOrders]. *)
Definition fresh_completed (w : World.t) : list Order.t :=
  map mapOrderRow (select_completed (World.db w)).

(** The orders of the cache that are not paid. *)
Definition cached_unpaid (w : World.t) : list Order.t :=
  filter (fun o => negb (OrderStatus_eqb (Order.status o) pagado)) (World.ordersCache w).

(** The operation [m] returns a value, whatever the state: no failure
    escapes it. *)
Definition returns {A : Type} (m : M A) : Prop :=
  forall w, exists a w', m w = (Return a, w').

(** The state [w] but for the outcomes of the coming persistence
    calls. *)
Definition same_but_faults (w w' : World.t) : Prop :=
  World.with_faults w' (World.faults w) = w.

(** The row [r] with the two working columns set as given, the
    payload of the requests of [setWorkingOnOrder] and
    [clearWorkingOnOrder]. *)
Definition row_with_working (r : OrderRow.t) (by_ : option string) (start : option Z)
  : OrderRow.t :=
  OrderRow.mk (OrderRow.id r) (OrderRow.client_name r) (OrderRow.client_address r)
    (OrderRow.status r) (OrderRow.payment_method r) (OrderRow.is_paid r)
    (OrderRow.armed_by r) (OrderRow.controlled_by r)
    (OrderRow.awaiting_payment_verification r) (OrderRow.initial_notes r)
    (OrderRow.created_at r) by_ start (OrderRow.total_amount r).

(** The rows of the table of orders once the working columns of the
    order [orderId] are set as given. *)
Definition rows_marked (orderId : string) (by_ : option string) (start : option Z)
    (rows : list OrderRow.t) : list OrderRow.t :=
  map (fun r => if order_id_is orderId r then row_with_working r by_ start else r) rows.

(** [clearWorkingOnOrder] goes on when no role is given, or the empty
    one, or the role of an operator. *)
Definition clears_for (userRole : option string) : bool :=
  negb match userRole with
       | Some r => truthy_string r && negb (String.eqb r "armador")
       | None => false
       end.

(** No stored row of the order has a start time. *)
Definition rows_unstarted (orderId : string) (d : DB.t) : Prop :=
  forall r, In r (DB.orders d) -> order_id_is orderId r = true ->
            OrderRow.working_start_time r = None.

(** The request of [updateOrder] does not part the working flags of a
    row: there is no request (local mode), or the order has a holder,
    or its unset holder is [undefined], which is not sent, or no stored
    row of the order has a start time. *)
Definition update_keeps_flags (useLocalStorage : bool) (order : Order.t)
    (nulls : Nulls.t) (w : World.t) : Prop :=
  useLocalStorage = true
  \/ is_set (Order.currentlyWorkingBy order) = true
  \/ Nulls.currentlyWorkingBy nulls = false
  \/ rows_unstarted (Order.id order) (World.db w).

(** The outcomes of the persistence calls made from [w] to [w'], as
    far as the environment lists them. *)
Definition calls_made (w w' : World.t) (outcomes : list bool) : Prop :=
  World.faults w = outcomes ++ World.faults w'.

(** One of the listed outcomes is a failure. *)
Definition any_failure (outcomes : list bool) : bool :=
  existsb (fun f : bool => f) outcomes.

(** When none of the coming persistence calls fails, [m] returns a
    value that satisfies [Q], and none of the calls that come after it
    fails. *)
Definition succeeds {A : Type} (m : M A) (Q : A -> Prop) : Prop :=
  forall w, any_failure (World.faults w) = false ->
    exists a w', m w = (Return a, w')
                 /\ any_failure (World.faults w') = false
                 /\ Q a.

(** ** More sample data *)

Definition jesus : User.t := User.mk "jesus-1" "Jesus" armador.

(** Remote mode, when the page is opened: nothing is cached yet. *)
Definition first_load_world : World.t :=
  World.mk [] 0 None None acme_db 60000 tally 0 [].

(** The order of Acme as the page shows it while Camilo holds it. *)
Definition acme_held_by_camilo : Order.t :=
  Order.with_working acme (Some "Camilo"%string) (Some 50000).

(** The order of Acme with a start time and no holder, and a world
    that holds it so in the cache and in the table of orders. *)
Definition acme_started : Order.t := Order.with_working acme None (Some 50000).

Definition acme_started_world : World.t :=
  World.mk [acme_started] 0 None None
    (DB.mk
       [OrderRow.mk "PED-1" "Acme" (Some "Calle 1"%string) en_armado None false None None
          None None 1000 None (Some 50000) (Some 15000)]
       [vino_row] [] [] [creado_row])
    60000 tally 0 [].

(* ================================================================= *)
(** * Properties *)

(** ** Small facts used throughout *)

Lemma OrderStatus_eqb_eq (a b : OrderStatus) : OrderStatus_eqb a b = true <-> a = b.
Proof. destruct a, b; simpl; split; intros H; try reflexivity; discriminate H. Qed.

Lemma OrderStatus_eqb_refl (a : OrderStatus) : OrderStatus_eqb a a = true.
Proof. now apply OrderStatus_eqb_eq. Qed.

Lemma has_id_refl (o : Order.t) : has_id (Order.id o) o = true.
Proof. unfold has_id. apply String.eqb_refl. Qed.

(** ** Buckets *)

(** The buckets never overlap. *)
Lemma buckets_exclusive (o : Order.t) :
  (is_active o && is_pendingPayment o = false)
  /\ (is_active o && is_completed o = false)
  /\ (is_pendingPayment o && is_completed o = false).
Proof.
  unfold is_active, is_pendingPayment, is_completed.
  destruct (Order.status o), (Order.isPaid o); simpl; auto.
Qed.

(** C1, as amended.  An order falls in no bucket when it is delivered
    and already paid, and in exactly one bucket otherwise; so the three
    lists [activeOrders], [pendingPaymentOrders] and [completedOrders]
    are pairwise disjoint, and together they hold exactly the orders of
    the page that are not delivered and paid. *)
Theorem buckets_partition_but_delivered_paid :
  forall (orders : list Order.t) (o : Order.t),
    bucket_count o = (if delivered_and_paid o then 0 else 1)%nat
    /\ ((In o (activeOrders orders) \/ In o (pendingPaymentOrders orders)
         \/ In o (completedOrders orders))
        <-> (In o orders /\ delivered_and_paid o = false))
    /\ ~ (In o (activeOrders orders) /\ In o (pendingPaymentOrders orders))
    /\ ~ (In o (activeOrders orders) /\ In o (completedOrders orders))
    /\ ~ (In o (pendingPaymentOrders orders) /\ In o (completedOrders orders)).
Proof.
  intros orders o. split.
  - unfold bucket_count, delivered_and_paid, is_active, is_pendingPayment, is_completed.
    destruct (Order.status o), (Order.isPaid o); reflexivity.
  - unfold activeOrders, pendingPaymentOrders, completedOrders.
    rewrite !filter_In.
    unfold delivered_and_paid, is_active, is_pendingPayment, is_completed.
    destruct (Order.status o), (Order.isPaid o); simpl;
      (repeat split; try tauto; try (intros; intuition discriminate)).
Qed.

(** C1, counterexample: a delivered order that is already paid is in
    none of the three lists. *)
Lemma delivered_paid_order_in_no_bucket :
  Order.status acme_delivered_paid = entregado
  /\ Order.isPaid acme_delivered_paid = true
  /\ activeOrders [acme_delivered_paid] = []
  /\ pendingPaymentOrders [acme_delivered_paid] = []
  /\ completedOrders [acme_delivered_paid] = []
  /\ bucket_count acme_delivered_paid = 0%nat.
Proof. repeat split. Qed.

(** ** Notifications *)

Lemma change_events_not_new_order (u : option User.t) (prev : list Order.t)
      (o x : Order.t) :
  ~ In (new_order_event x) (change_events u prev o).
Proof.
  unfold change_events.
  destruct (find (has_id (Order.id o)) prev) as [p|]; [|intros []].
  intros H. apply in_app_or in H. destruct H as [H|H].
  - destruct (negb (OrderStatus_eqb (Order.status p) (Order.status o))); [|destruct H].
    destruct (last_entry (Order.history o)) as [l|]; [|destruct H].
    destruct (negb (option_string_eqb (Some (HistoryEntry.user l)) (currentUser_name u)));
      [|destruct H].
    destruct H as [H|[]]. discriminate H.
  - destruct (Order.currentlyWorkingBy o) as [who|]; [|destruct H].
    match type of H with In _ (if ?c then _ else _) => destruct c end; [|destruct H].
    destruct H as [H|[]]. discriminate H.
Qed.

Lemma option_string_eqb_eq (a b : option string) : option_string_eqb a b = true <-> a = b.
Proof.
  destruct a as [x|], b as [y|]; simpl; split; intros H;
    try reflexivity; try discriminate H.
  - apply String.eqb_eq in H. now subst.
  - injection H as ->. apply String.eqb_refl.
Qed.

(** C6, as amended.  No event is derived while there is no previous
    snapshot; and with a non-empty previous snapshot, an order of the
    current snapshot whose id the previous one does not hold raises its
    "Nuevo Pedido" event exactly when the current user is not named
    "Vale" (whatever the role, and also when no user is selected). *)
Theorem new_order_event_iff_not_named_Vale :
  (forall (currentUser : option User.t) (orders : list Order.t),
      fst (notification_effect currentUser [] orders) = [])
  /\ (forall (currentUser : option User.t) (previousOrders orders : list Order.t)
             (o : Order.t),
         previousOrders <> [] ->
         In o orders ->
         existsb (has_id (Order.id o)) previousOrders = false ->
         (In (new_order_event o)
             (fst (notification_effect currentUser previousOrders orders))
          <-> currentUser_name currentUser <> Some "Vale"%string)).
Proof.
  split; [reflexivity|].
  intros u prev orders o Hprev Hin Hnew.
  unfold notification_effect; simpl fst.
  destruct prev as [|p prev]; [congruence|].
  destruct orders as [|o0 orders]; [destruct Hin|].
  cbn [List.length Nat.ltb Nat.leb andb].
  rewrite in_app_iff. unfold new_order_events. rewrite !in_flat_map.
  split.
  - intros [(x & _ & Hx) | (x & _ & Hx)].
    + intros Hname. apply option_string_eqb_eq in Hname. rewrite Hname in Hx.
      destruct Hx.
    + exfalso. eapply change_events_not_new_order; eauto.
  - intros Hname. left. exists o. split.
    + unfold newOrders. apply filter_In. split; [assumption|]. now rewrite Hnew.
    + destruct (option_string_eqb (currentUser_name u) (Some "Vale"%string)) eqn:E.
      * apply option_string_eqb_eq in E. contradiction.
      * left; reflexivity.
Qed.

(** C6, witness: Camilo, an operator, sees the order of Bodega appear. *)
Lemma new_order_event_iff_not_named_Vale_witness :
  In (new_order_event bodega) (fst (notification_effect (Some camilo) [acme] [bodega; acme]))
  <-> currentUser_name (Some camilo) <> Some "Vale"%string.
Proof.
  apply (proj2 new_order_event_iff_not_named_Vale (Some camilo) [acme] [bodega; acme] bodega).
  - discriminate.
  - left; reflexivity.
  - reflexivity.
Defined.

(** C6, counterexample: Riki, the coordinator of the built-in user list
    (role [vale]), is told about the order of Bodega when it appears in
    the snapshot. *)
Lemma coordinator_Riki_gets_new_order_event :
  User.role riki = vale
  /\ fst (notification_effect (Some riki) [acme] [bodega; acme]) = [new_order_event bodega].
Proof. split; reflexivity. Qed.

(** ** Mapping of amounts *)

(** C10.  A stored amount of exactly 0 is mapped to the absent value,
    column by column: in [total_amount], and in [original_quantity],
    [unit_price] and [subtotal] of a line whatever the two other
    columns of the line hold, an amount [n] is mapped to [n] unless it
    is 0, and 0 is mapped to what NULL is mapped to, so that the mapped
    order (and each of its lines, which [mapOrderRow] maps one by one)
    is the one obtained from a row where that amount is not set at
    all. *)
Theorem mapOrderRow_zero_amount_is_undefined :
  forall (j : Joined.t) (p : ProductRow.t) (n : Z)
         (original_quantity unit_price subtotal : option Z),
    Order.products (mapOrderRow j) = map mapProductRow (Joined.products j)
    /\ Order.totalAmount
         (mapOrderRow (joined_with_row j (row_with_total_amount (Joined.row j) (Some n))))
       = (if n =? 0 then None else Some n)
    /\ mapOrderRow (joined_with_row j (row_with_total_amount (Joined.row j) (Some 0)))
       = mapOrderRow (joined_with_row j (row_with_total_amount (Joined.row j) None))
    /\ Product.originalQuantity
         (mapProductRow (product_row_with_amounts p (Some n) unit_price subtotal))
       = (if n =? 0 then None else Some n)
    /\ mapProductRow (product_row_with_amounts p (Some 0) unit_price subtotal)
       = mapProductRow (product_row_with_amounts p None unit_price subtotal)
    /\ Product.unitPrice
         (mapProductRow (product_row_with_amounts p original_quantity (Some n) subtotal))
       = (if n =? 0 then None else Some n)
    /\ mapProductRow (product_row_with_amounts p original_quantity (Some 0) subtotal)
       = mapProductRow (product_row_with_amounts p original_quantity None subtotal)
    /\ Product.subtotal
         (mapProductRow (product_row_with_amounts p original_quantity unit_price (Some n)))
       = (if n =? 0 then None else Some n)
    /\ mapProductRow (product_row_with_amounts p original_quantity unit_price (Some 0))
       = mapProductRow (product_row_with_amounts p original_quantity unit_price None).
Proof.
  intros j p n oq up st.
  assert (Hparse : parse_if_truthy (Some n) = if n =? 0 then None else Some n).
  { unfold parse_if_truthy, truthy_number. now destruct (n =? 0). }
  repeat split; try exact Hparse.
Qed.

(** ** Running the hook *)

Ltac hook_unfold :=
  unfold broadcastNotification, setItem_orders, localStorage_set, await,
    throw_if_error, next_fault, generateUniqueId, set_ordersCache,
    try_catch, bind, ret, gets, modify, throw in *.

(** Symbolic execution: unfold the monad, the world and the requests,
    and nothing of the data. *)
Ltac hook_eval :=
  cbv beta iota zeta delta
    [bind ret gets modify try_catch throw await next_fault localStorage_set
       setItem_orders throw_if_error set_ordersCache generateUniqueId
       broadcastNotification
       World.ordersCache World.lastFetchTime World.stored_orders
       World.broadcast_notification World.db World.now World.rand
       World.generated World.faults
       World.with_ordersCache World.with_lastFetchTime World.with_stored_orders
       World.with_broadcast_notification World.with_db World.with_generated
       World.with_faults
       Response.data Response.error
       insert_order insert_products insert_missing_products
       insert_returned_products insert_order_history delete_products
       delete_missing_products delete_returned_products select_history_ids
       delete_order update_orders query_orders
       fst snd] in *.

Ltac world_simpl :=
  unfold World.with_ordersCache, World.with_lastFetchTime, World.with_stored_orders,
    World.with_broadcast_notification, World.with_db, World.with_generated,
    World.with_faults, DB.with_orders, DB.with_products, DB.with_missing_products,
    DB.with_returned_products, DB.with_order_history in *;
  cbn [fst snd World.ordersCache World.lastFetchTime World.stored_orders
         World.broadcast_notification World.db World.now World.rand
         World.generated World.faults DB.orders DB.products DB.missing_products
         DB.returned_products DB.order_history parsed_or_empty] in *.

#[local] Arguments mark_working : simpl never.
#[local] Arguments has_id : simpl never.
#[local] Arguments String.append : simpl never.

(** ** Working flags *)

Lemma mark_working_agree (orderId : string) (by_ : option string) (start : option Z)
      (l : list Order.t) :
  is_set by_ = is_set start ->
  Forall (fun o => flags_agree o = true) l ->
  Forall (fun o => flags_agree o = true) (mark_working orderId by_ start l).
Proof.
  intros Hset Hl. unfold mark_working. rewrite Forall_map.
  eapply Forall_impl; [|exact Hl]. intros o Ho. simpl.
  destruct (has_id orderId o); [|exact Ho].
  unfold flags_agree; simpl. rewrite Hset. apply Bool.eqb_reflx.
Qed.

Lemma replace_first_Forall {A : Type} (P : A -> Prop) (p : A -> bool) (x : A) (l : list A) :
  P x -> Forall P l -> Forall P (replace_first p x l).
Proof.
  intros Hx Hl. induction Hl as [|y l Hy Hl IH]; simpl; [constructor|].
  destruct (p y); constructor; auto.
Qed.

Lemma update_flags_rows_agree (i : string) (by_ : option string) (start : option Z)
      (rows : list OrderRow.t) :
  is_set by_ = is_set start ->
  Forall (fun r => row_flags_agree r = true) rows ->
  Forall (fun r => row_flags_agree r = true)
    (map (fun r =>
            if order_id_is i r
            then OrderRow.mk (OrderRow.id r) (OrderRow.client_name r)
                   (OrderRow.client_address r) (OrderRow.status r)
                   (OrderRow.payment_method r) (OrderRow.is_paid r)
                   (OrderRow.armed_by r) (OrderRow.controlled_by r)
                   (OrderRow.awaiting_payment_verification r)
                   (OrderRow.initial_notes r) (OrderRow.created_at r)
                   by_ start (OrderRow.total_amount r)
            else r) rows).
Proof.
  intros Hset Hl. rewrite Forall_map.
  eapply Forall_impl; [|exact Hl]. intros r Hr. simpl.
  destruct (order_id_is i r); [|exact Hr].
  unfold row_flags_agree; simpl. rewrite Hset. apply Bool.eqb_reflx.
Qed.

Lemma with_working_agree (o : Order.t) (by_ : option string) (start : option Z) :
  is_set by_ = is_set start -> flags_agree (Order.with_working o by_ start) = true.
Proof. intros H. unfold flags_agree; simpl. rewrite H. apply Bool.eqb_reflx. Qed.

Create HintDb flags.
#[local] Hint Resolve mark_working_agree replace_first_Forall update_flags_rows_agree
  with_working_agree : flags.

(** [setWorkingOnOrder] and [clearWorkingOnOrder] keep the agreement of
    the working flags, in both modes and whether or not the persistence
    call fails; in the cache [setWorkingOnOrder] leaves the order with
    both flags set when it reports success as an operator, and with
    both cleared when it reports failure. *)
Lemma set_clear_working_flags :
  forall (useLocalStorage : bool) (w : World.t),
    flags_consistent w ->
    (forall orderId userName userRole,
        let r := setWorkingOnOrder useLocalStorage orderId userName userRole w in
        flags_consistent (snd r)
        /\ (fst r = Return true \/ fst r = Return false)
        /\ (fst r = Return true -> userRole = "armador"%string ->
            World.ordersCache (snd r)
            = mark_working orderId (Some userName) (Some (World.now w))
                (World.ordersCache w))
        /\ (fst r = Return false ->
            World.ordersCache (snd r)
            = mark_working orderId None None
                (mark_working orderId (Some userName) (Some (World.now w))
                   (World.ordersCache w)))
        /\ (fst r = Return true -> userRole = "armador"%string ->
            useLocalStorage = false ->
            DB.orders (World.db (snd r))
            = rows_marked orderId (Some userName) (Some (World.now w))
                (DB.orders (World.db w)))
        /\ (userRole <> "armador"%string -> r = (Return true, w)))
    /\ (forall orderId userName userRole,
           let r := clearWorkingOnOrder useLocalStorage orderId userName userRole w in
           flags_consistent (snd r)
           /\ (fst r = Return true \/ fst r = Return false)
           /\ (if clears_for userRole
               then World.ordersCache (snd r)
                    = mark_working orderId None None (World.ordersCache w)
                    /\ (useLocalStorage = false -> fst r = Return true ->
                        DB.orders (World.db (snd r))
                        = rows_marked orderId None None (DB.orders (World.db w)))
               else r = (Return true, w))).
Proof.
  intros local w (Hc & Hs & Hd). unfold flags_consistent. split.
  - intros orderId userName userRole.
    unfold setWorkingOnOrder.
    destruct (String.eqb userRole "armador") eqn:Hrole; cbn [negb].
    2:{ cbn. split; [now repeat split|]. split; [now left|]. split.
        - intros _ Hr. rewrite Hr in Hrole. discriminate Hrole.
        - split; [discriminate|]. split.
          + intros _ Hr. rewrite Hr in Hrole. discriminate Hrole.
          + reflexivity. }
    apply String.eqb_eq in Hrole.
    destruct local; hook_unfold; cbn.
    + destruct (find (has_id orderId) (parsed_or_empty (World.stored_orders w))) as [o|];
        cbn.
      * destruct (World.faults w) as [|[|] fs]; cbn; world_simpl;
          (repeat split; auto with flags; try discriminate;
           try (intros; contradiction)).
      * world_simpl. repeat split; auto with flags; try discriminate;
          try (intros; contradiction).
    + destruct (World.faults w) as [|[|] fs]; cbn; world_simpl;
        (repeat split; auto with flags; try discriminate;
         try (intros; contradiction)).
  - intros orderId userName userRole.
    unfold clearWorkingOnOrder, clears_for.
    match goal with |- context [if ?c then ret true else _] => destruct c end;
      cbn [negb].
    1:{ cbn. repeat split; auto. }
    destruct local; hook_unfold; cbn.
    + destruct (find (has_id orderId) (parsed_or_empty (World.stored_orders w))) as [o|];
        cbn.
      * match goal with |- context [if ?c then _ else _] => destruct c end; cbn.
        -- destruct (World.faults w) as [|[|] fs]; cbn; world_simpl;
             (repeat split; auto with flags; try discriminate).
        -- world_simpl. repeat split; auto with flags; try discriminate.
      * world_simpl. repeat split; auto with flags; try discriminate.
    + destruct (World.faults w) as [|[|] fs]; cbn; world_simpl;
        (repeat split; auto with flags; try discriminate).
Qed.


(** ** Generated ids only move the id counter *)

Lemma with_generated_same (w : World.t) : World.with_generated w (World.generated w) = w.
Proof. now destruct w. Qed.

Lemma id_or_generate_run (x prefix : string) (w : World.t) :
  exists y n, id_or_generate x prefix w = (Return y, World.with_generated w n)
              /\ (truthy_string x = true -> y = x).
Proof.
  unfold id_or_generate. destruct (truthy_string x).
  - exists x, (World.generated w). unfold ret. now rewrite with_generated_same.
  - eexists _, _. split; [reflexivity | discriminate].
Qed.

Lemma mapM_generated {A B : Type} (R : A -> B -> Prop) (f : A -> M B) (l : list A) :
  (forall x w, exists y n, f x w = (Return y, World.with_generated w n) /\ R x y) ->
  forall w, exists ys n, mapM f l w = (Return ys, World.with_generated w n)
                         /\ Forall2 R l ys.
Proof.
  intros Hf. induction l as [|x l IH]; intros w; simpl.
  - exists [], (World.generated w). unfold ret. now rewrite with_generated_same.
  - destruct (Hf x w) as (y & n & Ey & Hy).
    destruct (IH (World.with_generated w n)) as (ys & m & Eys & Hys).
    exists (y :: ys), m. unfold bind, ret. rewrite Ey, Eys.
    split; [reflexivity | now constructor].
Qed.

(** When every id is already there, nothing is generated. *)
Lemma mapM_pure {A B : Type} (f : A -> M B) (g : A -> B) (l : list A) :
  (forall x, In x l -> forall w, f x w = (Return (g x), w)) ->
  forall w, mapM f l w = (Return (map g l), w).
Proof.
  induction l as [|x l IH]; intros Hf w; simpl; [reflexivity|].
  unfold bind, ret. rewrite (Hf x (or_introl eq_refl)).
  rewrite IH; [reflexivity|]. intros y Hy. apply Hf. now right.
Qed.

Lemma filter_other_ids (i : string) (l : list Order.t) :
  ~ In i (map Order.id l) ->
  filter (fun o => negb (has_id i o)) l = l.
Proof.
  induction l as [|o l IH]; simpl; intros Hn; [reflexivity|].
  unfold has_id at 1.
  destruct (String.eqb (Order.id o) i) eqn:E.
  - apply String.eqb_eq in E. exfalso. apply Hn. now left.
  - simpl. f_equal. apply IH. intros H. apply Hn. now right.
Qed.

Ltac run_mapM_with R HR :=
  match goal with
  | |- context [mapM ?f ?l ?w0] =>
      let ys := fresh "rows" in
      let n := fresh "n" in
      let E := fresh "E" in
      let H := fresh "H" in
      assert (H : forall x w, exists y n,
                 f x w = (Return y, World.with_generated w n) /\ R x y)
        by (let x := fresh in
            let w1 := fresh in
            let y := fresh in
            let m := fresh in
            let Ex := fresh in
            intros x w1;
            match goal with
            | |- context [id_or_generate ?a ?pre w1] =>
                destruct (id_or_generate_run a pre w1) as (y & m & Ex & _)
            end;
            eexists _, _; rewrite Ex; split; [reflexivity | now repeat split]);
      destruct (mapM_generated R f l H w0) as (ys & n & E & HR);
      clear H; rewrite E; clear E; hook_eval
  end.

Ltac finish_run :=
  eexists _, _; (split; [reflexivity|]);
  repeat split;
  try assumption; try (intros; discriminate); try (intros; reflexivity);
  try (eexists; split; reflexivity);
  try (intros _ _; eexists _, _, _; repeat split; [reflexivity .. | eassumption]).

(** ** createOrder *)

Lemma createOrder_run (useLocalStorage : bool) (orderData : OrderData.t)
      (currentUser : User.t) (w : World.t) :
  exists (optimistic : Order.t) (b : bool) (w' : World.t),
    createOrder useLocalStorage orderData currentUser w = (Return b, w')
    /\ b = negb (fails_within (if useLocalStorage then 2 else 4) w)
    /\ World.ordersCache w'
       = (if b then optimistic :: World.ordersCache w
          else filter (fun o => negb (has_id (next_order_id w) o))
                 (optimistic :: World.ordersCache w))
    /\ (b = true -> useLocalStorage = true ->
        World.stored_orders w' = Some (optimistic :: parsed_or_empty (World.stored_orders w)))
    /\ (b = true -> useLocalStorage = false ->
        exists row rows hrow,
          DB.orders (World.db w') = DB.orders (World.db w) ++ [row]
          /\ DB.products (World.db w') = DB.products (World.db w) ++ rows
          /\ DB.order_history (World.db w') = DB.order_history (World.db w) ++ [hrow]
          /\ OrderRow.id row = next_order_id w
          /\ OrderRow.status row = en_armado
          /\ OrderRow.is_paid row = false
          /\ HistoryRow.order_id hrow = next_order_id w
          /\ HistoryRow.user_name hrow = User.name currentUser
          /\ Forall2 (row_created_from (next_order_id w))
               (OrderData.products orderData) rows)
    /\ Order.id optimistic = next_order_id w
    /\ Order.status optimistic = en_armado
    /\ Order.missingProducts optimistic = []
    /\ Order.returnedProducts optimistic = []
    /\ Order.isPaid optimistic = false
    /\ (exists h, Order.history optimistic = [h]
                  /\ HistoryEntry.user h = User.name currentUser)
    /\ Forall2 created_from (OrderData.products orderData) (Order.products optimistic).
Proof.
  unfold createOrder, fails_within, next_order_id.
  set (f := fun p : Product.t => _).
  assert (Hf : forall x w, exists y n,
               f x w = (Return y, World.with_generated w n) /\ created_from x y).
  { intros x w0. unfold f.
    destruct (id_or_generate_run (Product.id x) "PROD-" w0) as (y & n & E & _).
    exists (Product.mk y (Product.code x) (Product.name x) (Product.quantity x)
              (Some (Product.quantity x)) (Some false) (Product.unitPrice x)
              (Product.subtotal x)), n.
    unfold bind, ret. rewrite E. now repeat split. }
  destruct w as [cache lft stored bn d now rand gen fl].
  hook_eval.
  match goal with
  | |- context [mapM f ?l ?w0] =>
      destruct (mapM_generated created_from f l Hf w0) as (ys & n & E & HR)
  end.
  hook_eval. rewrite E. clear E. hook_eval.
  match goal with
  | |- context [Order.mk ?a ?b ?c ys ?d ?e ?g ?h ?i ?j ?k ?l ?m ?o ?p ?q ?r ?s] =>
      exists (Order.mk a b c ys d e g h i j k l m o p q r s)
  end.
  destruct useLocalStorage.
  - destruct fl as [|b1 [|b2 fs]];
      try destruct b1; try destruct b2; hook_eval; finish_run.
  - destruct fl as [|[|] fl]; hook_eval;
      try run_mapM_with (row_created_from (String.append "PED-" (rand gen))) HRrows;
      [finish_run | finish_run |].
    destruct fl as [|[|] fl]; hook_eval; [finish_run | finish_run |].
    destruct fl as [|[|] fl]; hook_eval; [finish_run | finish_run |].
    destruct fl as [|[|] fl]; hook_eval; finish_run.
Qed.

(** ** Relations the steps of the hook respect *)

Section Steps.
Context (R : World.t -> World.t -> Prop) `{Stable R}.

Lemma steps_ret {A : Type} (a : A) : steps_in R (ret a).
Proof. intros w. apply stable_refl. Qed.

Lemma steps_throw {A : Type} : steps_in R (@throw A).
Proof. intros w. apply stable_refl. Qed.

Lemma steps_gets {A : Type} (f : World.t -> A) : steps_in R (gets f).
Proof. intros w. apply stable_refl. Qed.

Lemma steps_modify (f : World.t -> World.t) :
  (forall w, R w (f w)) -> steps_in R (modify f).
Proof. intros Hf w. apply Hf. Qed.

Lemma steps_bind {A B : Type} (m : M A) (k : A -> M B) :
  steps_in R m -> (forall a, steps_in R (k a)) -> steps_in R (bind m k).
Proof.
  intros Hm Hk w. unfold bind. specialize (Hm w).
  destruct (m w) as [[a|] w1]; simpl in *.
  - eapply stable_trans; [exact Hm | apply Hk].
  - exact Hm.
Qed.

Lemma steps_try_catch {A : Type} (m h : M A) :
  steps_in R m -> steps_in R h -> steps_in R (try_catch m h).
Proof.
  intros Hm Hh w. unfold try_catch. specialize (Hm w).
  destruct (m w) as [[a|] w1]; simpl in *.
  - exact Hm.
  - eapply stable_trans; [exact Hm | apply Hh].
Qed.

Lemma steps_next_fault : steps_in R next_fault.
Proof.
  intros w. unfold next_fault.
  destruct (World.faults w); [apply stable_refl | apply stable_faults].
Qed.

Lemma steps_generateUniqueId (prefix : string) : steps_in R (generateUniqueId prefix).
Proof. intros w. apply stable_generated. Qed.

Lemma steps_id_or_generate (x prefix : string) : steps_in R (id_or_generate x prefix).
Proof.
  unfold id_or_generate.
  destruct (truthy_string x); [apply steps_ret | apply steps_generateUniqueId].
Qed.

Lemma steps_await {A : Type} (q : DB.t -> A * DB.t) :
  (forall w, R w (World.with_db w (snd (q (World.db w))))) ->
  steps_in R (await q).
Proof.
  intros Hq. unfold await.
  apply steps_bind; [apply steps_next_fault|]. intros [|]; [apply steps_ret|].
  intros w. specialize (Hq w). now destruct (q (World.db w)).
Qed.

Lemma steps_localStorage_set (write : World.t -> World.t) :
  (forall w, R w (write w)) -> steps_in R (localStorage_set write).
Proof.
  intros Hw. unfold localStorage_set.
  apply steps_bind; [apply steps_next_fault|].
  intros [|]; [apply steps_throw | now apply steps_modify].
Qed.

Lemma steps_mapM {A B : Type} (f : A -> M B) (l : list A) :
  (forall x, steps_in R (f x)) -> steps_in R (mapM f l).
Proof.
  intros Hf. induction l as [|x l IH]; simpl.
  - apply steps_ret.
  - apply steps_bind; [apply Hf|]. intros y.
    apply steps_bind; [apply IH|]. intros ys. apply steps_ret.
Qed.

Lemma steps_throw_if_error {A : Type} (r : Response.t A) :
  steps_in R (throw_if_error r).
Proof.
  unfold throw_if_error.
  destruct (Response.error r); [apply steps_throw | apply steps_ret].
Qed.

Lemma steps_broadcastNotification (t : NotificationType) (a b : string)
      (x : option string) :
  steps_in R (broadcastNotification t a b x).
Proof.
  unfold broadcastNotification.
  apply steps_bind; [apply steps_gets|]. intros ts.
  apply steps_bind; [apply steps_generateUniqueId|]. intros i.
  apply steps_localStorage_set. intros w. apply stable_broadcast.
Qed.

Lemma steps_notify_update (order : Order.t) (currentUser : option User.t) :
  steps_in R (notify_update order currentUser).
Proof.
  unfold notify_update.
  destruct currentUser as [u|]; [|apply steps_ret].
  destruct (last_entry (Order.history order)) as [l|]; [|apply steps_ret].
  destruct (String.eqb (HistoryEntry.user l) (User.name u));
    [apply steps_broadcastNotification | apply steps_ret].
Qed.
End Steps.

(** One step of a proof that a computation respects [R]; [leaf] proves
    that a request or a write to local storage does. *)
Ltac stable_instance :=
  match goal with |- Stable _ => typeclasses eauto end.

Ltac steps_with leaf :=
  lazymatch goal with
  | |- Stable _ => typeclasses eauto
  | |- steps_in _ (ret _) => apply steps_ret
  | |- steps_in _ throw => apply steps_throw
  | |- steps_in _ (gets _) => apply steps_gets
  | |- steps_in _ (throw_if_error _) => apply steps_throw_if_error
  | |- steps_in _ (broadcastNotification _ _ _ _) => apply steps_broadcastNotification
  | |- steps_in _ (notify_update _ _) => apply steps_notify_update
  | |- steps_in _ (generateUniqueId _) => apply steps_generateUniqueId
  | |- steps_in _ (id_or_generate _ _) => apply steps_id_or_generate
  | |- steps_in _ next_fault => apply steps_next_fault
  | |- steps_in _ (modify _) => apply steps_modify; [.. | intros; leaf]
  | |- steps_in _ (await _) => apply steps_await; [.. | intros; leaf]
  | |- steps_in _ (localStorage_set _) => apply steps_localStorage_set; [.. | intros; leaf]
  | |- steps_in _ (mapM _ _) => apply steps_mapM; [.. | intros]
  | |- steps_in _ (bind _ _) => apply steps_bind; [.. | | intros]
  | |- steps_in _ (try_catch _ _) => apply steps_try_catch
  | |- steps_in _ (if ?c then _ else _) => destruct c
  | |- steps_in _ (match ?x with _ => _ end) => destruct x
  end.

#[local] Instance same_cache_Stable : Stable same_cache.
Proof. split; unfold same_cache; intros; try reflexivity. congruence. Qed.

#[local] Instance history_ids_kept_Stable : Stable history_ids_kept.
Proof.
  split; unfold history_ids_kept; intros; try apply incl_refl.
  eapply incl_tran; eassumption.
Qed.

(** A [try] whose handler returns always returns. *)
Lemma try_catch_returns {A : Type} (m h : M A) :
  (forall w, exists a w', h w = (Return a, w')) ->
  forall w, exists a w', try_catch m h w = (Return a, w').
Proof.
  intros Hh w. unfold try_catch. destruct (m w) as [[a|] w1]; eauto.
Qed.

(** ** updateOrder and deleteOrder under failure *)

Lemma updateOrder_cache (useLocalStorage : bool) (order : Order.t) (nulls : Nulls.t)
      (currentUser : option User.t) (w : World.t) :
  exists b w',
    updateOrder useLocalStorage order nulls currentUser w = (Return b, w')
    /\ World.ordersCache w'
       = replace_first (has_id (Order.id order)) order (World.ordersCache w).
Proof.
  unfold updateOrder.
  match goal with
  | |- context [try_catch ?m ?h] =>
      assert (Hf : steps_in same_cache (try_catch m h));
      [| destruct (try_catch_returns m h
                     (fun w0 => ex_intro _ false (ex_intro _ w0 eq_refl))
                     (World.with_ordersCache w
                        (replace_first (has_id (Order.id order)) order
                           (World.ordersCache w))))
           as (b & w' & E) ]
  end.
  - unfold setItem_orders. repeat steps_with ltac:(reflexivity).
  - exists b, w'. unfold bind at 1. unfold set_ordersCache, modify.
    split; [exact E|].
    specialize (Hf (World.with_ordersCache w
                      (replace_first (has_id (Order.id order)) order
                         (World.ordersCache w)))).
    rewrite E in Hf. exact Hf.
Qed.

Lemma deleteOrder_run (useLocalStorage : bool) (orderId : string) (w : World.t) :
  exists b w',
    deleteOrder useLocalStorage orderId w = (Return b, w')
    /\ b = negb (fails_within 1 w)
    /\ World.ordersCache w'
       = (if b then filter (fun o => negb (has_id orderId o)) (World.ordersCache w)
          else World.ordersCache w).
Proof.
  unfold deleteOrder, fails_within.
  destruct w as [cache lft stored bn d now rand gen fl].
  destruct useLocalStorage; destruct fl as [|[|] fl]; hook_eval;
    eexists _, _; repeat split.
Qed.

Lemma updateOrder_remote_first_failure (order : Order.t) (nulls : Nulls.t)
      (currentUser : option User.t)
      (w : World.t) :
  fails_within 1 w = true ->
  fst (updateOrder false order nulls currentUser w) = Return false.
Proof.
  unfold updateOrder, fails_within.
  destruct w as [cache lft stored bn d now rand gen fl].
  destruct fl as [|[|] fl]; simpl; intros H; try discriminate H.
  hook_eval. reflexivity.
Qed.


(** C5.  When [createOrder] succeeds on an order with one line of
    quantity 10, the order it puts in front of the cache (and, in local
    mode, in front of the stored list) is in status [en_armado], has no
    missing and no returned products, is not paid, has exactly one
    history entry, attributed to the acting user, and one line whose
    original quantity is 10 and which is not checked; in remote mode the
    rows sent to the store say the same. *)
Theorem createOrder_initial_order :
  forall (useLocalStorage : bool) (orderData : OrderData.t) (currentUser : User.t)
         (p : Product.t) (w w' : World.t),
    OrderData.products orderData = [p] ->
    Product.quantity p = 10 ->
    createOrder useLocalStorage orderData currentUser w = (Return true, w') ->
    exists (o : Order.t) (p' : Product.t) (h : HistoryEntry.t),
      World.ordersCache w' = o :: World.ordersCache w
      /\ (useLocalStorage = true ->
          World.stored_orders w' = Some (o :: parsed_or_empty (World.stored_orders w)))
      /\ Order.status o = en_armado
      /\ Order.missingProducts o = []
      /\ Order.returnedProducts o = []
      /\ Order.isPaid o = false
      /\ Order.history o = [h]
      /\ HistoryEntry.user h = User.name currentUser
      /\ Order.products o = [p']
      /\ Product.quantity p' = 10
      /\ Product.originalQuantity p' = Some 10
      /\ Product.isChecked p' = Some false
      /\ (useLocalStorage = false ->
          exists row prow hrow,
            DB.orders (World.db w') = DB.orders (World.db w) ++ [row]
            /\ DB.products (World.db w') = DB.products (World.db w) ++ [prow]
            /\ DB.order_history (World.db w') = DB.order_history (World.db w) ++ [hrow]
            /\ OrderRow.id row = Order.id o
            /\ OrderRow.status row = en_armado
            /\ OrderRow.is_paid row = false
            /\ ProductRow.order_id prow = Order.id o
            /\ ProductRow.quantity prow = 10
            /\ ProductRow.original_quantity prow = Some 10
            /\ ProductRow.is_checked prow = Some false
            /\ HistoryRow.order_id hrow = Order.id o
            /\ HistoryRow.user_name hrow = User.name currentUser).
Proof.
  intros local orderData currentUser p w w' Hprods Hq Hrun.
  destruct (createOrder_run local orderData currentUser w)
    as (o & b & w1 & E & _ & Hcache & Hstored & Hdb & Hid & Hst & Hmiss & Hret & Hpaid
        & (h & Hh & Hu) & Hps).
  rewrite Hrun in E. injection E as <- <-.
  rewrite Hprods in Hps.
  inversion Hps as [|? p' ? ps' (Hq' & Hoq & Hchk & _) Hnil Ep Eps]; subst.
  inversion Hnil; subst.
  exists o, p', h.
  repeat (split; [solve [auto | congruence]|]).
  intros ->.
  destruct (Hdb eq_refl eq_refl)
    as (row & rows & hrow & Ho & Hp & Hhist & Hrid & Hrst & Hrpaid & Hhid & Hhu & Hrows).
  rewrite Hprods in Hrows.
  inversion Hrows as [|? prow ? rows' (Ro & Rq & Roq & Rchk & _) Hnil' Ep' Eps']; subst.
  inversion Hnil'; subst.
  exists row, prow, hrow.
  rewrite Hid. repeat split; auto; congruence.
Qed.

(** C5, witness: Riki creates the order of Acme, in remote mode and
    with nothing failing. *)
Lemma createOrder_initial_order_witness :
  exists (o : Order.t) (p' : Product.t) (h : HistoryEntry.t),
    World.ordersCache (snd (createOrder false acme_data riki acme_world))
    = o :: World.ordersCache acme_world
    /\ Order.status o = en_armado
    /\ Order.history o = [h]
    /\ HistoryEntry.user h = "Riki"%string
    /\ Order.products o = [p']
    /\ Product.originalQuantity p' = Some 10.
Proof.
  assert (Hrun : createOrder false acme_data riki acme_world
                 = (Return true, snd (createOrder false acme_data riki acme_world)))
    by (vm_compute; reflexivity).
  destruct (createOrder_initial_order false acme_data riki
              (Product.mk "" None "Vino tinto" 10 None None (Some 1500) (Some 15000))
              acme_world (snd (createOrder false acme_data riki acme_world))
              eq_refl eq_refl Hrun)
    as (o & p' & h & Hc & _ & Hs & _ & _ & _ & Hh & Hu & Hp & _ & Hoq & _).
  exists o, p', h. repeat split; assumption.
Defined.

(** ** Releasing an order nobody holds *)

Lemma with_working_unclaimed (o : Order.t) :
  no_claim o -> Order.with_working o None None = o.
Proof.
  destruct o as [i cn ca ps st ms rs pm paid c h ab cb apv notes cwb wst ta].
  unfold no_claim; simpl. now intros (-> & ->).
Qed.

Lemma mark_working_unclaimed (orderId : string) (l : list Order.t) :
  (forall o, In o l -> has_id orderId o = true -> no_claim o) ->
  mark_working orderId None None l = l.
Proof.
  intros Hnone. unfold mark_working.
  induction l as [|o l IH]; simpl; [reflexivity|].
  rewrite IH by (intros x Hx; apply Hnone; now right).
  destruct (has_id orderId o) eqn:E; [|reflexivity].
  rewrite with_working_unclaimed; [reflexivity|].
  apply Hnone; [now left | assumption].
Qed.

Lemma replace_first_found {A : Type} (p : A -> bool) (x : A) (l : list A) :
  find p l = Some x -> replace_first p x l = l.
Proof.
  induction l as [|y l IH]; simpl; [discriminate|].
  destruct (p y).
  - now intros [= ->].
  - intros H. now rewrite IH.
Qed.

Lemma clear_rows_unclaimed (orderId : string) (rows : list OrderRow.t) :
  (forall r, In r rows -> order_id_is orderId r = true -> row_no_claim r) ->
  map (fun r =>
         if order_id_is orderId r
         then OrderRow.mk (OrderRow.id r) (OrderRow.client_name r)
                (OrderRow.client_address r) (OrderRow.status r)
                (OrderRow.payment_method r) (OrderRow.is_paid r)
                (OrderRow.armed_by r) (OrderRow.controlled_by r)
                (OrderRow.awaiting_payment_verification r)
                (OrderRow.initial_notes r) (OrderRow.created_at r)
                None None (OrderRow.total_amount r)
         else r) rows
  = rows.
Proof.
  intros Hnone.
  induction rows as [|r rows IH]; simpl; [reflexivity|].
  rewrite IH by (intros x Hx; apply Hnone; now right).
  destruct (order_id_is orderId r) eqn:E; [|reflexivity].
  f_equal. destruct (Hnone r (or_introl eq_refl) E) as (Hby & Hstart).
  destruct r as [i cn ca st pm paid ab cb apv notes c cwb wst ta].
  simpl in *. now subst.
Qed.

Lemma DB_with_orders_same (d : DB.t) : DB.with_orders d (DB.orders d) = d.
Proof. now destruct d. Qed.

(** C9, as amended.  [clearWorkingOnOrder] on an order that nobody
    holds and that has no start time (both flags unset in the cache, in
    the stored list and in the table of orders) changes neither the
    cache nor the stored list nor the tables, whatever [userName] and
    [userRole] are (given or not), in both modes and even when its
    persistence call fails.  It makes at most one persistence call and
    returns [false] exactly when that call fails: in remote mode,
    unless a role other than the one of an operator is given, it
    returns [false] exactly when the next persistence call fails. *)
Theorem clearWorkingOnOrder_unclaimed_is_noop :
  forall (useLocalStorage : bool) (w : World.t) (orderId : string)
         (userName userRole : option string),
    unclaimed orderId w ->
    exists b w',
      clearWorkingOnOrder useLocalStorage orderId userName userRole w = (Return b, w')
      /\ World.ordersCache w' = World.ordersCache w
      /\ World.stored_orders w' = World.stored_orders w
      /\ World.db w' = World.db w
      /\ (fails_within 1 w = false -> b = true)
      /\ (exists outcomes,
             calls_made w w' outcomes
             /\ (List.length outcomes <= 1)%nat
             /\ b = negb (any_failure outcomes))
      /\ (useLocalStorage = false -> clears_for userRole = true ->
          b = negb (fails_within 1 w)).
Proof.
  intros local w orderId userName userRole (Uc & Us & Ud).
  unfold clearWorkingOnOrder, fails_within, clears_for, calls_made, any_failure.
  destruct w as [cache lft stored bn d now rand gen fl].
  cbn [World.ordersCache World.stored_orders World.db World.faults] in *.
  match goal with |- context [if ?c then ret true else _] => destruct c end.
  1:{ eexists _, _. repeat split; try discriminate.
      exists []. repeat split. simpl. lia. }
  pose proof (mark_working_unclaimed orderId cache Uc) as Ecache.
  assert (Hnone : forall fl' : list bool,
             exists outcomes : list bool,
               fl' = outcomes ++ fl' /\ (List.length outcomes <= 1)%nat
               /\ true = negb (existsb (fun f : bool => f) outcomes)).
  { intros fl'. exists []. repeat split. simpl. lia. }
  destruct local.
  - hook_eval.
    destruct (find (has_id orderId) (parsed_or_empty stored)) as [o|] eqn:Hfind.
    + pose proof (find_some _ _ Hfind) as (Hin & Hid).
      rewrite (with_working_unclaimed o (Us o Hin Hid)), (replace_first_found _ _ _ Hfind).
      assert (Es : Some (parsed_or_empty stored) = stored).
      { destruct stored; [reflexivity | discriminate Hfind]. }
      match goal with |- context [if ?c then _ else _] => destruct c end.
      * destruct fl as [|[|] fl]; hook_eval; rewrite ?Es, Ecache;
          eexists _, _; (split; [reflexivity|]);
          (repeat split; try (intros H; discriminate H));
          first [ exists []; repeat split; simpl; lia
                | exists [true]; repeat split; simpl; lia
                | exists [false]; repeat split; simpl; lia ].
      * hook_eval. rewrite Ecache. eexists _, _. split; [reflexivity|].
        repeat split; try discriminate. apply Hnone.
    + hook_eval. rewrite Ecache. eexists _, _. split; [reflexivity|].
      repeat split; try discriminate. apply Hnone.
  - pose proof (clear_rows_unclaimed orderId (DB.orders d) Ud) as Erows.
    destruct fl as [|[|] fl]; hook_eval; rewrite ?Erows, ?DB_with_orders_same, Ecache;
      eexists _, _; (split; [reflexivity|]);
      (repeat split; try (intros H; discriminate H));
      first [ exists []; repeat split; simpl; lia
            | exists [true]; repeat split; simpl; lia
            | exists [false]; repeat split; simpl; lia ].
Qed.

(** C9, witness: nobody holds the order of Acme; Camilo releases it. *)
Lemma clearWorkingOnOrder_unclaimed_is_noop_witness :
  exists w',
    clearWorkingOnOrder false "PED-1" (Some "Camilo"%string) (Some "armador"%string)
      acme_world = (Return true, w')
    /\ World.ordersCache w' = World.ordersCache acme_world
    /\ World.db w' = World.db acme_world.
Proof.
  assert (Hfree : unclaimed "PED-1" acme_world).
  { split; [|split]; intros x [<-|[]] _; split; reflexivity. }
  destruct (clearWorkingOnOrder_unclaimed_is_noop false acme_world "PED-1"%string
              (Some "Camilo"%string) (Some "armador"%string) Hfree)
    as (b & w' & E & Hc & _ & Hd & Hb & _).
  rewrite (Hb eq_refl) in E.
  exists w'. repeat split; assumption.
Defined.

(** C9, counterexample.  The operation is not always a no-op that
    returns [true] on an order whose holder is unset.  (1) Nobody holds
    the order of Acme and the request fails: [clearWorkingOnOrder]
    returns [false].  (2) The order of Acme has no holder but a start
    time, in the cache and in the table (the state the update of a
    fetched copy leaves): the operation empties the start time in
    both. *)
Lemma clearWorkingOnOrder_not_always_a_noop_returning_true :
  (unclaimed "PED-1" acme_world_offline
   /\ fst (clearWorkingOnOrder false "PED-1" None None acme_world_offline)
      = Return false)
  /\ (map Order.currentlyWorkingBy (World.ordersCache acme_started_world) = [None]
      /\ map OrderRow.currently_working_by (DB.orders (World.db acme_started_world))
         = [None]
      /\ map Order.workingStartTime (World.ordersCache acme_started_world)
         = [Some 50000]
      /\ map OrderRow.working_start_time (DB.orders (World.db acme_started_world))
         = [Some 50000]
      /\ exists w',
          clearWorkingOnOrder false "PED-1" None None acme_started_world
          = (Return true, w')
          /\ map Order.workingStartTime (World.ordersCache w') = [None]
          /\ map OrderRow.working_start_time (DB.orders (World.db w')) = [None]).
Proof.
  split.
  - split; [|reflexivity].
    split; [|split]; intros x [<-|[]] _; split; reflexivity.
  - repeat split. eexists. split; [vm_compute; reflexivity|]. split; reflexivity.
Qed.

(** ** Sorting *)

Section SortingFacts.
Context {A : Type} (le : A -> A -> bool).

Lemma insert_sorted_perm (x : A) (l : list A) :
  Permutation (insert_sorted le x l) (x :: l).
Proof.
  induction l as [|y l IH]; simpl; [reflexivity|].
  destruct (le x y); [reflexivity|].
  rewrite IH. apply perm_swap.
Qed.

Lemma stable_sort_perm (l : list A) : Permutation (stable_sort le l) l.
Proof.
  induction l as [|x l IH]; simpl; [reflexivity|].
  rewrite insert_sorted_perm. now constructor.
Qed.

Lemma stable_sort_length (l : list A) :
  List.length (stable_sort le l) = List.length l.
Proof. apply Permutation_length, stable_sort_perm. Qed.

Lemma stable_sort_In (x : A) (l : list A) : In x (stable_sort le l) <-> In x l.
Proof.
  split; apply Permutation_in; [|symmetry]; apply stable_sort_perm.
Qed.

(** A list that is already in order is left as it is. *)
Lemma stable_sort_sorted (l : list A) :
  StronglySorted (fun a b => le a b = true) l -> stable_sort le l = l.
Proof.
  induction 1 as [|x l Hl IH Hx]; simpl; [reflexivity|].
  rewrite IH. destruct l as [|y l]; simpl; [reflexivity|].
  inversion Hx as [|? ? Hxy _]; subst. now rewrite Hxy.
Qed.
End SortingFacts.

(** ** fetchOrders *)

Lemma NoDup_map_filter {A B : Type} (f : A -> B) (p : A -> bool) (l : list A) :
  NoDup (map f l) -> NoDup (map f (filter p l)).
Proof.
  induction l as [|x l IH]; simpl; intros H; [constructor|].
  inversion H as [|? ? Hx Hl]; subst.
  destruct (p x); simpl; [|now apply IH].
  constructor; [|now apply IH].
  intros Hin. apply Hx. rewrite in_map_iff in *.
  destruct Hin as (y & Ey & Hy). exists y. split; [exact Ey|].
  now apply filter_In in Hy.
Qed.

Lemma NoDup_firstn {A : Type} (n : nat) (l : list A) : NoDup l -> NoDup (firstn n l).
Proof.
  revert n. induction l as [|x l IH]; intros [|n] H; simpl; try constructor.
  - inversion H as [|? ? Hx Hl]; subst. intros Hin. apply Hx.
    rewrite <- (firstn_skipn n l). apply in_or_app. now left.
  - inversion H; subst. now apply IH.
Qed.

Lemma map_id_mapOrderRow (d : DB.t) (rows : list OrderRow.t) :
  map Order.id (map mapOrderRow (map (join d) rows)) = map OrderRow.id rows.
Proof. rewrite !map_map. apply map_ext. reflexivity. Qed.

Lemma fresh_active_ids_NoDup (w : World.t) :
  NoDup (map OrderRow.id (DB.orders (World.db w))) ->
  NoDup (map Order.id (fresh_active w)).
Proof.
  intros H. unfold fresh_active, select_orders.
  rewrite map_id_mapOrderRow, <- firstn_map.
  apply NoDup_firstn, NoDup_map_filter.
  eapply Permutation_NoDup; [|exact H].
  apply Permutation_map. symmetry. apply stable_sort_perm.
Qed.

Lemma fresh_active_not_paid (w : World.t) :
  Forall (fun o => Order.status o <> pagado) (fresh_active w).
Proof.
  unfold fresh_active, select_orders.
  rewrite !Forall_map. apply Forall_forall. intros r Hr.
  apply (In_nth_error) in Hr as (n & Hn).
  assert (Hin : In r (filter (fun r => negb (OrderStatus_eqb (OrderRow.status r) pagado))
                        (stable_sort newest_first (DB.orders (World.db w))))).
  { apply nth_error_In in Hn.
    rewrite <- (firstn_skipn 60 (filter _ _)). apply in_or_app. now left. }
  apply filter_In in Hin as (_ & Hs). simpl.
  intros E. rewrite E in Hs. discriminate Hs.
Qed.

Lemma filter_paid_none (l : list Order.t) :
  Forall (fun o => Order.status o <> pagado) l ->
  filter (fun o => OrderStatus_eqb (Order.status o) pagado) l = [].
Proof.
  induction 1 as [|o l Ho Hl IH]; simpl; [reflexivity|].
  destruct (OrderStatus_eqb (Order.status o) pagado) eqn:E; [|exact IH].
  apply OrderStatus_eqb_eq in E. contradiction.
Qed.

Lemma filter_idem {A : Type} (p : A -> bool) (l : list A) :
  filter p (filter p l) = filter p l.
Proof.
  induction l as [|x l IH]; simpl; [reflexivity|].
  destruct (p x) eqn:E; simpl; rewrite ?E, IH; reflexivity.
Qed.

(** C4, as amended.  In remote mode, when [fetchOrders] is not served
    from the cache and the query succeeds, a prioritized fetch returns
    and caches the freshly fetched orders (none of them paid, at most
    60) followed by the paid orders the cache held, in their order: the
    paid orders of the result are exactly the paid orders held before;
    ids are not repeated provided they were not repeated in the store
    nor among the cached paid orders and no fetched order has the id of
    a cached paid order.  A forced non-prioritized fetch whose query
    succeeds replaces the cache by what the store answers.  In local
    mode a fetch that is not served from the cache replaces the cache
    by the stored list, prioritized or not. *)
Theorem prioritized_fetch_merges_cached_paid :
  forall (w : World.t) (forceRefresh : bool),
    served_from_cache forceRefresh w = false ->
    fails_within 1 w = false ->
    (exists w',
        fetchOrders false forceRefresh true w
        = (Return (fresh_active w ++ cached_paid w), w')
        /\ World.ordersCache w' = fresh_active w ++ cached_paid w
        /\ World.lastFetchTime w' = World.now w)
    /\ Forall (fun o => Order.status o <> pagado) (fresh_active w)
    /\ (List.length (fresh_active w) <= 60)%nat
    /\ filter (fun o => OrderStatus_eqb (Order.status o) pagado)
         (fresh_active w ++ cached_paid w)
       = cached_paid w
    /\ (NoDup (map OrderRow.id (DB.orders (World.db w))) ->
        NoDup (map Order.id (cached_paid w)) ->
        (forall o, In o (fresh_active w) ->
                   ~ In (Order.id o) (map Order.id (cached_paid w))) ->
        NoDup (map Order.id (fresh_active w ++ cached_paid w)))
    /\ (exists w',
           fetchOrders false true false w = (Return (fresh_all w), w')
           /\ World.ordersCache w' = fresh_all w)
    /\ (forall prioritizeActive stored,
           World.stored_orders w = Some stored ->
           exists w',
             fetchOrders true forceRefresh prioritizeActive w = (Return stored, w')
             /\ World.ordersCache w' = stored).
Proof.
  intros w forceRefresh Hserved Hok.
  split; [|split; [|split; [|split; [|split; [|split]]]]].
  - unfold fetchOrders, fresh_active, cached_paid.
    unfold served_from_cache in Hserved. unfold fails_within in Hok.
    destruct w as [cache lft stored bn d now rand gen fl].
    hook_eval. rewrite Hserved.
    destruct fl as [|[|] fl]; [|discriminate Hok|]; hook_eval;
      eexists; repeat split.
  - apply fresh_active_not_paid.
  - unfold fresh_active, select_orders. rewrite !length_map.
    apply firstn_le_length.
  - rewrite filter_app, (filter_paid_none _ (fresh_active_not_paid w)).
    unfold cached_paid. simpl. apply filter_idem.
  - intros Hdb Hpaid Hdisj. rewrite map_app. apply NoDup_app.
    + now apply fresh_active_ids_NoDup.
    + exact Hpaid.
    + intros i Hi. apply in_map_iff in Hi as (o & <- & Ho). now apply Hdisj.
  - unfold fetchOrders, fresh_all. unfold fails_within in Hok.
    destruct w as [cache lft stored bn d now rand gen fl].
    hook_eval.
    destruct fl as [|[|] fl]; [|discriminate Hok|]; hook_eval;
      eexists; repeat split.
  - intros prioritizeActive l Hl. unfold fetchOrders.
    unfold served_from_cache in Hserved.
    destruct w as [cache lft stored bn d now rand gen fl].
    cbn [World.stored_orders] in Hl. subst stored.
    hook_eval. rewrite Hserved. eexists. repeat split.
Qed.

(** C4, witness: a forced prioritized fetch while the cache holds the
    paid order of Bodega and the store the order of Acme. *)
Lemma prioritized_fetch_merges_cached_paid_witness :
  let w := World.mk [bodega_paid] 0 None None acme_db 60000 tally 0 [] in
  exists w',
    fetchOrders false true true w = (Return [acme; bodega_paid], w')
    /\ World.ordersCache w' = [acme; bodega_paid].
Proof.
  intros w.
  destruct (prioritized_fetch_merges_cached_paid w true eq_refl eq_refl)
    as ((w' & E & Hc & _) & _).
  exists w'. split; [exact E | exact Hc].
Defined.

(** C4, counterexample.  (1) A cached paid order whose row in the store
    is not paid any more comes back twice from a forced prioritized
    fetch.  (2) Within the five seconds of the cache window a
    prioritized fetch that is not forced returns the cache as it is,
    without the order placed meanwhile.  (3) In local mode the
    priority is ignored: the stored list is returned as it is, and a
    paid order only the cache held is dropped. *)
Lemma prioritized_fetch_not_always_a_merge :
  option_map (map Order.id)
    (match fst (fetchOrders false true true stale_paid_world) with
     | Return l => Some l
     | Throw => None
     end)
  = Some ["PED-1"%string; "PED-1"%string]
  /\ (fst (fetchOrders false false true just_fetched_world) = Return [acme]
      /\ map Order.id (fresh_active just_fetched_world) = ["PED-2"%string; "PED-1"%string])
  /\ (fst (fetchOrders true true true local_world) = Return [acme]
      /\ cached_paid local_world = [bodega_paid]).
Proof. vm_compute. repeat split. Qed.

(** ** History under updateOrder *)

(** In remote mode [updateOrder] only ever adds history rows: every id
    of the history table is still there afterwards, whatever the order
    passed and whichever requests fail. *)
Lemma updateOrder_remote_keeps_history_ids (order : Order.t) (nulls : Nulls.t)
      (currentUser : option User.t) (w : World.t) :
  history_ids_kept w (snd (updateOrder false order nulls currentUser w)).
Proof.
  revert w.
  change (steps_in history_ids_kept (updateOrder false order nulls currentUser)).
  unfold updateOrder, set_ordersCache.
  repeat steps_with
    ltac:(unfold history_ids_kept; simpl; rewrite ?map_app;
          auto using incl_refl, incl_appl).
Qed.

(** C3, at the failing input.  Local storage holds the order of Acme
    with the history entry HIST-1; an update prepared from a copy
    without that entry succeeds and the stored order has lost it. *)
Theorem updateOrder_local_drops_history_entry :
  stored_history_ids "PED-1" acme_world = ["HIST-1"%string]
  /\ fst (updateOrder true acme_armado_stale Nulls.none (Some camilo) acme_world)
     = Return true
  /\ stored_history_ids "PED-1"
       (snd (updateOrder true acme_armado_stale Nulls.none (Some camilo) acme_world))
     = ["HIST-2"%string]
  /\ map HistoryRow.id
       (DB.order_history
          (World.db
             (snd (updateOrder false acme_armado_stale Nulls.none (Some camilo)
                     acme_world))))
     = ["HIST-1"%string; "HIST-2"%string].
Proof. vm_compute. repeat split. Qed.

(** ** The remote round trip: what comes back *)

Lemma filter_after_replace {X : Type} (p : X -> bool) (old new : list X) :
  Forall (fun x => p x = true) new ->
  filter p (filter (fun x => negb (p x)) old ++ new) = new.
Proof.
  intros Hnew. rewrite filter_app.
  assert (E1 : filter p (filter (fun x => negb (p x)) old) = []).
  { induction old as [|x old IH]; simpl; [reflexivity|].
    destruct (p x) eqn:E; simpl; [exact IH|]. now rewrite E. }
  assert (E2 : filter p new = new).
  { induction Hnew as [|x new Hx Hnew IH]; simpl; [reflexivity|].
    now rewrite Hx, IH. }
  now rewrite E1, E2.
Qed.

Lemma filter_all_true {X : Type} (p : X -> bool) (l : list X) :
  Forall (fun x => p x = true) l -> filter p l = l.
Proof.
  induction 1 as [|x l Hx Hl IH]; simpl; [reflexivity|]. now rewrite Hx, IH.
Qed.

Lemma parse_if_truthy_nonzero (x : option Z) :
  nonzero_if_set x = true -> parse_if_truthy x = x.
Proof. destruct x as [n|]; simpl; [|reflexivity]. now intros ->. Qed.

Lemma mapProductRow_product_row_of (i : string) (p : Product.t) :
  product_roundtrips p = true -> mapProductRow (product_row_of i p) = p.
Proof.
  unfold product_roundtrips. intros H.
  apply andb_prop in H as (H & H3). apply andb_prop in H as (H & H2).
  apply andb_prop in H as (_ & H1).
  destruct p as [pid code name q oq chk up st]; unfold mapProductRow; simpl in *.
  now rewrite !parse_if_truthy_nonzero.
Qed.

Lemma map_mapProductRow_product_row_of (i : string) (ps : list Product.t) :
  Forall (fun p => product_roundtrips p = true) ps ->
  map mapProductRow (map (product_row_of i) ps) = ps.
Proof.
  induction 1 as [|p ps Hp Hps IH]; simpl; [reflexivity|].
  now rewrite mapProductRow_product_row_of, IH.
Qed.

Lemma map_mapMissingRow_missing_row_of (i : string) (ms : list MissingProduct.t) :
  map mapMissingRow (map (missing_row_of i) ms) = ms.
Proof.
  induction ms as [|m ms IH]; simpl; [reflexivity|]. rewrite IH. now destruct m.
Qed.

Lemma map_mapReturnedRow_returned_row_of (i : string) (rs : list ReturnedProduct.t) :
  map mapReturnedRow (map (returned_row_of i) rs) = rs.
Proof.
  induction rs as [|x rs IH]; simpl; [reflexivity|]. rewrite IH. now destruct x.
Qed.

Lemma map_mapHistoryRow_history_row_of (i : string) (hs : list HistoryEntry.t) :
  map mapHistoryRow (map (history_row_of i) hs) = hs.
Proof.
  induction hs as [|h hs IH]; simpl; [reflexivity|]. rewrite IH. now destruct h.
Qed.

Lemma existsb_eqb_In (x : string) (l : list string) :
  existsb (String.eqb x) l = true <-> In x l.
Proof.
  rewrite existsb_exists. split.
  - intros (y & Hy & E). apply String.eqb_eq in E. now subst.
  - intros H. exists x. split; [exact H | apply String.eqb_refl].
Qed.

Lemma known_history_filtered (hs : list HistoryRow.t) (known : list string) :
  incl (map HistoryRow.id hs) known ->
  filter (fun h => negb (existsb (String.eqb (HistoryEntry.id h)) known))
    (map mapHistoryRow hs) = [].
Proof.
  induction hs as [|h hs IH]; simpl; intros Hincl; [reflexivity|].
  assert (E : existsb (String.eqb (HistoryRow.id h)) known = true).
  { apply existsb_eqb_In. apply Hincl. now left. }
  rewrite E. simpl. apply IH. intros x Hx. apply Hincl. now right.
Qed.

Lemma new_history_added (o : Order.t) (d : DB.t) (added : list HistoryEntry.t) :
  Order.history o = map mapHistoryRow (history_rows_of (Order.id o) d) ++ added ->
  Forall (fun h => truthy_string (HistoryEntry.id h) = true
                   /\ ~ In (HistoryEntry.id h)
                          (map HistoryRow.id (history_rows_of (Order.id o) d)))
         added ->
  new_history o d = added.
Proof.
  intros Hh Hadded. unfold new_history. rewrite Hh, filter_app.
  set (known := map HistoryRow.id (history_rows_of (Order.id o) d)) in *.
  assert (E1 : filter (fun h => negb (existsb (String.eqb (HistoryEntry.id h)) known))
                 (map mapHistoryRow (history_rows_of (Order.id o) d)) = []).
  { apply known_history_filtered. apply incl_refl. }
  rewrite E1. simpl. apply filter_all_true.
  eapply Forall_impl; [|exact Hadded]. intros h (_ & Hn). simpl.
  destruct (existsb (String.eqb (HistoryEntry.id h)) known) eqn:E; [|reflexivity].
  apply existsb_eqb_In in E. contradiction.
Qed.

Lemma string_or_empty (s : string) : string_or (Some s) "" = s.
Proof.
  unfold string_or, truthy_string.
  destruct (String.eqb s "") eqn:E; simpl; [|reflexivity].
  apply String.eqb_eq in E. now subst.
Qed.

Lemma sent_or_kept_ready {A : Type} (sent stored : option A) :
  (sent = None -> stored = None) -> sent_or_kept sent stored = sent.
Proof. destruct sent; simpl; [reflexivity|]. intros H. now apply H. Qed.

(** The row written by [updateOrder], joined with the collections it
    wrote, is mapped back to the order. *)
Lemma sent_null_or_kept_ready {A : Type} (is_null : bool) (sent stored : option A) :
  (sent = None -> stored = None) -> sent_null_or_kept is_null sent stored = sent.
Proof.
  destruct sent; simpl; [reflexivity|]. intros H.
  destruct is_null; [reflexivity | now apply H].
Qed.

Lemma mapOrderRow_stored_after_update (o : Order.t) (nulls : Nulls.t) (d : DB.t)
      (r : OrderRow.t) :
  OrderRow.id r = Order.id o ->
  row_ready o r ->
  Forall (fun p => product_roundtrips p = true) (Order.products o) ->
  nonzero_if_set (Order.totalAmount o) = true ->
  history_ready o d ->
  mapOrderRow (join (stored_after_update o nulls d) (updateOrder_payload o nulls r)) = o.
Proof.
  intros Hid (Hc & Hpm & Hab & Hcb & Hapv & Hnotes & Hcwb & Hwst & Hta) Hps Hnz
         (added & Hh & Hadded & Hsorted).
  pose proof (new_history_added o d added Hh Hadded) as Hnew.
  unfold mapOrderRow, join, stored_after_update.
  cbn [Joined.row Joined.products Joined.missing_products Joined.returned_products
         Joined.order_history DB.products DB.missing_products DB.returned_products
         DB.order_history].
  replace (OrderRow.id (updateOrder_payload o nulls r)) with (Order.id o)
    by (symmetry; exact Hid).
  rewrite (filter_after_replace
             (fun p => String.eqb (ProductRow.order_id p) (Order.id o)))
    by (rewrite Forall_map; apply Forall_forall; intros; apply String.eqb_refl).
  rewrite (filter_after_replace
             (fun m => String.eqb (MissingRow.order_id m) (Order.id o)))
    by (rewrite Forall_map; apply Forall_forall; intros; apply String.eqb_refl).
  rewrite (filter_after_replace
             (fun x => String.eqb (ReturnedRow.order_id x) (Order.id o)))
    by (rewrite Forall_map; apply Forall_forall; intros; apply String.eqb_refl).
  rewrite filter_app.
  rewrite (filter_all_true _ (map (history_row_of (Order.id o)) (new_history o d)))
    by (rewrite Forall_map; apply Forall_forall; intros; apply String.eqb_refl).
  fold (history_rows_of (Order.id o) d).
  rewrite map_app, map_mapHistoryRow_history_row_of, Hnew, <- Hh.
  rewrite (stable_sort_sorted _ _ Hsorted).
  rewrite map_mapProductRow_product_row_of by exact Hps.
  rewrite map_mapMissingRow_missing_row_of, map_mapReturnedRow_returned_row_of.
  unfold updateOrder_payload.
  cbn [OrderRow.id OrderRow.client_name OrderRow.client_address OrderRow.status
         OrderRow.payment_method OrderRow.is_paid OrderRow.armed_by
         OrderRow.controlled_by OrderRow.awaiting_payment_verification
         OrderRow.initial_notes OrderRow.created_at OrderRow.currently_working_by
         OrderRow.working_start_time OrderRow.total_amount].
  rewrite string_or_empty, Hc.
  rewrite !sent_null_or_kept_ready by assumption.
  rewrite !sent_or_kept_ready by assumption.
  assert (Etotal : parse_if_truthy
                     (sent_or_kept (Order.totalAmount o) (OrderRow.total_amount r))
                   = Order.totalAmount o).
  { destruct (Order.totalAmount o) as [n|]; simpl in *;
      [now rewrite Hnz | now apply Hta]. }
  rewrite Etotal. now destruct o.
Qed.

(** ** The remote round trip: running updateOrder without failures *)

Lemma bind_run {A B : Type} (m : M A) (k : A -> M B) (w w1 : World.t) (a : A)
      (r : Outcome B * World.t) :
  m w = (Return a, w1) -> k a w1 = r -> bind m k w = r.
Proof. intros Em Ek. unfold bind. now rewrite Em. Qed.

Lemma try_catch_run {A : Type} (m h : M A) (w w1 : World.t) (a : A) :
  m w = (Return a, w1) -> try_catch m h w = (Return a, w1).
Proof. intros Em. unfold try_catch. now rewrite Em. Qed.

Lemma await_ok {A : Type} (q : DB.t -> A * DB.t) (w : World.t) :
  World.faults w = [] ->
  await q w
  = (Return (Response.mk (Some (fst (q (World.db w)))) false),
     World.with_db w (snd (q (World.db w)))).
Proof.
  destruct w as [cache lft stored bn d now rand gen fl]. simpl. intros ->.
  hook_eval. now destruct (q d).
Qed.

Lemma with_db_same (w : World.t) : World.with_db w (World.db w) = w.
Proof. now destruct w. Qed.

(** [if (rows.length) { insert; if (error) throw }] *)
Lemma insert_if_any_run {X : Type} (l : list X) (q : DB.t -> unit * DB.t) (w : World.t) :
  World.faults w = [] ->
  (l = [] -> snd (q (World.db w)) = World.db w) ->
  (if (0 <? List.length l)%nat
   then r <- await q ;; throw_if_error r
   else ret tt) w
  = (Return tt, World.with_db w (snd (q (World.db w)))).
Proof.
  intros Hok Hnil. destruct l as [|x l]; simpl.
  - rewrite Hnil by reflexivity. now rewrite with_db_same.
  - eapply bind_run; [now apply await_ok | reflexivity].
Qed.

(** The same when the rows get their ids first. *)
Lemma map_insert_if_any_run {X Y : Type} (l : list X) (f : X -> M Y) (g : X -> Y)
      (ins : list Y -> DB.t -> unit * DB.t) (w : World.t) :
  World.faults w = [] ->
  (forall x, In x l -> forall w0, f x w0 = (Return (g x), w0)) ->
  snd (ins [] (World.db w)) = World.db w ->
  (if (0 <? List.length l)%nat
   then rows <- mapM f l ;; r <- await (ins rows) ;; throw_if_error r
   else ret tt) w
  = (Return tt, World.with_db w (snd (ins (map g l) (World.db w)))).
Proof.
  intros Hok Hf Hnil. destruct l as [|x l].
  - simpl. rewrite Hnil. now rewrite with_db_same.
  - change ((0 <? List.length (x :: l))%nat) with true. cbv iota.
    eapply bind_run; [apply (mapM_pure f g); exact Hf|]. cbv beta.
    eapply bind_run; [now apply await_ok | reflexivity].
Qed.

Lemma notify_update_ok (order : Order.t) (currentUser : option User.t) (w : World.t) :
  World.faults w = [] ->
  exists w',
    notify_update order currentUser w = (Return tt, w')
    /\ World.faults w' = []
    /\ World.db w' = World.db w
    /\ World.stored_orders w' = World.stored_orders w.
Proof.
  destruct w as [cache lft stored bn d now rand gen fl]. simpl. intros ->.
  unfold notify_update.
  destruct currentUser as [u|]; [|eexists; repeat split].
  destruct (last_entry (Order.history order)) as [l|]; [|eexists; repeat split].
  destruct (String.eqb (HistoryEntry.user l) (User.name u));
    hook_eval; eexists; repeat split.
Qed.

Lemma id_or_generate_truthy (x prefix : string) (w : World.t) :
  truthy_string x = true -> id_or_generate x prefix w = (Return x, w).
Proof. unfold id_or_generate. now intros ->. Qed.

Lemma insert_products_nil (d : DB.t) : snd (insert_products [] d) = d.
Proof. destruct d. simpl. unfold DB.with_products. simpl. now rewrite app_nil_r. Qed.

Lemma insert_missing_products_nil (d : DB.t) : snd (insert_missing_products [] d) = d.
Proof. destruct d. simpl. unfold DB.with_missing_products. simpl. now rewrite app_nil_r. Qed.

Lemma insert_returned_products_nil (d : DB.t) : snd (insert_returned_products [] d) = d.
Proof. destruct d. simpl. unfold DB.with_returned_products. simpl. now rewrite app_nil_r. Qed.

Lemma insert_order_history_nil (d : DB.t) : snd (insert_order_history [] d) = d.
Proof. destruct d. simpl. unfold DB.with_order_history. simpl. now rewrite app_nil_r. Qed.

Lemma bind_eq {A B : Type} (m : M A) (k : A -> M B) (w w1 : World.t) (a : A) :
  m w = (Return a, w1) -> bind m k w = k a w1.
Proof. intros Em. unfold bind. now rewrite Em. Qed.

(** Keep the world and the tables in the shape of a record. *)
Ltac world_norm :=
  cbv beta iota zeta delta
    [World.ordersCache World.lastFetchTime World.stored_orders
       World.broadcast_notification World.db World.now World.rand
       World.generated World.faults
       World.with_ordersCache World.with_lastFetchTime World.with_stored_orders
       World.with_broadcast_notification World.with_db World.with_generated
       World.with_faults
       DB.orders DB.products DB.missing_products DB.returned_products DB.order_history
       DB.with_orders DB.with_products DB.with_missing_products
       DB.with_returned_products DB.with_order_history
       Response.data Response.error
       insert_order insert_products insert_missing_products
       insert_returned_products insert_order_history delete_products
       delete_missing_products delete_returned_products select_history_ids
       delete_order update_orders query_orders
       fst snd].

Lemma updateOrder_remote_run (order : Order.t) (nulls : Nulls.t)
      (currentUser : option User.t)
      (w : World.t) :
  World.faults w = [] ->
  Forall (fun p => truthy_string (Product.id p) = true) (Order.products order) ->
  Forall (fun h => truthy_string (HistoryEntry.id h) = true)
         (new_history order (World.db w)) ->
  exists w',
    updateOrder false order nulls currentUser w = (Return true, w')
    /\ World.faults w' = []
    /\ World.db w' = stored_after_update order nulls (World.db w).
Proof.
  intros Hok Hps Hhs.
  destruct w as [cache lft stored bn d now rand gen fl]. simpl in Hok. subst fl.
  destruct d as [orders products missing returned history].
  unfold stored_after_update, new_history, history_rows_of in *.
  cbn [World.db DB.orders DB.products DB.missing_products DB.returned_products
         DB.order_history] in *.
  unfold updateOrder.
  erewrite bind_eq by reflexivity. world_norm.
  unfold try_catch.
  erewrite bind_eq by (apply await_ok; reflexivity). world_norm.
  erewrite bind_eq by reflexivity.
  erewrite bind_eq by (apply await_ok; reflexivity). world_norm.
  erewrite bind_eq.
  2:{ apply (map_insert_if_any_run _ _ (product_row_of (Order.id order))).
      - reflexivity.
      - intros p Hp w0. rewrite Forall_forall in Hps.
        eapply bind_run; [apply id_or_generate_truthy, Hps, Hp | reflexivity].
      - apply insert_products_nil. }
  world_norm.
  erewrite bind_eq by (apply await_ok; reflexivity). world_norm.
  erewrite bind_eq.
  2:{ apply insert_if_any_run; [reflexivity|].
      intros ->. apply insert_missing_products_nil. }
  world_norm.
  erewrite bind_eq by (apply await_ok; reflexivity). world_norm.
  erewrite bind_eq.
  2:{ apply insert_if_any_run; [reflexivity|].
      intros ->. apply insert_returned_products_nil. }
  world_norm.
  erewrite bind_eq by (apply await_ok; reflexivity). world_norm.
  erewrite bind_eq.
  2:{ apply (map_insert_if_any_run _ _ (history_row_of (Order.id order))).
      - reflexivity.
      - intros h Hh w0. rewrite Forall_forall in Hhs.
        eapply bind_run; [apply id_or_generate_truthy, Hhs, Hh | reflexivity].
      - apply insert_order_history_nil. }
  world_norm.
  match goal with
  | |- context [bind (notify_update order currentUser) _ ?w0] =>
      destruct (notify_update_ok order currentUser w0 eq_refl) as (w' & E & Hf & Hd & _)
  end.
  erewrite bind_eq by exact E.
  exists w'. split; [reflexivity|]. split; [exact Hf|].
  etransitivity; [exact Hd | reflexivity].
Qed.

(** ** The round trip *)

Lemma fetchOrders_forced_remote_run (w : World.t) :
  World.faults w = [] ->
  exists w', fetchOrders false true false w = (Return (fresh_all w), w').
Proof.
  destruct w as [cache lft stored bn d now rand gen fl]. simpl. intros ->.
  unfold fetchOrders, fresh_all. hook_eval. eexists. reflexivity.
Qed.

Lemma fetchOrders_forced_local_run (w : World.t) (l : list Order.t) :
  World.stored_orders w = Some l ->
  exists w', fetchOrders true true false w = (Return l, w').
Proof.
  destruct w as [cache lft stored bn d now rand gen fl]. simpl. intros ->.
  unfold fetchOrders. hook_eval. eexists. reflexivity.
Qed.

Lemma updateOrder_local_run (order : Order.t) (nulls : Nulls.t)
      (currentUser : option User.t)
      (w : World.t) :
  World.faults w = [] ->
  In (Order.id order) (map Order.id (parsed_or_empty (World.stored_orders w))) ->
  exists w',
    updateOrder true order nulls currentUser w = (Return true, w')
    /\ World.stored_orders w'
       = Some (replace_first (has_id (Order.id order)) order
                 (parsed_or_empty (World.stored_orders w))).
Proof.
  intros Hok Hin.
  assert (Hex : existsb (has_id (Order.id order))
                  (parsed_or_empty (World.stored_orders w)) = true).
  { apply in_map_iff in Hin as (x & Ex & Hx). apply existsb_exists.
    exists x. split; [exact Hx|]. unfold has_id. rewrite Ex. apply String.eqb_refl. }
  destruct w as [cache lft stored bn d now rand gen fl]. simpl in Hok. subst fl.
  cbn [World.stored_orders] in *.
  unfold updateOrder.
  erewrite bind_eq by reflexivity. world_norm.
  unfold try_catch.
  erewrite bind_eq by reflexivity. world_norm.
  rewrite Hex.
  erewrite bind_eq by reflexivity. world_norm.
  match goal with
  | |- context [bind (notify_update order currentUser) _ ?w0] =>
      destruct (notify_update_ok order currentUser w0 eq_refl) as (w' & E & _ & _ & Hs)
  end.
  erewrite bind_eq by exact E.
  exists w'. split; [reflexivity | exact Hs].
Qed.

Lemma find_replace_first (i : string) (o : Order.t) (l : list Order.t) :
  Order.id o = i ->
  In i (map Order.id l) ->
  find (has_id i) (replace_first (has_id i) o l) = Some o.
Proof.
  intros Hid. induction l as [|x l IH]; simpl; [intros []|].
  intros Hin. destruct (has_id i x) eqn:E; simpl.
  - unfold has_id. now rewrite Hid, String.eqb_refl.
  - rewrite E. apply IH. destruct Hin as [Hx|Hin]; [|exact Hin].
    unfold has_id in E. rewrite Hx, String.eqb_refl in E. discriminate E.
Qed.

Lemma find_map_unique {X : Type} (f : X -> Order.t) (i : string) (o : Order.t)
      (l : list X) :
  (exists x, In x l /\ has_id i (f x) = true) ->
  (forall x, In x l -> has_id i (f x) = true -> f x = o) ->
  find (has_id i) (map f l) = Some o.
Proof.
  induction l as [|x l IH]; simpl; intros (y & Hy & Ey) Hall; [destruct Hy|].
  destruct (has_id i (f x)) eqn:E.
  - f_equal. apply Hall; [now left | exact E].
  - apply IH.
    + destruct Hy as [->|Hy]; [congruence|]. now exists y.
    + intros z Hz. apply Hall. now right.
Qed.

(** What a forced full fetch finds under the id of an order that
    [updateOrder] has just written. *)
Lemma find_in_fresh_all (o : Order.t) (nulls : Nulls.t) (d : DB.t) (w : World.t) :
  remote_ready d o ->
  World.db w = stored_after_update o nulls d ->
  find (has_id (Order.id o)) (fresh_all w) = Some o.
Proof.
  intros (Hin & Hlen & Hrows & Hps & Hnz & Hh) Hdb.
  unfold fresh_all, select_orders. rewrite Hdb.
  rewrite firstn_all2
    by (rewrite stable_sort_length; unfold stored_after_update; simpl;
        now rewrite length_map).
  rewrite map_map.
  assert (Hrow : forall r',
             In r' (DB.orders (stored_after_update o nulls d)) ->
             OrderRow.id r' = Order.id o ->
             exists r, In r (DB.orders d) /\ OrderRow.id r = Order.id o
                       /\ r' = updateOrder_payload o nulls r).
  { unfold stored_after_update; simpl. intros r' Hr' Hid.
    apply in_map_iff in Hr' as (r & Er & Hr).
    unfold order_id_is in Er.
    destruct (String.eqb (OrderRow.id r) (Order.id o)) eqn:E.
    - apply String.eqb_eq in E. exists r. now repeat split.
    - subst r'. rewrite Hid, String.eqb_refl in E. discriminate E. }
  apply find_map_unique.
  - apply in_map_iff in Hin as (r & Er & Hr).
    exists (updateOrder_payload o nulls r). split.
    + apply stable_sort_In. unfold stored_after_update; simpl.
      apply in_map_iff. exists r. split; [|exact Hr].
      unfold order_id_is. now rewrite Er, String.eqb_refl.
    + unfold has_id, mapOrderRow; simpl. rewrite Er. apply String.eqb_refl.
  - intros r' Hr' Hid. apply stable_sort_In in Hr'.
    unfold has_id in Hid. apply String.eqb_eq in Hid.
    destruct (Hrow r' Hr' Hid) as (r & Hr & Er & ->).
    apply mapOrderRow_stored_after_update; auto.
Qed.

(** C2, as amended.  When no persistence call fails, [updateOrder]
    followed by a forced full [fetchOrders] gives the order back equal
    in every field: in local mode for every order local storage holds;
    in remote mode for an order that the store holds among at most 200,
    whose creation time is the stored one, whose unset optional fields
    are unset in the store, whose lines carry ids, whose history
    continues the stored history (stored entries first, then entries
    with new ids, in the order of the timestamps), and whose optional
    amounts are not zero. *)
Theorem updateOrder_then_fetchOrders_roundtrip :
  forall (useLocalStorage : bool) (w : World.t) (order : Order.t) (nulls : Nulls.t)
         (currentUser : option User.t),
    World.faults w = [] ->
    roundtrip_ready useLocalStorage w order ->
    exists (w1 : World.t) (fetched : list Order.t) (w2 : World.t),
      updateOrder useLocalStorage order nulls currentUser w = (Return true, w1)
      /\ fetchOrders useLocalStorage true false w1 = (Return fetched, w2)
      /\ find (has_id (Order.id order)) fetched = Some order.
Proof.
  intros [|] w order nulls currentUser Hok Hready; unfold roundtrip_ready in Hready.
  - destruct (updateOrder_local_run order nulls currentUser w Hok Hready)
      as (w1 & E1 & Hs).
    destruct (fetchOrders_forced_local_run w1 _ Hs) as (w2 & E2).
    eexists w1, _, w2. split; [exact E1|]. split; [exact E2|].
    now apply find_replace_first.
  - pose proof Hready as (_ & _ & _ & Hps & _ & (added & Hh & Hadded & _)).
    destruct (updateOrder_remote_run order nulls currentUser w Hok)
      as (w1 & E1 & Hf & Hdb).
    + eapply Forall_impl; [|exact Hps]. intros p Hp. simpl in Hp.
      unfold product_roundtrips in Hp.
      apply andb_prop in Hp as (Hp & _). apply andb_prop in Hp as (Hp & _).
      now apply andb_prop in Hp as (Hp & _).
    + rewrite (new_history_added _ _ _ Hh Hadded).
      eapply Forall_impl; [|exact Hadded]. now intros h (Hid & _).
    + destruct (fetchOrders_forced_remote_run w1 Hf) as (w2 & E2).
      eexists w1, _, w2. split; [exact E1|]. split; [exact E2|].
      now apply (find_in_fresh_all order nulls (World.db w)).
Qed.

(** C2, witness: Camilo has prepared the order of Acme; the update and
    the forced fetch give it back, in remote mode. *)
Lemma updateOrder_then_fetchOrders_roundtrip_witness :
  exists (w1 : World.t) (fetched : list Order.t) (w2 : World.t),
    updateOrder false acme_armado Nulls.none (Some camilo) acme_world = (Return true, w1)
    /\ fetchOrders false true false w1 = (Return fetched, w2)
    /\ find (has_id "PED-1") fetched = Some acme_armado.
Proof.
  apply (updateOrder_then_fetchOrders_roundtrip false acme_world acme_armado
           Nulls.none (Some camilo) eq_refl).
  unfold roundtrip_ready, remote_ready. simpl.
  split; [now left|]. split; [lia|]. split; [|split; [|split]].
  - intros r [<-|[]] _. repeat split; intros H; try reflexivity; discriminate H.
  - repeat constructor.
  - reflexivity.
  - exists [armado_hecho]. split; [reflexivity|]. split.
    + repeat constructor. intros [H|[]]. discriminate H.
    + repeat constructor.
Defined.

(** C2, counterexample.  In remote mode, with no failing request, the
    round trip does not give back: (1) a total of 0, which comes back
    unset; (2) a history that leaves out a stored entry, which comes
    back with it; (3) an order the store does not hold, which does not
    come back; (4) an unset working flag, [undefined], while the stored
    one is set, which comes back set; (5) a creation time other than the stored
    one; (6) a line without an id, which comes back with a generated
    id; (7) a new history entry dated before a stored one, which comes
    back first; (8) an order older than the 200 newest, which does not
    come back.  In local mode an order that is not stored does not
    come back either (9).  And [updateOrder] returns [true] although the
    request that deletes the old lines (whose error is not looked at)
    failed: the old line comes back with the new one (10). *)
Lemma updateOrder_then_fetchOrders_not_always_equal :
  (Order.totalAmount acme_free = Some 0
   /\ option_map (option_map Order.totalAmount)
        (round_trip false acme_free Nulls.none (Some riki) acme_world)
      = Some (Some None))
  /\ (map HistoryEntry.id (Order.history acme_armado_stale) = ["HIST-2"%string]
      /\ option_map (option_map (fun o => map HistoryEntry.id (Order.history o)))
           (round_trip false acme_armado_stale Nulls.none (Some camilo) acme_world)
         = Some (Some ["HIST-1"%string; "HIST-2"%string]))
  /\ round_trip false bodega Nulls.none (Some riki) acme_world = Some None
  /\ (Order.currentlyWorkingBy acme = None
      /\ option_map (option_map Order.currentlyWorkingBy)
           (round_trip false acme Nulls.none (Some riki) acme_claimed_world)
         = Some (Some (Some "Camilo"%string)))
  /\ (Order.createdAt acme_redated = 7777
      /\ option_map (option_map Order.createdAt)
           (round_trip false acme_redated Nulls.none (Some riki) acme_world)
         = Some (Some 1000))
  /\ (map Product.id (Order.products acme_new_line) = [""%string]
      /\ option_map (option_map (fun o => map Product.id (Order.products o)))
           (round_trip false acme_new_line Nulls.none (Some riki) acme_world)
         = Some (Some ["PROD-0"%string]))
  /\ (map HistoryEntry.id (Order.history acme_backdated)
      = ["HIST-1"%string; "HIST-0"%string]
      /\ option_map (option_map (fun o => map HistoryEntry.id (Order.history o)))
           (round_trip false acme_backdated Nulls.none (Some riki) acme_world)
         = Some (Some ["HIST-0"%string; "HIST-1"%string]))
  /\ round_trip false acme Nulls.none (Some riki) crowded_world = Some None
  /\ round_trip true bodega Nulls.none (Some riki) acme_world = Some None
  /\ (map Product.id (Order.products acme_agua) = ["PROD-9"%string]
      /\ option_map (option_map (fun o => map Product.id (Order.products o)))
           (round_trip false acme_agua Nulls.none (Some riki) acme_world_second_fails)
         = Some (Some ["PROD-1"%string; "PROD-9"%string])).
Proof. vm_compute. repeat split. Qed.

(** ** Invariants of the hook *)

Section Invariant.
Context (I : World.t -> Prop) `{EnvInvariant I}.

Lemma keeps_weaken {A : Type} (m : M A) (Q Q' : A -> Prop) :
  keeps I m Q -> (forall a, Q a -> Q' a) -> keeps I m Q'.
Proof.
  intros Hm HQ w Hw. destruct (Hm w Hw) as (Hi & Hq). split; [exact Hi|].
  intros a Ea. apply HQ, Hq, Ea.
Qed.

Lemma keeps_ret {A : Type} (a : A) : keeps I (ret a) (fun x => x = a).
Proof. intros w Hw. split; [exact Hw|]. now intros x [= <-]. Qed.

Lemma keeps_throw {A : Type} (Q : A -> Prop) : keeps I (@throw A) Q.
Proof. intros w Hw. split; [exact Hw|]. discriminate. Qed.

(** What is read from a world that satisfies the invariant. *)
Lemma keeps_gets {A : Type} (f : World.t -> A) :
  keeps I (gets f) (fun a => exists w, I w /\ a = f w).
Proof. intros w Hw. split; [exact Hw|]. intros a [= <-]. now exists w. Qed.

Lemma keeps_modify (f : World.t -> World.t) :
  (forall w, I w -> I (f w)) -> keeps I (modify f) (fun _ => True).
Proof. intros Hf w Hw. split; [now apply Hf | trivial]. Qed.

Lemma keeps_bind {A B : Type} (m : M A) (k : A -> M B) (Q : A -> Prop) (R : B -> Prop) :
  keeps I m Q -> (forall a, Q a -> keeps I (k a) R) -> keeps I (bind m k) R.
Proof.
  intros Hm Hk w Hw. unfold bind. destruct (Hm w Hw) as (Hi & Hq).
  destruct (m w) as [[a|] w1]; simpl in *.
  - apply (Hk a (Hq a eq_refl) w1 Hi).
  - split; [exact Hi | discriminate].
Qed.

Lemma keeps_try_catch {A : Type} (m h : M A) (Q : A -> Prop) :
  keeps I m Q -> keeps I h Q -> keeps I (try_catch m h) Q.
Proof.
  intros Hm Hh w Hw. unfold try_catch. destruct (Hm w Hw) as (Hi & Hq).
  destruct (m w) as [[a|] w1]; simpl in *.
  - split; [exact Hi|]. intros x [= <-]. now apply Hq.
  - apply (Hh w1 Hi).
Qed.

Lemma keeps_next_fault : keeps I next_fault (fun _ => True).
Proof.
  intros w Hw. unfold next_fault.
  destruct (World.faults w); simpl; (split; [|trivial]);
    [exact Hw | now apply inv_faults].
Qed.

Lemma keeps_generateUniqueId (prefix : string) :
  keeps I (generateUniqueId prefix) (fun _ => True).
Proof. intros w Hw. split; [now apply inv_generated | trivial]. Qed.

Lemma keeps_id_or_generate (x prefix : string) :
  keeps I (id_or_generate x prefix) (fun _ => True).
Proof.
  unfold id_or_generate. destruct (truthy_string x).
  - eapply keeps_weaken; [apply keeps_ret | trivial].
  - apply keeps_generateUniqueId.
Qed.

(** The answer to a request sent from a world that satisfies the
    invariant. *)
Lemma keeps_await {A : Type} (q : DB.t -> A * DB.t) :
  (forall w, I w -> I (World.with_db w (snd (q (World.db w))))) ->
  keeps I (await q)
    (fun r => match Response.data r with
              | Some a => exists w, I w /\ a = fst (q (World.db w))
              | None => True
              end).
Proof.
  intros Hq w Hw. unfold await, bind, next_fault, ret.
  destruct (World.faults w) as [|[|] fs] eqn:Ef; simpl.
  - specialize (Hq w Hw). destruct (q (World.db w)) as [a d] eqn:Eq. simpl in *.
    split; [exact Hq|]. intros r [= <-]. simpl. exists w. now rewrite Eq.
  - split; [now apply inv_faults|]. now intros r [= <-].
  - specialize (Hq _ (inv_faults w fs Hw)). simpl in Hq.
    destruct (q (World.db w)) as [a d] eqn:Eq. simpl in *.
    split; [exact Hq|]. intros r [= <-]. simpl. exists w. now rewrite Eq.
Qed.

Lemma keeps_localStorage_set (write : World.t -> World.t) :
  (forall w, I w -> I (write w)) -> keeps I (localStorage_set write) (fun _ => True).
Proof.
  intros Hwrite w Hw. unfold localStorage_set, bind, next_fault, throw, modify.
  destruct (World.faults w) as [|[|] fs]; simpl; (split; [|trivial]).
  - now apply Hwrite.
  - now apply inv_faults.
  - now apply Hwrite, inv_faults.
Qed.

Lemma keeps_mapM {A B : Type} (f : A -> M B) (l : list A) :
  (forall x, keeps I (f x) (fun _ => True)) -> keeps I (mapM f l) (fun _ => True).
Proof.
  intros Hf. induction l as [|x l IH]; simpl.
  - eapply keeps_weaken; [apply keeps_ret | trivial].
  - eapply keeps_bind; [apply Hf|]. intros y _.
    eapply keeps_bind; [apply IH|]. intros ys _.
    eapply keeps_weaken; [apply keeps_ret | trivial].
Qed.

Lemma keeps_throw_if_error {A : Type} (r : Response.t A) :
  keeps I (throw_if_error r) (fun _ => True).
Proof.
  unfold throw_if_error. destruct (Response.error r).
  - apply keeps_throw.
  - eapply keeps_weaken; [apply keeps_ret | trivial].
Qed.

Lemma keeps_broadcastNotification (t : NotificationType) (a b : string)
      (x : option string) :
  keeps I (broadcastNotification t a b x) (fun _ => True).
Proof.
  unfold broadcastNotification.
  eapply keeps_bind; [apply keeps_gets|]. intros ts _.
  eapply keeps_bind; [apply keeps_generateUniqueId|]. intros i _.
  apply keeps_localStorage_set. intros w. apply inv_broadcast.
Qed.

Lemma keeps_notify_update (order : Order.t) (currentUser : option User.t) :
  keeps I (notify_update order currentUser) (fun _ => True).
Proof.
  unfold notify_update.
  destruct currentUser as [u|];
    [|eapply keeps_weaken; [apply keeps_ret | trivial]].
  destruct (last_entry (Order.history order)) as [l|];
    [|eapply keeps_weaken; [apply keeps_ret | trivial]].
  destruct (String.eqb (HistoryEntry.user l) (User.name u));
    [apply keeps_broadcastNotification
    |eapply keeps_weaken; [apply keeps_ret | trivial]].
Qed.
End Invariant.

Ltac keeps_step leaf :=
  lazymatch goal with
  | |- EnvInvariant _ => typeclasses eauto
  | |- keeps _ (bind (gets _) _) _ =>
      let w := fresh "w" in
      let Hw := fresh "Hw" in
      eapply keeps_bind; [apply keeps_gets | intros ? (w & Hw & ->)]
  | |- keeps _ (bind (await _) _) _ =>
      let r := fresh "r" in
      let Hr := fresh "Hr" in
      eapply keeps_bind; [apply keeps_await; [.. | intros; leaf] | intros r Hr]
  | |- keeps _ (bind _ _) _ =>
      eapply (keeps_bind _ _ _ (fun _ => True)); [ | intros ? _]
  | |- keeps _ (ret _) _ => eapply keeps_weaken; [apply keeps_ret | trivial]
  | |- keeps _ throw _ => apply keeps_throw
  | |- keeps _ (gets _) _ => eapply keeps_weaken; [apply keeps_gets | trivial]
  | |- keeps _ (modify _) _ => apply keeps_modify; intros; leaf
  | |- keeps _ (await _) _ =>
      eapply keeps_weaken; [apply keeps_await; [.. | intros; leaf] | trivial]
  | |- keeps _ (localStorage_set _) _ => apply keeps_localStorage_set; [.. | intros; leaf]
  | |- keeps _ (mapM _ _) _ => apply keeps_mapM; [.. | intros]
  | |- keeps _ (generateUniqueId _) _ => apply keeps_generateUniqueId
  | |- keeps _ (id_or_generate _ _) _ => apply keeps_id_or_generate
  | |- keeps _ (throw_if_error _) _ => apply keeps_throw_if_error
  | |- keeps _ (broadcastNotification _ _ _ _) _ => apply keeps_broadcastNotification
  | |- keeps _ (notify_update _ _) _ => apply keeps_notify_update
  | |- keeps _ next_fault _ => apply keeps_next_fault
  | |- keeps _ (try_catch _ _) _ => apply keeps_try_catch
  | |- keeps _ (if ?c then _ else _) _ => destruct c
  | |- keeps _ (match ?x with _ => _ end) _ => destruct x eqn:?
  end.

(** ** The working flags under the other operations *)

#[local] Instance flags_consistent_EnvInvariant : EnvInvariant flags_consistent.
Proof. split; intros w x H; exact H. Qed.

Lemma Forall_filter {A : Type} (P : A -> Prop) (p : A -> bool) (l : list A) :
  Forall P l -> Forall P (filter p l).
Proof.
  intros H. apply Forall_forall. intros x Hx. apply filter_In in Hx as (Hx & _).
  rewrite Forall_forall in H. now apply H.
Qed.

Lemma updateOrder_payload_agree (order : Order.t) (nulls : Nulls.t)
      (rows : list OrderRow.t) :
  flags_agree order = true ->
  is_set (Order.currentlyWorkingBy order) = true
  \/ Nulls.currentlyWorkingBy nulls = false ->
  Forall (fun r => row_flags_agree r = true) rows ->
  Forall (fun r => row_flags_agree r = true)
    (map (fun r => if order_id_is (Order.id order) r
                   then updateOrder_payload order nulls r else r) rows).
Proof.
  intros Ho Hsent Hl. rewrite Forall_map.
  eapply Forall_impl; [|exact Hl]. intros r Hr. simpl.
  destruct (order_id_is (Order.id order) r); [|exact Hr].
  unfold row_flags_agree, flags_agree, updateOrder_payload in *; simpl.
  destruct (Order.currentlyWorkingBy order), (Order.workingStartTime order);
    simpl in *; try discriminate Ho; try reflexivity.
  destruct Hsent as [H | ->]; [discriminate H | exact Hr].
Qed.

Lemma select_orders_agree (prioritizeActive : bool) (d : DB.t) :
  Forall (fun r => row_flags_agree r = true) (DB.orders d) ->
  Forall (fun o => flags_agree o = true)
    (map mapOrderRow (select_orders prioritizeActive d)).
Proof.
  intros Hd. unfold select_orders. rewrite !Forall_map.
  assert (Hsorted : Forall (fun r => row_flags_agree r = true)
                      (stable_sort newest_first (DB.orders d))).
  { apply Forall_forall. intros r Hr. apply stable_sort_In in Hr.
    rewrite Forall_forall in Hd. now apply Hd. }
  assert (Hfirstn : forall n (l : list OrderRow.t),
             Forall (fun r => row_flags_agree r = true) l ->
             Forall (fun r => row_flags_agree r = true) (firstn n l)).
  { intros n l Hl. apply Forall_forall. intros r Hr.
    rewrite Forall_forall in Hl. apply Hl.
    rewrite <- (firstn_skipn n l). apply in_or_app. now left. }
  destruct prioritizeActive;
    [apply Hfirstn, Forall_filter, Hsorted | apply Hfirstn, Hsorted].
Qed.

Ltac flags_leaf :=
  unfold flags_consistent in *;
  repeat match goal with
         | H : _ /\ _ |- _ => destruct H
         | H : exists _, _ |- _ => destruct H
         | H : match Response.data ?r with _ => _ end |- _ =>
             destruct (Response.data r)
         | E : World.stored_orders ?w = _, H : context [World.stored_orders ?w] |- _ =>
             rewrite E in H
         end;
  subst;
  world_simpl; cbn [fst snd];
  repeat split;
  try assumption;
  try (unfold query_orders; cbn [fst]; rewrite ?Forall_app; repeat split;
       solve [ apply select_orders_agree; assumption
             | apply Forall_filter; assumption
             | constructor ]);
  try (apply Forall_cons; [reflexivity | assumption]);
  try (apply Forall_filter; assumption);
  try (apply replace_first_Forall; assumption);
  try (apply Forall_app; split; [assumption | repeat constructor]);
  try (apply updateOrder_payload_agree; assumption).

Lemma createOrder_flags (useLocalStorage : bool) (orderData : OrderData.t)
      (currentUser : User.t) :
  keeps flags_consistent (createOrder useLocalStorage orderData currentUser)
    (fun _ => True).
Proof.
  unfold createOrder, set_ordersCache, setItem_orders.
  repeat keeps_step flags_leaf.
Qed.

Lemma updateOrder_flags (useLocalStorage : bool) (order : Order.t) (nulls : Nulls.t)
      (currentUser : option User.t) :
  flags_agree order = true ->
  useLocalStorage = true
  \/ is_set (Order.currentlyWorkingBy order) = true
  \/ Nulls.currentlyWorkingBy nulls = false ->
  keeps flags_consistent (updateOrder useLocalStorage order nulls currentUser)
    (fun _ => True).
Proof.
  intros Horder Hsent.
  unfold updateOrder, set_ordersCache, setItem_orders.
  destruct useLocalStorage.
  - repeat keeps_step flags_leaf.
  - destruct Hsent as [Hsent | Hsent]; [discriminate Hsent|].
    repeat keeps_step flags_leaf.
Qed.

Lemma deleteOrder_flags (useLocalStorage : bool) (orderId : string) :
  keeps flags_consistent (deleteOrder useLocalStorage orderId) (fun _ => True).
Proof.
  unfold deleteOrder, set_ordersCache, setItem_orders.
  repeat keeps_step flags_leaf.
Qed.

Lemma fetchOrders_flags (useLocalStorage forceRefresh prioritizeActive : bool) :
  keeps flags_consistent (fetchOrders useLocalStorage forceRefresh prioritizeActive)
    (fun _ => True).
Proof.
  unfold fetchOrders, set_ordersCache.
  repeat keeps_step flags_leaf.
Qed.

(** The request of [updateOrder] is the one place where the record
    of the [null] fields is used. *)
Lemma updateOrder_same_payload (useLocalStorage : bool) (order : Order.t)
      (nulls nulls' : Nulls.t) (currentUser : option User.t) (w : World.t) :
  (forall r, In r (DB.orders (World.db w)) ->
             order_id_is (Order.id order) r = true ->
             updateOrder_payload order nulls r = updateOrder_payload order nulls' r) ->
  updateOrder useLocalStorage order nulls currentUser w
  = updateOrder useLocalStorage order nulls' currentUser w.
Proof.
  intros H.
  assert (E : map (fun r => if order_id_is (Order.id order) r
                            then updateOrder_payload order nulls r else r)
                (DB.orders (World.db w))
              = map (fun r => if order_id_is (Order.id order) r
                              then updateOrder_payload order nulls' r else r)
                  (DB.orders (World.db w))).
  { apply map_ext_in. intros r Hr.
    destruct (order_id_is (Order.id order) r) eqn:Eid; [|reflexivity].
    now apply H. }
  destruct w as [cache lft stored bn d now rand gen fl].
  cbn [World.db] in E.
  unfold updateOrder. destruct useLocalStorage; [reflexivity|].
  hook_eval. destruct fl as [|[|] fl]; hook_eval; rewrite ?E; reflexivity.
Qed.

Lemma payload_on_unstarted_row (order : Order.t) (nulls : Nulls.t) (r : OrderRow.t) :
  flags_agree order = true ->
  is_set (Order.currentlyWorkingBy order) = false ->
  row_flags_agree r = true ->
  OrderRow.working_start_time r = None ->
  updateOrder_payload order nulls r
  = updateOrder_payload order
      (Nulls.mk (Nulls.paymentMethod nulls) (Nulls.armedBy nulls)
         (Nulls.controlledBy nulls) (Nulls.awaitingPaymentVerification nulls)
         (Nulls.initialNotes nulls) false)
      r.
Proof.
  intros Ho Hby Hr Hstart. unfold updateOrder_payload. cbn [Nulls.paymentMethod
    Nulls.armedBy Nulls.controlledBy Nulls.awaitingPaymentVerification
    Nulls.initialNotes Nulls.currentlyWorkingBy].
  f_equal.
  unfold row_flags_agree in Hr. rewrite Hstart in Hr.
  destruct (OrderRow.currently_working_by r); [discriminate Hr|].
  destruct (Order.currentlyWorkingBy order); [discriminate Hby|].
  simpl. now destruct (Nulls.currentlyWorkingBy nulls).
Qed.




(* ================================================================= *)
(** * Further properties of the page and of the hook *)

(** ** The next action of an order *)

Lemma Role_eqb_eq (a b : Role) : Role_eqb a b = true <-> a = b.
Proof. destruct a, b; simpl; split; intros H; try reflexivity; discriminate H. Qed.

Lemma operator_action_on_armado (o : Order.t) (u : User.t) :
  User.role u = armador ->
  Order.status o = armado ->
  Order.armedBy o <> Some (User.name u) ->
  getNextActionForUser o u = Some Controlar_Armado.
Proof.
  intros Hr Hs Hn. unfold getNextActionForUser. rewrite Hr, Hs. simpl.
  destruct (option_string_eqb (Order.armedBy o) (Some (User.name u))) eqn:E.
  - apply option_string_eqb_eq in E. contradiction.
  - reflexivity.
Qed.

(** X1.  The workflow has no dead end: an order that is neither paid
    nor delivered and already paid has a next action for the
    coordinator or for one of any two operators whose names differ
    (the operator who armed an order is not offered its control). *)
Theorem open_order_has_next_action :
  forall (o : Order.t) (c a b : User.t),
    User.role c = vale ->
    User.role a = armador ->
    User.role b = armador ->
    User.name a <> User.name b ->
    Order.status o <> pagado ->
    delivered_and_paid o = false ->
    exists u, In u [c; a; b] /\ getNextActionForUser o u <> None.
Proof.
  intros o c a b Hc Ha Hb Hab Hp Hd.
  destruct (Order.status o) eqn:Hs.
  - exists a. split; [simpl; auto|].
    unfold getNextActionForUser. rewrite Ha, Hs. discriminate.
  - destruct (option_string_eqb (Order.armedBy o) (Some (User.name a))) eqn:E.
    + apply option_string_eqb_eq in E.
      exists b. split; [simpl; auto|].
      rewrite (operator_action_on_armado o b Hb Hs); [discriminate|].
      rewrite E. intros [= H]. now apply Hab.
    + exists a. split; [simpl; auto|].
      rewrite (operator_action_on_armado o a Ha Hs); [discriminate|].
      intros H. rewrite H in E. simpl in E. now rewrite String.eqb_refl in E.
  - exists c. split; [simpl; auto|].
    unfold getNextActionForUser. rewrite Hc, Hs. discriminate.
  - exists a. split; [simpl; auto|].
    unfold getNextActionForUser. rewrite Ha, Hs. discriminate.
  - exists a. split; [simpl; auto|].
    unfold getNextActionForUser. rewrite Ha, Hs. discriminate.
  - exists a. split; [simpl; auto|].
    unfold getNextActionForUser. rewrite Ha, Hs. discriminate.
  - exists a. split; [simpl; auto|].
    unfold delivered_and_paid in Hd. rewrite Hs in Hd. simpl in Hd.
    unfold getNextActionForUser. rewrite Ha, Hs, Hd. discriminate.
  - now contradiction Hp.
Qed.

Lemma open_order_has_next_action_witness :
  exists u, In u [riki; camilo; jesus] /\ getNextActionForUser acme_armado u <> None.
Proof.
  apply open_order_has_next_action;
    solve [reflexivity | discriminate].
Defined.

(** ** Search and status filter *)

Lemma prefix_refl (s : string) : String.prefix s s = true.
Proof.
  induction s as [|c s IH]; simpl; [reflexivity|].
  destruct (Ascii.ascii_dec c c) as [_|N]; [exact IH | now contradiction N].
Qed.

Lemma includes_refl (s : string) : includes s s = true.
Proof.
  destruct s as [|c s]; [reflexivity|].
  change (includes (String c s) (String c s))
    with (String.prefix (String c s) (String c s) || includes s (String c s)).
  now rewrite prefix_refl.
Qed.

Lemma filter_none {A : Type} (p : A -> bool) (l : list A) :
  (forall x, In x l -> p x = false) -> filter p l = [].
Proof.
  induction l as [|x l IH]; simpl; intros H; [reflexivity|].
  rewrite (H x (or_introl eq_refl)). apply IH. intros y Hy. apply H. now right.
Qed.

Lemma getFiltered_In (toLowerCase : string -> string) (searchTerm : string)
      (statusFilter : option OrderStatus) (l : list Order.t) (o : Order.t) :
  In o (getFiltered toLowerCase searchTerm statusFilter l) ->
  In o l /\ (forall s, statusFilter = Some s -> Order.status o = s).
Proof.
  unfold getFiltered. destruct statusFilter as [s|]; intros H.
  - apply filter_In in H as (H & Hs). apply filter_In in H as (H & _).
    split; [exact H|]. intros s' [= <-]. now apply OrderStatus_eqb_eq.
  - apply filter_In in H as (H & _). split; [exact H | discriminate].
Qed.

(** X2.  The status filter is applied to the three tabs, not only to
    the active one: a filter on a status other than "pagado" empties
    the list of completed orders, a filter on a status other than
    "entregado" empties the list of orders pending payment, and a
    filter on "pagado" or "entregado" empties the list of active
    orders, whatever the search term. *)
Theorem status_filter_empties_other_tabs :
  forall (toLowerCase : string -> string) (searchTerm : string) (s : OrderStatus)
         (orders : list Order.t),
    (s <> pagado ->
     getFiltered toLowerCase searchTerm (Some s) (completedOrders orders) = [])
    /\ (s <> entregado ->
        getFiltered toLowerCase searchTerm (Some s) (pendingPaymentOrders orders) = [])
    /\ (s = pagado \/ s = entregado ->
        getFiltered toLowerCase searchTerm (Some s) (activeOrders orders) = []).
Proof.
  intros lc t s l.
  assert (E : forall p : Order.t -> bool,
             (forall o, p o = true -> Order.status o <> s) ->
             getFiltered lc t (Some s) (filter p l) = []).
  { intros p Hp. destruct (getFiltered lc t (Some s) (filter p l)) as [|o rest] eqn:G;
      [reflexivity|].
    assert (Hin : In o (getFiltered lc t (Some s) (filter p l)))
      by (rewrite G; now left).
    apply getFiltered_In in Hin as (Hin & Hs).
    apply filter_In in Hin as (_ & Hpo).
    exfalso. exact (Hp o Hpo (Hs s eq_refl)). }
  repeat split; intros Hs; apply E; intros o Ho Eo.
  - unfold is_completed in Ho. apply OrderStatus_eqb_eq in Ho. congruence.
  - unfold is_pendingPayment in Ho. apply andb_prop in Ho as (Ho & _).
    apply OrderStatus_eqb_eq in Ho. congruence.
  - unfold is_active in Ho. apply andb_prop in Ho as (H1 & H2).
    rewrite Eo in H1, H2.
    destruct Hs as [-> | ->]; [discriminate H1 | discriminate H2].
Qed.

Lemma status_filter_empties_other_tabs_witness :
  getFiltered (fun s => s) "" (Some en_armado)
    (completedOrders [acme; acme_paid; bodega_paid]) = [].
Proof.
  apply (status_filter_empties_other_tabs (fun s => s) "" en_armado
           [acme; acme_paid; bodega_paid]).
  discriminate.
Defined.

(** X3.  Searching for the whole id of an order of the list, or for its
    whole client name, finds it, whatever the lower-casing does, as
    long as the status filter is off or set to the status of the
    order. *)
Theorem search_finds_by_whole_id_or_name :
  forall (toLowerCase : string -> string) (statusFilter : option OrderStatus)
         (orders : list Order.t) (o : Order.t),
    In o orders ->
    statusFilter = None \/ statusFilter = Some (Order.status o) ->
    In o (getFiltered toLowerCase (Order.id o) statusFilter orders)
    /\ In o (getFiltered toLowerCase (Order.clientName o) statusFilter orders).
Proof.
  intros lc sf l o Hin Hsf.
  assert (H : forall t, (t = Order.id o \/ t = Order.clientName o) ->
                        In o (getFiltered lc t sf l)).
  { intros t Ht. unfold getFiltered.
    assert (Hs : In o (filter (fun o0 => includes (lc (Order.clientName o0)) (lc t)
                                         || includes (lc (Order.id o0)) (lc t)) l)).
    { apply filter_In. split; [exact Hin|].
      destruct Ht as [-> | ->]; rewrite includes_refl;
        [apply orb_true_r | reflexivity]. }
    destruct Hsf as [-> | ->]; [exact Hs|].
    apply filter_In. split; [exact Hs | apply OrderStatus_eqb_refl]. }
  split; apply H; auto.
Qed.

Lemma search_finds_by_whole_id_or_name_witness :
  In bodega (getFiltered (fun s => s) (Order.id bodega) (Some (Order.status bodega))
               [acme; bodega])
  /\ In bodega (getFiltered (fun s => s) (Order.clientName bodega)
                  (Some (Order.status bodega)) [acme; bodega]).
Proof.
  apply search_finds_by_whole_id_or_name.
  - simpl. auto.
  - right. reflexivity.
Defined.

(** ** Notifications derived from an unchanged snapshot *)

Lemma flat_map_none {A B : Type} (f : A -> list B) (l : list A) :
  (forall x, In x l -> f x = []) -> flat_map f l = [].
Proof.
  induction l as [|x l IH]; simpl; intros H; [reflexivity|].
  rewrite (H x (or_introl eq_refl)). apply IH. intros y Hy. apply H. now right.
Qed.

Lemma find_has_id_NoDup (l : list Order.t) (o : Order.t) :
  NoDup (map Order.id l) -> In o l -> find (has_id (Order.id o)) l = Some o.
Proof.
  induction l as [|x l IH]; simpl; intros Hnd Hin; [contradiction|].
  inversion Hnd as [|? ? Hx Hl]; subst.
  destruct Hin as [-> | Hin].
  - now rewrite has_id_refl.
  - unfold has_id at 1. destruct (String.eqb (Order.id x) (Order.id o)) eqn:E.
    + apply String.eqb_eq in E. exfalso. apply Hx. rewrite E. now apply in_map.
    + now apply IH.
Qed.

Lemma change_events_same (u : option User.t) (l : list Order.t) (o : Order.t) :
  find (has_id (Order.id o)) l = Some o -> change_events u l o = [].
Proof.
  intros E. unfold change_events. rewrite E.
  rewrite OrderStatus_eqb_refl. simpl.
  destruct (Order.currentlyWorkingBy o) as [who|]; [|reflexivity].
  simpl. destruct (truthy_string who); reflexivity.
Qed.

(** X4.  Running the notification effect again on the list it has
    just recorded raises no event (the effect also runs when only the
    current user changes), provided no id is repeated in the list. *)
Theorem unchanged_orders_raise_no_event :
  forall (currentUser : option User.t) (orders : list Order.t),
    NoDup (map Order.id orders) ->
    notification_effect currentUser orders orders = ([], orders).
Proof.
  intros u l Hnd. unfold notification_effect. f_equal.
  destruct ((0 <? List.length l)%nat && (0 <? List.length l)%nat); [|reflexivity].
  assert (Hn : new_order_events u l l = []).
  { unfold new_order_events, newOrders. rewrite filter_none; [reflexivity|].
    intros o Ho. apply negb_false_iff. apply existsb_exists.
    exists o. split; [exact Ho | apply has_id_refl]. }
  rewrite Hn. simpl. apply flat_map_none. intros o Ho.
  apply change_events_same. now apply find_has_id_NoDup.
Qed.

Lemma unchanged_orders_raise_no_event_witness :
  notification_effect (Some riki) [acme_armado; bodega] [acme_armado; bodega]
  = ([], [acme_armado; bodega]).
Proof.
  apply unchanged_orders_raise_no_event.
  repeat constructor; simpl; intuition discriminate.
Defined.

(** ** The session user *)

Lemma map_user_fields (l : list User.t) :
  map (fun u => User.mk (User.id u) (User.name u) (User.role u)) l = l.
Proof.
  induction l as [|[i n r] l IH]; simpl; [reflexivity|]. now rewrite IH.
Qed.

Lemma firstn_incl {A : Type} (n : nat) (l : list A) : incl (firstn n l) l.
Proof.
  intros x Hx. rewrite <- (firstn_skipn n l). apply in_or_app. now left.
Qed.

Lemma find_first {A : Type} (p : A -> bool) (l : list A) (x : A) :
  find p l = Some x ->
  exists pre post, l = pre ++ x :: post /\ p x = true
                   /\ Forall (fun y => p y = false) pre.
Proof.
  induction l as [|y l IH]; simpl; [discriminate|].
  destruct (p y) eqn:E.
  - intros [= ->]. exists [], l. repeat split; [exact E | constructor].
  - intros H. destruct (IH H) as (pre & post & -> & Hx & Hpre).
    exists (y :: pre), post. repeat split; [exact Hx | now constructor].
Qed.

(** X5.  The choice of the session user on load.  The saved user is
    kept, as it was saved, exactly when the list of users has its id.
    Otherwise the first user of the list called "Vale" is chosen, and
    when no user is called "Vale" the first user of the list; so a user
    is chosen whenever the list is not empty, and the id of the chosen
    user is always the id of a user of the list. *)
Theorem chosen_user_is_listed :
  forall (saved : option User.t) (usersData : list User.t),
    (usersData <> [] -> choose_user saved usersData <> None)
    /\ (forall u, choose_user saved usersData = Some u ->
                  In (User.id u) (map User.id usersData))
    /\ (forall s, saved = Some s ->
                  In (User.id s) (map User.id usersData) ->
                  choose_user saved usersData = Some s)
    /\ ((forall s, saved = Some s -> ~ In (User.id s) (map User.id usersData)) ->
        (forall u, choose_user saved usersData = Some u ->
                   User.name u = "Vale"%string
                   /\ (exists pre post,
                          usersData = pre ++ u :: post
                          /\ Forall (fun v => User.name v <> "Vale"%string) pre)
                   \/ Forall (fun v => User.name v <> "Vale"%string) usersData
                      /\ hd_error usersData = Some u)
        /\ (choose_user saved usersData = None -> usersData = [])).
Proof.
  intros saved l.
  set (def := match find (fun u => String.eqb (User.name u) "Vale") l with
              | Some u => Some u
              | None => hd_error l
              end).
  assert (Hdef : forall u, def = Some u -> In (User.id u) (map User.id l)).
  { intros u. unfold def. destruct (find _ l) as [v|] eqn:F.
    - intros [= <-]. apply find_some in F as (F & _). now apply in_map.
    - destruct l as [|x l']; simpl; [discriminate|].
      intros [= <-]. now left. }
  assert (Hne : l <> [] -> def <> None).
  { intros Hl. unfold def. destruct (find _ l); [discriminate|].
    destruct l; [now contradiction Hl | discriminate]. }
  assert (Hwho : forall u, def = Some u ->
                   User.name u = "Vale"%string
                   /\ (exists pre post,
                          l = pre ++ u :: post
                          /\ Forall (fun v => User.name v <> "Vale"%string) pre)
                   \/ Forall (fun v => User.name v <> "Vale"%string) l
                      /\ hd_error l = Some u).
  { intros u. unfold def. destruct (find _ l) as [v|] eqn:F.
    - intros [= <-]. left.
      destruct (find_first _ _ _ F) as (pre & post & E & Hv & Hpre).
      apply String.eqb_eq in Hv. split; [exact Hv|].
      exists pre, post. split; [exact E|].
      eapply Forall_impl; [|exact Hpre]. intros y Hy Ey.
      simpl in Hy. rewrite Ey in Hy. discriminate Hy.
    - intros E. right. split; [|exact E].
      apply Forall_forall. intros y Hy Ey.
      apply (find_none _ _ F) in Hy. simpl in Hy. rewrite Ey in Hy. discriminate Hy. }
  assert (Hlisted : forall s, existsb (fun u => String.eqb (User.id u) (User.id s)) l = true
                              <-> In (User.id s) (map User.id l)).
  { intros s. split.
    - intros E. apply existsb_exists in E as (v & Hv & Ev).
      apply String.eqb_eq in Ev. rewrite <- Ev. now apply in_map.
    - intros Hin. apply in_map_iff in Hin as (v & Ev & Hv).
      apply existsb_exists. exists v. split; [exact Hv|]. now apply String.eqb_eq. }
  unfold choose_user. fold def. split; [|split; [|split]].
  - intros Hl. destruct saved as [s|]; [|now apply Hne].
    destruct (existsb _ l); [discriminate | now apply Hne].
  - intros u. destruct saved as [s|]; [|apply Hdef].
    destruct (existsb _ l) eqn:E; [|apply Hdef].
    intros [= <-]. now apply Hlisted.
  - intros s -> Hin. apply Hlisted in Hin. now rewrite Hin.
  - intros Hout.
    assert (E : match saved with
                | Some s =>
                    if existsb (fun u => String.eqb (User.id u) (User.id s)) l
                    then Some s else def
                | None => def
                end = def).
    { destruct saved as [s|]; [|reflexivity].
      destruct (existsb _ l) eqn:E; [|reflexivity].
      apply Hlisted in E. now contradiction (Hout s eq_refl). }
    rewrite E. split; [exact Hwho|].
    intros Hnone. destruct l as [|x l']; [reflexivity|].
    exfalso. apply Hne; [discriminate | exact Hnone].
Qed.

Lemma chosen_user_is_listed_witness :
  choose_user (Some (User.mk "old-7" "Vale" vale)) DEFAULT_USERS
  = Some (User.mk "riki-1" "Riki" vale).
Proof.
  destruct (chosen_user_is_listed (Some (User.mk "old-7" "Vale" vale)) DEFAULT_USERS)
    as (Hsome & _ & _ & Hout).
  destruct Hout as (Hwho & _).
  - intros s [= <-]. simpl. intuition discriminate.
  - destruct (choose_user (Some (User.mk "old-7" "Vale" vale)) DEFAULT_USERS)
      as [u|] eqn:E; [|now contradiction (Hsome ltac:(discriminate))].
    destruct (Hwho u eq_refl) as [(Hname & pre & post & Hl & Hpre) | (_ & Hhd)].
    + exfalso.
      assert (Hin : In u DEFAULT_USERS) by (rewrite Hl; apply in_elt).
      simpl in Hin.
      destruct Hin as [<-|[<-|[<-|[<-|[<-|[]]]]]]; discriminate Hname.
    + simpl in Hhd. injection Hhd as <-. reflexivity.
Defined.

(** X6.  [fetchUsers] always answers: with the five built-in users in
    local mode and when the request fails, else with at most ten users
    of the table of users; it changes nothing of the state. *)
Theorem fetchUsers_falls_back_to_built_in_users :
  forall (useLocalStorage : bool) (name_le : string -> string -> bool)
         (users : list User.t) (w : World.t),
  exists l w',
    fetchUsers useLocalStorage name_le users w = (Return l, w')
    /\ same_but_faults w w'
    /\ (if useLocalStorage || fails_within 1 w
        then l = DEFAULT_USERS
        else l = select_users name_le users
             /\ (List.length l <= 10)%nat
             /\ incl l users).
Proof.
  intros local le users w. unfold fetchUsers, fails_within, same_but_faults.
  destruct w as [cache lft stored bn d now rand gen fl].
  destruct local; [eexists _, _; repeat split|].
  destruct fl as [|[|] fl]; hook_eval; rewrite ?map_user_fields;
    eexists _, _; (split; [reflexivity|]); (split; [reflexivity|]); simpl;
    try reflexivity;
    (split; [reflexivity|]);
    (split; [unfold select_users; apply firstn_le_length|]);
    intros u Hu; apply firstn_incl in Hu;
    now apply stable_sort_In in Hu.
Qed.

(** ** No failure escapes the hook *)

Lemma returns_ret {A : Type} (a : A) : returns (ret a).
Proof. intros w. now eexists _, _. Qed.

Lemma returns_gets {A : Type} (f : World.t -> A) : returns (gets f).
Proof. intros w. now eexists _, _. Qed.

Lemma returns_modify (f : World.t -> World.t) : returns (modify f).
Proof. intros w. now eexists _, _. Qed.

Lemma returns_bind {A B : Type} (m : M A) (k : A -> M B) :
  returns m -> (forall a, returns (k a)) -> returns (bind m k).
Proof.
  intros Hm Hk w. destruct (Hm w) as (a & w1 & E).
  destruct (Hk a w1) as (b & w2 & E2).
  exists b, w2. unfold bind. now rewrite E.
Qed.

Lemma returns_try_catch {A : Type} (m h : M A) : returns h -> returns (try_catch m h).
Proof. intros Hh. exact (try_catch_returns m h Hh). Qed.

Lemma returns_generateUniqueId (prefix : string) : returns (generateUniqueId prefix).
Proof. intros w. now eexists _, _. Qed.

Lemma returns_id_or_generate (x prefix : string) : returns (id_or_generate x prefix).
Proof.
  unfold id_or_generate. destruct (truthy_string x);
    [apply returns_ret | apply returns_generateUniqueId].
Qed.

Lemma returns_mapM {A B : Type} (f : A -> M B) (l : list A) :
  (forall x, returns (f x)) -> returns (mapM f l).
Proof.
  intros Hf. induction l as [|x l IH]; simpl; [apply returns_ret|].
  apply returns_bind; [apply Hf|]. intros y.
  apply returns_bind; [exact IH|]. intros ys. apply returns_ret.
Qed.

Ltac returns_step :=
  lazymatch goal with
  | |- returns (bind _ _) => apply returns_bind; [|intros ?]
  | |- returns (try_catch _ _) => apply returns_try_catch
  | |- returns (ret _) => apply returns_ret
  | |- returns (gets _) => apply returns_gets
  | |- returns (modify _) => apply returns_modify
  | |- returns (set_ordersCache _) => apply returns_modify
  | |- returns (generateUniqueId _) => apply returns_generateUniqueId
  | |- returns (id_or_generate _ _) => apply returns_id_or_generate
  | |- returns (mapM _ _) => apply returns_mapM; intros ?
  | |- returns (if ?c then _ else _) => destruct c
  end.

(** X7.  No failure of a persistence call escapes an operation of the
    hook: each of them returns a value in every state and in both
    modes, whereas [broadcastNotification], which they call, throws
    when its write fails. *)
Theorem hook_operations_never_throw :
  forall useLocalStorage : bool,
    (forall forceRefresh prioritizeActive,
        returns (fetchOrders useLocalStorage forceRefresh prioritizeActive))
    /\ returns (fetchCompletedOrders useLocalStorage)
    /\ (forall orderData currentUser,
           returns (createOrder useLocalStorage orderData currentUser))
    /\ (forall order nulls currentUser, returns (updateOrder useLocalStorage order nulls currentUser))
    /\ (forall orderId, returns (deleteOrder useLocalStorage orderId))
    /\ (forall orderId userName userRole,
           returns (setWorkingOnOrder useLocalStorage orderId userName userRole))
    /\ (forall orderId userName userRole,
           returns (clearWorkingOnOrder useLocalStorage orderId userName userRole))
    /\ (forall name_le users, returns (fetchUsers useLocalStorage name_le users))
    /\ (forall type title message excludeUser,
           ~ returns (broadcastNotification type title message excludeUser)).
Proof.
  intros local. repeat split; intros.
  - unfold fetchOrders. repeat returns_step.
  - unfold fetchCompletedOrders. repeat returns_step.
  - unfold createOrder. repeat returns_step.
  - unfold updateOrder. repeat returns_step.
  - unfold deleteOrder. repeat returns_step.
  - unfold setWorkingOnOrder. repeat returns_step.
  - unfold clearWorkingOnOrder. repeat returns_step.
  - unfold fetchUsers. repeat returns_step.
  - intros H.
    destruct (H (World.mk [] 0 None None DB.empty 0 (fun _ => ""%string) 0 [true]))
      as (a & w' & E).
    discriminate E.
Qed.

(** ** Fetching: what a request that is really made does *)

Lemma fetchOrders_remote_fetch (w : World.t) (forceRefresh prioritizeActive : bool) :
  served_from_cache forceRefresh w = false ->
  fetchOrders false forceRefresh prioritizeActive w
  = match World.faults w with
    | true :: fl => (Return (World.ordersCache w), World.with_faults w fl)
    | fl =>
        let l := if prioritizeActive then fresh_active w ++ cached_paid w
                 else fresh_all w in
        (Return l,
         World.with_lastFetchTime
           (World.with_ordersCache (World.with_faults w (tl fl)) l) (World.now w))
    end.
Proof.
  destruct w as [cache lft stored bn d now rand gen fl].
  unfold fetchOrders, served_from_cache, fresh_active, fresh_all, cached_paid.
  hook_eval. intros ->.
  destruct fl as [|[|] fl]; destruct prioritizeActive; reflexivity.
Qed.

Lemma fetchCompletedOrders_remote_fetch (w : World.t) :
  fetchCompletedOrders false w
  = match World.faults w with
    | true :: fl => (Return [], World.with_faults w fl)
    | fl =>
        (Return (fresh_completed w),
         World.with_lastFetchTime
           (World.with_ordersCache (World.with_faults w (tl fl))
              (cached_unpaid w ++ fresh_completed w))
           (World.now w))
    end.
Proof.
  destruct w as [cache lft stored bn d now rand gen fl].
  unfold fetchCompletedOrders, fresh_completed, cached_unpaid, query_completed.
  hook_eval.
  destruct fl as [|[|] fl]; reflexivity.
Qed.

Lemma fresh_completed_paid (w : World.t) :
  Forall (fun o => Order.status o = pagado) (fresh_completed w).
Proof.
  unfold fresh_completed, select_completed.
  rewrite !Forall_map. apply Forall_forall. intros r Hr.
  apply firstn_incl in Hr. apply filter_In in Hr as (_ & Hs).
  simpl. now apply OrderStatus_eqb_eq.
Qed.

Lemma filter_paid_all (l : list Order.t) :
  Forall (fun o => Order.status o = pagado) l ->
  filter (fun o => OrderStatus_eqb (Order.status o) pagado) l = l
  /\ filter (fun o => negb (OrderStatus_eqb (Order.status o) pagado)) l = [].
Proof.
  induction 1 as [|o l Ho Hl [IH1 IH2]]; simpl; [now split|].
  rewrite Ho. simpl. now rewrite IH1, IH2.
Qed.

Lemma filter_unpaid_of_unpaid (l : list Order.t) :
  filter (fun o => OrderStatus_eqb (Order.status o) pagado)
    (filter (fun o => negb (OrderStatus_eqb (Order.status o) pagado)) l) = [].
Proof.
  apply filter_none. intros o Ho. apply filter_In in Ho as (_ & Ho).
  now apply negb_true_iff.
Qed.

(** X8.  In remote mode a successful [fetchCompletedOrders] returns
    the paid orders of the store (the 120 newest at most) and rebuilds
    the cache from the cached orders that are not paid, in their order,
    followed by the fetched ones: the paid orders the cache held are
    dropped, the others are kept as they are, and the store is not
    changed. *)
Theorem fetchCompletedOrders_replaces_cached_paid :
  forall w : World.t,
    fails_within 1 w = false ->
    exists w',
      fetchCompletedOrders false w = (Return (fresh_completed w), w')
      /\ World.ordersCache w' = cached_unpaid w ++ fresh_completed w
      /\ cached_paid w' = fresh_completed w
      /\ cached_unpaid w' = cached_unpaid w
      /\ (List.length (fresh_completed w) <= 120)%nat
      /\ World.lastFetchTime w' = World.now w
      /\ World.db w' = World.db w.
Proof.
  intros w Hf. rewrite fetchCompletedOrders_remote_fetch.
  assert (Hc : cached_paid
                 (World.with_lastFetchTime
                    (World.with_ordersCache (World.with_faults w (tl (World.faults w)))
                       (cached_unpaid w ++ fresh_completed w)) (World.now w))
               = fresh_completed w).
  { unfold cached_paid. simpl. rewrite filter_app.
    unfold cached_unpaid at 1. rewrite filter_unpaid_of_unpaid. simpl.
    apply filter_paid_all, fresh_completed_paid. }
  assert (Hu : cached_unpaid
                 (World.with_lastFetchTime
                    (World.with_ordersCache (World.with_faults w (tl (World.faults w)))
                       (cached_unpaid w ++ fresh_completed w)) (World.now w))
               = cached_unpaid w).
  { unfold cached_unpaid at 1. simpl. rewrite filter_app.
    unfold cached_unpaid. rewrite filter_idem.
    destruct (filter_paid_all _ (fresh_completed_paid w)) as (_ & ->).
    apply app_nil_r. }
  assert (Hl : (List.length (fresh_completed w) <= 120)%nat).
  { unfold fresh_completed, select_completed. rewrite !length_map.
    apply firstn_le_length. }
  unfold fails_within in Hf.
  destruct (World.faults w) as [|[|] fl] eqn:Efl; [| discriminate Hf |];
    eexists; (split; [reflexivity|]); repeat split; assumption.
Qed.

Lemma fetchCompletedOrders_replaces_cached_paid_witness :
  exists w',
    fetchCompletedOrders false stale_paid_world
    = (Return (fresh_completed stale_paid_world), w')
    /\ World.ordersCache w'
       = cached_unpaid stale_paid_world ++ fresh_completed stale_paid_world.
Proof.
  destruct (fetchCompletedOrders_replaces_cached_paid stale_paid_world eq_refl)
    as (w' & E & Hc & _).
  exists w'. split; assumption.
Defined.

(** X9.  [fetchCompletedOrders] under failure and in local mode: when
    the request fails it returns no order and leaves the cache, its
    date and the store as they are; in local mode it returns the paid
    orders of the cache and reads nothing else, not even the stored
    list. *)
Theorem fetchCompletedOrders_failure_and_local :
  forall w : World.t,
    (fails_within 1 w = true ->
     exists w', fetchCompletedOrders false w = (Return [], w')
                /\ same_but_faults w w')
    /\ fetchCompletedOrders true w = (Return (cached_paid w), w).
Proof.
  intros w. split; [|reflexivity].
  intros Hf. rewrite fetchCompletedOrders_remote_fetch.
  unfold fails_within in Hf. unfold same_but_faults.
  destruct w as [cache lft stored bn d now rand gen fl]. simpl in *.
  destruct fl as [|[|] fl]; [discriminate Hf | | discriminate Hf].
  eexists. split; reflexivity.
Qed.

Lemma fetchCompletedOrders_failure_and_local_witness :
  exists w', fetchCompletedOrders false acme_world_offline = (Return [], w')
             /\ same_but_faults acme_world_offline w'.
Proof.
  apply (fetchCompletedOrders_failure_and_local acme_world_offline).
  reflexivity.
Defined.

(** ** Active orders first, completed orders next *)

Lemma NoDup_map_eq {A B : Type} (f : A -> B) (l : list A) (a b : A) :
  NoDup (map f l) -> In a l -> In b l -> f a = f b -> a = b.
Proof.
  induction l as [|x l IH]; simpl; intros Hnd Ha Hb E; [contradiction|].
  inversion Hnd as [|? ? Hx Hl]; subst.
  destruct Ha as [-> | Ha], Hb as [-> | Hb]; try reflexivity.
  - exfalso. apply Hx. rewrite E. now apply in_map.
  - exfalso. apply Hx. rewrite <- E. now apply in_map.
  - now apply IH.
Qed.

Lemma filter_partition_perm {A : Type} (p : A -> bool) (l : list A) :
  Permutation (filter (fun x => negb (p x)) l ++ filter p l) l.
Proof.
  induction l as [|x l IH]; simpl; [constructor|].
  destruct (p x); simpl.
  - symmetry. apply Permutation_cons_app. now symmetry.
  - now constructor.
Qed.

Lemma filter_length_le {A : Type} (p : A -> bool) (l : list A) :
  (List.length (filter p l) <= List.length l)%nat.
Proof.
  induction l as [|x l IH]; simpl; [lia|]. destruct (p x); simpl; lia.
Qed.

Lemma sorted_ids_NoDup (d : DB.t) :
  NoDup (map OrderRow.id (DB.orders d)) ->
  NoDup (map OrderRow.id (stable_sort newest_first (DB.orders d))).
Proof.
  intros H. eapply Permutation_NoDup; [|exact H].
  apply Permutation_map. symmetry. apply stable_sort_perm.
Qed.

Lemma fresh_completed_ids_NoDup (w : World.t) :
  NoDup (map OrderRow.id (DB.orders (World.db w))) ->
  NoDup (map Order.id (fresh_completed w)).
Proof.
  intros H. unfold fresh_completed, select_completed.
  rewrite map_id_mapOrderRow, <- firstn_map.
  now apply NoDup_firstn, NoDup_map_filter, sorted_ids_NoDup.
Qed.

Lemma fresh_ids_disjoint (w : World.t) (i : string) :
  NoDup (map OrderRow.id (DB.orders (World.db w))) ->
  In i (map Order.id (fresh_active w)) ->
  ~ In i (map Order.id (fresh_completed w)).
Proof.
  intros Hnd. unfold fresh_active, fresh_completed, select_orders, select_completed.
  rewrite !map_id_mapOrderRow. intros Ha Hc.
  apply in_map_iff in Ha as (a & Ea & Ha). apply in_map_iff in Hc as (c & Ec & Hc).
  apply firstn_incl in Ha. apply firstn_incl in Hc.
  apply filter_In in Ha as (Ha & Sa). apply filter_In in Hc as (Hc & Sc).
  assert (E : a = c).
  { apply (NoDup_map_eq OrderRow.id _ a c (sorted_ids_NoDup _ Hnd) Ha Hc).
    congruence. }
  subst c. rewrite Sc in Sa. discriminate Sa.
Qed.

Lemma filter_unpaid_all (l : list Order.t) :
  Forall (fun o => Order.status o <> pagado) l ->
  filter (fun o => negb (OrderStatus_eqb (Order.status o) pagado)) l = l.
Proof.
  induction 1 as [|o l Ho Hl IH]; simpl; [reflexivity|].
  destruct (OrderStatus_eqb (Order.status o) pagado) eqn:E; simpl.
  - apply OrderStatus_eqb_eq in E. contradiction.
  - now rewrite IH.
Qed.

(** X10.  In remote mode a prioritized fetch that is really made,
    followed by [fetchCompletedOrders], both successful, rebuild the
    cache from the store alone, whatever it held: the active orders
    fetched followed by the paid orders fetched.  No id is repeated in
    it when none is in the table of orders, and when the table has at
    most 60 rows the cache holds every order of the store once. *)
Theorem active_then_completed_fetch_rebuilds_cache :
  forall (w : World.t) (forceRefresh : bool),
    served_from_cache forceRefresh w = false ->
    fails_within 2 w = false ->
    exists active w1 completed w2,
      fetchOrders false forceRefresh true w = (Return active, w1)
      /\ fetchCompletedOrders false w1 = (Return completed, w2)
      /\ World.ordersCache w2 = fresh_active w ++ fresh_completed w
      /\ (NoDup (map OrderRow.id (DB.orders (World.db w))) ->
          NoDup (map Order.id (World.ordersCache w2)))
      /\ ((List.length (DB.orders (World.db w)) <= 60)%nat ->
          Permutation (map Order.id (World.ordersCache w2))
            (map OrderRow.id (DB.orders (World.db w)))).
Proof.
  intros w force Hs Hf.
  rewrite (fetchOrders_remote_fetch w force true Hs).
  set (w1 := World.with_lastFetchTime
               (World.with_ordersCache (World.with_faults w (tl (World.faults w)))
                  (fresh_active w ++ cached_paid w)) (World.now w)).
  assert (Hu : cached_unpaid w1 = fresh_active w).
  { unfold cached_unpaid, w1. simpl. rewrite filter_app.
    rewrite (filter_unpaid_all _ (fresh_active_not_paid w)).
    unfold cached_paid. rewrite filter_none; [apply app_nil_r|].
    intros o Ho. apply filter_In in Ho as (_ & Ho). now rewrite Ho. }
  assert (Hc : fresh_completed w1 = fresh_completed w) by reflexivity.
  assert (E2 : World.faults w1 = tl (World.faults w)) by reflexivity.
  assert (Hrun : exists w2,
             fetchCompletedOrders false w1 = (Return (fresh_completed w), w2)
             /\ World.ordersCache w2 = fresh_active w ++ fresh_completed w).
  { rewrite fetchCompletedOrders_remote_fetch, E2, Hu, Hc.
    unfold fails_within in Hf.
    destruct (World.faults w) as [|[|] [|[|] fl]]; try discriminate Hf;
      eexists; split; reflexivity. }
  destruct Hrun as (w2 & Erun & Ecache).
  exists (fresh_active w ++ cached_paid w), w1, (fresh_completed w), w2.
  split.
  { unfold fails_within in Hf. unfold w1.
    destruct (World.faults w) as [|[|] fl]; [reflexivity | discriminate Hf | reflexivity]. }
  split; [exact Erun|]. split; [exact Ecache|]. rewrite Ecache. split.
  - intros Hnd. rewrite map_app. apply NoDup_app.
    + now apply fresh_active_ids_NoDup.
    + now apply fresh_completed_ids_NoDup.
    + intros i. now apply fresh_ids_disjoint.
  - intros Hlen. rewrite map_app.
    unfold fresh_active, fresh_completed, select_orders, select_completed.
    rewrite !map_id_mapOrderRow.
    assert (Hsl : (List.length (stable_sort newest_first (DB.orders (World.db w))) <= 60)%nat)
      by (rewrite stable_sort_length; exact Hlen).
    rewrite !firstn_all2.
    + rewrite <- map_app.
      transitivity (map OrderRow.id (stable_sort newest_first (DB.orders (World.db w)))).
      * apply Permutation_map. apply filter_partition_perm.
      * apply Permutation_map. apply stable_sort_perm.
    + etransitivity; [apply filter_length_le|]. lia.
    + etransitivity; [apply filter_length_le|]. lia.
Qed.

Lemma active_then_completed_fetch_rebuilds_cache_witness :
  exists active w1 completed w2,
    fetchOrders false true true stale_paid_world = (Return active, w1)
    /\ fetchCompletedOrders false w1 = (Return completed, w2)
    /\ World.ordersCache w2
       = fresh_active stale_paid_world ++ fresh_completed stale_paid_world.
Proof.
  destruct (active_then_completed_fetch_rebuilds_cache stale_paid_world true
              eq_refl eq_refl)
    as (active & w1 & completed & w2 & E1 & E2 & Ec & _).
  exists active, w1, completed, w2. repeat split; assumption.
Defined.

(** ** Realtime changes and the initial load *)

Lemma fetchOrders_served (useLocalStorage prioritizeActive : bool) (w : World.t) :
  served_from_cache false w = true ->
  fetchOrders useLocalStorage false prioritizeActive w
  = (Return (World.ordersCache w), w).
Proof.
  destruct w as [cache lft stored bn d now rand gen fl].
  unfold fetchOrders, served_from_cache. hook_eval. intros ->. reflexivity.
Qed.

Lemma completed_of_fresh_active (w : World.t) : completedOrders (fresh_active w) = [].
Proof. apply filter_paid_none, fresh_active_not_paid. Qed.

(** X11.  On a change of one of the five tables the cache is emptied
    and the active orders are fetched again: the list then displayed
    and cached holds the active orders of the store and no paid order,
    and when the request fails it is empty. *)
Theorem realtime_refresh_shows_no_paid_order :
  forall w : World.t,
  exists fresh w',
    realtime_refresh w = (Return fresh, w')
    /\ fresh = (if fails_within 1 w then [] else fresh_active w)
    /\ World.ordersCache w' = fresh
    /\ completedOrders fresh = []
    /\ World.db w' = World.db w.
Proof.
  intros w. unfold realtime_refresh, on_postgres_change.
  erewrite bind_eq by reflexivity.
  rewrite fetchOrders_remote_fetch by reflexivity.
  unfold fails_within.
  destruct w as [cache lft stored bn d now rand gen fl].
  destruct fl as [|[|] fl]; simpl;
    eexists _, _; (split; [reflexivity|]);
    rewrite ?app_nil_r; repeat split; try reflexivity;
    apply (completed_of_fresh_active (World.mk cache lft stored bn d now rand gen [])).
Qed.

(** X12.  The initial load in remote mode: when the first, prioritized
    fetch is really made, succeeds and returns at least one order, and
    the second fetch starts less than 5000 ms after the first, the
    second fetch is served from the cache: it makes no request and
    returns the same list, the active orders of the store followed by
    the paid orders the cache held.  When nothing was cached no paid
    order is loaded. *)
Theorem initial_load_second_fetch_is_served_from_cache :
  forall (w : World.t) (ms : Z),
    served_from_cache false w = false ->
    fails_within 1 w = false ->
    fresh_active w ++ cached_paid w <> [] ->
    0 <= ms < CACHE_MS ->
    exists w',
      load_orders false ms w
      = (Return (fresh_active w ++ cached_paid w, fresh_active w ++ cached_paid w), w')
      /\ World.faults w' = tl (World.faults w)
      /\ World.ordersCache w' = fresh_active w ++ cached_paid w
      /\ (World.ordersCache w = [] -> completedOrders (World.ordersCache w') = []).
Proof.
  intros w ms Hs Hf Hne Hms. unfold load_orders.
  assert (E1 : fetchOrders false false true w
               = (Return (fresh_active w ++ cached_paid w),
                  World.with_lastFetchTime
                    (World.with_ordersCache (World.with_faults w (tl (World.faults w)))
                       (fresh_active w ++ cached_paid w)) (World.now w))).
  { rewrite (fetchOrders_remote_fetch w false true Hs).
    unfold fails_within in Hf.
    destruct (World.faults w) as [|[|] fl]; [reflexivity | discriminate Hf | reflexivity]. }
  erewrite bind_eq by exact E1.
  erewrite bind_eq by reflexivity.
  erewrite bind_eq.
  2:{ apply fetchOrders_served. unfold served_from_cache, elapse, modify. simpl.
      destruct (fresh_active w ++ cached_paid w); [now contradiction Hne|].
      simpl. apply Z.ltb_lt. lia. }
  eexists. split; [reflexivity|]. simpl.
  split; [reflexivity|]. split; [reflexivity|].
  intros Hc. unfold cached_paid. rewrite Hc. simpl. rewrite app_nil_r.
  apply completed_of_fresh_active.
Qed.

Lemma initial_load_second_fetch_is_served_from_cache_witness :
  exists w',
    load_orders false 10 first_load_world
    = (Return (fresh_active first_load_world ++ cached_paid first_load_world,
               fresh_active first_load_world ++ cached_paid first_load_world), w')
    /\ World.faults w' = tl (World.faults first_load_world).
Proof.
  destruct (initial_load_second_fetch_is_served_from_cache first_load_world 10)
    as (w' & E & Hfl & _).
  - reflexivity.
  - reflexivity.
  - discriminate.
  - unfold CACHE_MS. lia.
  - exists w'. split; assumption.
Defined.

(** ** Claiming and releasing an order *)

Lemma setWorkingOnOrder_remote_run (orderId userName : string) (w : World.t) :
  setWorkingOnOrder false orderId userName "armador" w
  = match World.faults w with
    | true :: fl =>
        (Return false,
         World.with_ordersCache (World.with_faults w fl)
           (mark_working orderId None None
              (mark_working orderId (Some userName) (Some (World.now w))
                 (World.ordersCache w))))
    | fl =>
        (Return true,
         World.with_db
           (World.with_ordersCache (World.with_faults w (tl fl))
              (mark_working orderId (Some userName) (Some (World.now w))
                 (World.ordersCache w)))
           (DB.with_orders (World.db w)
              (rows_marked orderId (Some userName) (Some (World.now w))
                 (DB.orders (World.db w)))))
    end.
Proof.
  destruct w as [cache lft stored bn d now rand gen fl].
  unfold setWorkingOnOrder.
  change (negb (String.eqb "armador" "armador")) with false.
  hook_eval. destruct fl as [|[|] fl]; reflexivity.
Qed.

Lemma clearWorkingOnOrder_remote_run (orderId : string) (userName : option string)
      (w : World.t) :
  clearWorkingOnOrder false orderId userName (Some "armador"%string) w
  = match World.faults w with
    | true :: fl =>
        (Return false,
         World.with_ordersCache (World.with_faults w fl)
           (mark_working orderId None None (World.ordersCache w)))
    | fl =>
        (Return true,
         World.with_db
           (World.with_ordersCache (World.with_faults w (tl fl))
              (mark_working orderId None None (World.ordersCache w)))
           (DB.with_orders (World.db w)
              (rows_marked orderId None None (DB.orders (World.db w)))))
    end.
Proof.
  destruct w as [cache lft stored bn d now rand gen fl].
  unfold clearWorkingOnOrder.
  change (truthy_string "armador" && negb (String.eqb "armador" "armador")) with false.
  hook_eval. destruct fl as [|[|] fl]; reflexivity.
Qed.

Lemma setWorkingOnOrder_local_run (orderId userName : string) (w : World.t) :
  setWorkingOnOrder true orderId userName "armador" w
  = match find (has_id orderId) (parsed_or_empty (World.stored_orders w)) with
    | None =>
        (Return true,
         World.with_ordersCache w
           (mark_working orderId (Some userName) (Some (World.now w))
              (World.ordersCache w)))
    | Some o =>
        match World.faults w with
        | true :: fl =>
            (Return false,
             World.with_ordersCache (World.with_faults w fl)
               (mark_working orderId None None
                  (mark_working orderId (Some userName) (Some (World.now w))
                     (World.ordersCache w))))
        | fl =>
            (Return true,
             World.with_stored_orders
               (World.with_ordersCache (World.with_faults w (tl fl))
                  (mark_working orderId (Some userName) (Some (World.now w))
                     (World.ordersCache w)))
               (Some (replace_first (has_id orderId)
                        (Order.with_working o (Some userName) (Some (World.now w)))
                        (parsed_or_empty (World.stored_orders w)))))
        end
    end.
Proof.
  destruct w as [cache lft stored bn d now rand gen fl].
  unfold setWorkingOnOrder.
  change (negb (String.eqb "armador" "armador")) with false.
  hook_eval.
  destruct (find (has_id orderId) (parsed_or_empty stored)); [|reflexivity].
  hook_eval. destruct fl as [|[|] fl]; reflexivity.
Qed.

Lemma clearWorkingOnOrder_local_run (orderId : string) (userName : option string)
      (w : World.t) :
  clearWorkingOnOrder true orderId userName (Some "armador"%string) w
  = match find (has_id orderId) (parsed_or_empty (World.stored_orders w)) with
    | None =>
        (Return true,
         World.with_ordersCache w (mark_working orderId None None (World.ordersCache w)))
    | Some o =>
        if negb (is_set (string_or_undefined userName))
           || option_string_eqb (Order.currentlyWorkingBy o) userName
        then
          match World.faults w with
          | true :: fl =>
              (Return false,
               World.with_ordersCache (World.with_faults w fl)
                 (mark_working orderId None None (World.ordersCache w)))
          | fl =>
              (Return true,
               World.with_stored_orders
                 (World.with_ordersCache (World.with_faults w (tl fl))
                    (mark_working orderId None None (World.ordersCache w)))
                 (Some (replace_first (has_id orderId) (Order.with_working o None None)
                          (parsed_or_empty (World.stored_orders w)))))
          end
        else
          (Return true,
           World.with_ordersCache w (mark_working orderId None None (World.ordersCache w)))
    end.
Proof.
  destruct w as [cache lft stored bn d now rand gen fl].
  unfold clearWorkingOnOrder.
  change (truthy_string "armador" && negb (String.eqb "armador" "armador")) with false.
  hook_eval.
  destruct (find (has_id orderId) (parsed_or_empty stored)) as [o|]; [|reflexivity].
  destruct (negb (is_set (string_or_undefined userName))
            || option_string_eqb (Order.currentlyWorkingBy o) userName);
    [|reflexivity].
  hook_eval. destruct fl as [|[|] fl]; reflexivity.
Qed.

Lemma mark_working_twice (orderId : string) (a c : option string) (b d : option Z)
      (l : list Order.t) :
  mark_working orderId c d (mark_working orderId a b l) = mark_working orderId c d l.
Proof.
  unfold mark_working. rewrite map_map. apply map_ext. intros o.
  destruct (has_id orderId o) eqn:E.
  - change (has_id orderId (Order.with_working o a b)) with (has_id orderId o).
    now rewrite E.
  - now rewrite E.
Qed.

Lemma rows_marked_twice (orderId : string) (a c : option string) (b d : option Z)
      (rows : list OrderRow.t) :
  rows_marked orderId c d (rows_marked orderId a b rows) = rows_marked orderId c d rows.
Proof.
  unfold rows_marked. rewrite map_map. apply map_ext. intros r.
  destruct (order_id_is orderId r) eqn:E.
  - change (order_id_is orderId (row_with_working r a b)) with (order_id_is orderId r).
    now rewrite E.
  - now rewrite E.
Qed.

Lemma rows_marked_unclaimed (orderId : string) (rows : list OrderRow.t) :
  (forall r, In r rows -> order_id_is orderId r = true -> row_no_claim r) ->
  rows_marked orderId None None rows = rows.
Proof. exact (clear_rows_unclaimed orderId rows). Qed.

Lemma find_replace_first_found {A : Type} (p : A -> bool) (x y : A) (l : list A) :
  find p l = Some y -> p x = true -> find p (replace_first p x l) = Some x.
Proof.
  intros Hf Hx. induction l as [|z l IH]; simpl in *; [discriminate|].
  destruct (p z) eqn:E; simpl.
  - now rewrite Hx.
  - rewrite E. now apply IH.
Qed.

Lemma replace_first_twice {A : Type} (p : A -> bool) (x y : A) (l : list A) :
  p x = true -> replace_first p y (replace_first p x l) = replace_first p y l.
Proof.
  intros Hx. induction l as [|z l IH]; simpl; [reflexivity|].
  destruct (p z) eqn:E; simpl.
  - now rewrite Hx.
  - now rewrite E, IH.
Qed.

Lemma stored_of_found (stored : option (list Order.t)) (p : Order.t -> bool) (o : Order.t) :
  find p (parsed_or_empty stored) = Some o -> Some (parsed_or_empty stored) = stored.
Proof. destruct stored; [reflexivity | discriminate]. Qed.

(** X13.  Claim, then release: when an operator claims an order that
    nobody holds and then releases it, and no persistence call fails,
    both operations report success and the cache, the stored list and
    the store are back as they were, in both modes. *)
Theorem claim_then_release_restores_state :
  forall (useLocalStorage : bool) (orderId userName : string) (w : World.t),
    unclaimed orderId w ->
    fails_within 2 w = false ->
    exists w1 w2,
      setWorkingOnOrder useLocalStorage orderId userName "armador" w = (Return true, w1)
      /\ clearWorkingOnOrder useLocalStorage orderId (Some userName)
           (Some "armador"%string) w1
         = (Return true, w2)
      /\ same_but_faults w w2.
Proof.
  intros local orderId userName w (Uc & Us & Ud) Hf.
  destruct w as [cache lft stored bn d now rand gen fl].
  unfold fails_within, same_but_faults in *.
  cbn [World.ordersCache World.stored_orders World.db World.faults] in *.
  pose proof (mark_working_unclaimed orderId cache Uc) as Ecache.
  destruct local.
  - rewrite setWorkingOnOrder_local_run.
    cbn [World.ordersCache World.stored_orders World.db World.faults World.now].
    destruct (find (has_id orderId) (parsed_or_empty stored)) as [o|] eqn:Hfind.
    + pose proof (find_some _ _ Hfind) as (Hin & Hid).
      pose proof (stored_of_found _ _ _ Hfind) as Es.
      assert (Hfind' : find (has_id orderId)
                         (replace_first (has_id orderId)
                            (Order.with_working o (Some userName) (Some now))
                            (parsed_or_empty stored))
                       = Some (Order.with_working o (Some userName) (Some now)))
        by (eapply find_replace_first_found; [exact Hfind | exact Hid]).
      assert (Hback : replace_first (has_id orderId)
                        (Order.with_working
                           (Order.with_working o (Some userName) (Some now)) None None)
                        (replace_first (has_id orderId)
                           (Order.with_working o (Some userName) (Some now))
                           (parsed_or_empty stored))
                      = parsed_or_empty stored).
      { rewrite replace_first_twice by exact Hid.
        change (Order.with_working (Order.with_working o (Some userName) (Some now))
                  None None)
          with (Order.with_working o None None).
        rewrite (with_working_unclaimed o (Us o Hin Hid)).
        now apply replace_first_found. }
      destruct fl as [|[|] [|[|] fl]]; try discriminate Hf;
        eexists _, _; (split; [reflexivity|]);
        rewrite clearWorkingOnOrder_local_run;
        cbn [World.ordersCache World.stored_orders World.db World.faults World.now
               World.with_stored_orders World.with_ordersCache World.with_faults
               parsed_or_empty];
        rewrite Hfind';
        change (Order.currentlyWorkingBy
                  (Order.with_working o (Some userName) (Some now)))
          with (Some userName);
        cbn [option_string_eqb]; rewrite String.eqb_refl, orb_true_r;
        cbn [tl]; rewrite Hback, mark_working_twice, Ecache, Es;
        split; reflexivity.
    + eexists _, _. split; [reflexivity|].
      rewrite clearWorkingOnOrder_local_run.
      cbn [World.ordersCache World.stored_orders World.db World.faults World.now
             World.with_stored_orders World.with_ordersCache World.with_faults].
      rewrite Hfind, mark_working_twice, Ecache. split; reflexivity.
  - rewrite setWorkingOnOrder_remote_run.
    cbn [World.ordersCache World.stored_orders World.db World.faults World.now].
    assert (Hrows : rows_marked orderId None None
                      (rows_marked orderId (Some userName) (Some now) (DB.orders d))
                    = DB.orders d)
      by (rewrite rows_marked_twice; now apply rows_marked_unclaimed).
    destruct fl as [|[|] [|[|] fl]]; try discriminate Hf;
      eexists _, _; (split; [reflexivity|]);
      rewrite clearWorkingOnOrder_remote_run;
      cbn [World.ordersCache World.stored_orders World.db World.faults World.now
             World.with_db World.with_ordersCache World.with_faults tl
             DB.with_orders DB.orders DB.products DB.missing_products
             DB.returned_products DB.order_history];
      rewrite Hrows, mark_working_twice, Ecache;
      destruct d; split; reflexivity.
Qed.

Lemma claim_then_release_restores_state_witness :
  exists w1 w2,
    setWorkingOnOrder false "PED-1" "Camilo" "armador" acme_world = (Return true, w1)
    /\ clearWorkingOnOrder false "PED-1" (Some "Camilo"%string) (Some "armador"%string) w1
       = (Return true, w2)
    /\ same_but_faults acme_world w2.
Proof.
  apply claim_then_release_restores_state.
  - split; [|split]; intros x [<-|[]] _; split; reflexivity.
  - reflexivity.
Defined.

Lemma fetchOrders_local_fetch (w : World.t) (forceRefresh prioritizeActive : bool) :
  served_from_cache forceRefresh w = false ->
  fetchOrders true forceRefresh prioritizeActive w
  = match World.stored_orders w with
    | None => (Return [], w)
    | Some parsed =>
        (Return parsed,
         World.with_lastFetchTime (World.with_ordersCache w parsed) (World.now w))
    end.
Proof.
  destruct w as [cache lft stored bn d now rand gen fl].
  unfold fetchOrders, served_from_cache. hook_eval. intros ->.
  destruct stored; reflexivity.
Qed.

Lemma rows_marked_claim (orderId : string) (by_ : option string) (start : option Z)
      (rows : list OrderRow.t) (r : OrderRow.t) :
  In r (rows_marked orderId by_ start rows) ->
  order_id_is orderId r = true ->
  OrderRow.currently_working_by r = by_ /\ OrderRow.working_start_time r = start.
Proof.
  unfold rows_marked. intros Hin Hid. apply in_map_iff in Hin as (r0 & E & _).
  destruct (order_id_is orderId r0) eqn:E0; subst r.
  - split; reflexivity.
  - rewrite E0 in Hid. discriminate Hid.
Qed.

(** X14.  Releasing an order that another operator holds depends on
    the mode.  In local mode the stored list is not written: the claim
    is removed from the cache only, and the next forced fetch brings
    the stored list back, with the claim of the holder.  In remote mode
    the request clears the working columns of the order whoever holds
    it. *)
Theorem release_of_foreign_claim_depends_on_mode :
  forall (orderId userName : string) (w : World.t),
    truthy_string userName = true ->
    (forall (stored : list Order.t) (o : Order.t) (holder : string),
        World.stored_orders w = Some stored ->
        find (has_id orderId) stored = Some o ->
        Order.currentlyWorkingBy o = Some holder ->
        holder <> userName ->
        exists w1,
          clearWorkingOnOrder true orderId (Some userName) (Some "armador"%string) w
          = (Return true, w1)
          /\ World.stored_orders w1 = Some stored
          /\ World.faults w1 = World.faults w
          /\ World.ordersCache w1 = mark_working orderId None None (World.ordersCache w)
          /\ forall prioritizeActive,
               exists w2, fetchOrders true true prioritizeActive w1 = (Return stored, w2))
    /\ (fails_within 1 w = false ->
        exists w1,
          clearWorkingOnOrder false orderId (Some userName) (Some "armador"%string) w
          = (Return true, w1)
          /\ forall r, In r (DB.orders (World.db w1)) ->
                       order_id_is orderId r = true -> row_no_claim r).
Proof.
  intros orderId userName w Hname. split.
  - intros stored o holder Es Hfind Hby Hne.
    rewrite clearWorkingOnOrder_local_run, Es. cbn [parsed_or_empty].
    rewrite Hfind, Hby. unfold string_or_undefined. rewrite Hname.
    cbn [is_set negb orb option_string_eqb].
    destruct (String.eqb holder userName) eqn:E;
      [apply String.eqb_eq in E; contradiction|].
    eexists. split; [reflexivity|].
    destruct w as [cache lft st bn d now rand gen fl]. simpl in Es. subst st.
    repeat split. intros prio.
    rewrite fetchOrders_local_fetch by reflexivity.
    eexists. reflexivity.
  - intros Hf. rewrite clearWorkingOnOrder_remote_run.
    unfold fails_within in Hf.
    destruct w as [cache lft st bn d now rand gen fl]. simpl in *.
    destruct fl as [|[|] fl]; try discriminate Hf;
      eexists; (split; [reflexivity|]); simpl;
      intros r Hr Hid; exact (rows_marked_claim _ _ _ _ _ Hr Hid).
Qed.

Lemma release_of_foreign_claim_depends_on_mode_witness :
  exists w1,
    clearWorkingOnOrder false "PED-1" (Some "Jesus"%string) (Some "armador"%string)
      acme_claimed_world
    = (Return true, w1)
    /\ forall r, In r (DB.orders (World.db w1)) ->
                 order_id_is "PED-1" r = true -> row_no_claim r.
Proof.
  apply (release_of_foreign_claim_depends_on_mode "PED-1" "Jesus" acme_claimed_world);
    reflexivity.
Defined.

Lemma find_has_id_In (orderId : string) (l : list Order.t) :
  In orderId (map Order.id l) -> exists o, find (has_id orderId) l = Some o.
Proof.
  induction l as [|x l IH]; simpl; [intros []|].
  intros [E | Hin].
  - exists x. unfold has_id. now rewrite E, String.eqb_refl.
  - destruct (has_id orderId x); [now exists x | now apply IH].
Qed.

(** X15.  A claim that fails is not rolled back to what the cache
    said: [setWorkingOnOrder] reports the failure and leaves the order
    without holder in the cache, whoever held it there, while the
    stored list and the store keep what they had.  (In local mode the
    only call that can fail is made when the order is in the stored
    list.) *)
Theorem failed_claim_clears_cached_claim :
  forall (useLocalStorage : bool) (orderId userName : string) (w : World.t),
    fails_within 1 w = true ->
    (useLocalStorage = true ->
     In orderId (map Order.id (parsed_or_empty (World.stored_orders w)))) ->
    exists w',
      setWorkingOnOrder useLocalStorage orderId userName "armador" w = (Return false, w')
      /\ World.ordersCache w' = mark_working orderId None None (World.ordersCache w)
      /\ World.stored_orders w' = World.stored_orders w
      /\ World.db w' = World.db w.
Proof.
  intros local orderId userName w Hf Hin. unfold fails_within in Hf.
  destruct w as [cache lft st bn d now rand gen fl]. simpl in *.
  destruct fl as [|[|] fl]; try discriminate Hf.
  destruct local.
  - rewrite setWorkingOnOrder_local_run. simpl.
    destruct (find_has_id_In _ _ (Hin eq_refl)) as (o & ->).
    eexists. split; [reflexivity|]. simpl. rewrite mark_working_twice.
    repeat split.
  - rewrite setWorkingOnOrder_remote_run. simpl.
    eexists. split; [reflexivity|]. simpl. rewrite mark_working_twice.
    repeat split.
Qed.

Lemma failed_claim_clears_cached_claim_witness :
  exists w',
    setWorkingOnOrder false "PED-1" "Jesus" "armador" acme_world_offline
    = (Return false, w')
    /\ World.ordersCache w'
       = mark_working "PED-1" None None (World.ordersCache acme_world_offline).
Proof.
  destruct (failed_claim_clears_cached_claim false "PED-1" "Jesus" acme_world_offline)
    as (w' & E & Hc & _).
  - reflexivity.
  - discriminate.
  - exists w'. split; assumption.
Defined.

(** ** Deleting an order from the page *)

Lemma deleteOrder_remote_eq (orderId : string) (w : World.t) :
  deleteOrder false orderId w
  = match World.faults w with
    | true :: fl => (Return false, World.with_faults w fl)
    | fl =>
        (Return true,
         World.with_db
           (World.with_ordersCache (World.with_faults w (tl fl))
              (filter (fun o => negb (has_id orderId o)) (World.ordersCache w)))
           (snd (delete_order orderId (World.db w))))
    end.
Proof.
  destruct w as [cache lft stored bn d now rand gen fl].
  unfold deleteOrder. hook_eval. destruct fl as [|[|] fl]; reflexivity.
Qed.

Lemma deleteOrder_local_eq (orderId : string) (w : World.t) :
  deleteOrder true orderId w
  = match World.faults w with
    | true :: fl => (Return false, World.with_faults w fl)
    | fl =>
        (Return true,
         World.with_stored_orders
           (World.with_ordersCache (World.with_faults w (tl fl))
              (filter (fun o => negb (has_id orderId o)) (World.ordersCache w)))
           (Some (filter (fun o => negb (has_id orderId o))
                    (parsed_or_empty (World.stored_orders w)))))
    end.
Proof.
  destruct w as [cache lft stored bn d now rand gen fl].
  unfold deleteOrder. hook_eval. destruct fl as [|[|] fl]; reflexivity.
Qed.

Lemma filtered_out_id (orderId : string) (l : list Order.t) :
  ~ In orderId (map Order.id (filter (fun o => negb (has_id orderId o)) l)).
Proof.
  intros H. apply in_map_iff in H as (o & E & Ho).
  apply filter_In in Ho as (_ & Ho). unfold has_id in Ho.
  rewrite E, String.eqb_refl in Ho. discriminate Ho.
Qed.

Lemma fresh_active_ids_incl (w : World.t) (i : string) :
  In i (map Order.id (fresh_active w)) -> In i (map OrderRow.id (DB.orders (World.db w))).
Proof.
  unfold fresh_active, select_orders. rewrite map_id_mapOrderRow.
  intros H. apply in_map_iff in H as (r & E & Hr).
  apply firstn_incl in Hr. apply filter_In in Hr as (Hr & _).
  apply stable_sort_In in Hr. apply in_map_iff. now exists r.
Qed.

Lemma deleted_row_id (orderId : string) (d : DB.t) :
  ~ In orderId (map OrderRow.id (DB.orders (snd (delete_order orderId d)))).
Proof.
  simpl. intros H. apply in_map_iff in H as (r & E & Hr).
  apply filter_In in Hr as (_ & Hr). unfold order_id_is in Hr.
  rewrite E, String.eqb_refl in Hr. discriminate Hr.
Qed.

(** X16.  Deleting an order from the page: [handleDeleteOrder] fetches
    and displays the orders anew exactly when the deletion succeeded,
    and then neither the list it displays nor the cache holds an order
    with the deleted id, whether the fetch that follows succeeds or
    not, in both modes; when the deletion fails nothing is displayed
    anew and the cache, the stored list and the store are as they
    were. *)
Theorem handleDeleteOrder_never_shows_deleted_order :
  forall (useLocalStorage : bool) (orderId : string) (w : World.t),
  exists displayed w',
    handleDeleteOrder useLocalStorage orderId w = (Return displayed, w')
    /\ match displayed with
       | Some fresh =>
           fails_within 1 w = false
           /\ ~ In orderId (map Order.id fresh)
           /\ ~ In orderId (map Order.id (World.ordersCache w'))
       | None => fails_within 1 w = true /\ same_but_faults w w'
       end.
Proof.
  intros local orderId w. unfold handleDeleteOrder, fails_within, same_but_faults.
  assert (Hmerge : forall w1 : World.t,
             ~ In orderId (map OrderRow.id (DB.orders (World.db w1))) ->
             ~ In orderId (map Order.id (World.ordersCache w1)) ->
             ~ In orderId (map Order.id (fresh_active w1 ++ cached_paid w1))).
  { intros w1 Hd Hc H. rewrite map_app in H. apply in_app_or in H as [H|H].
    - now apply Hd, fresh_active_ids_incl.
    - apply Hc. apply in_map_iff in H as (o & E & Ho).
      apply filter_In in Ho as (Ho & _). apply in_map_iff. now exists o. }
  destruct local.
  - destruct w as [cache lft stored bn d now rand gen fl].
    destruct fl as [|[|] fl];
      (erewrite bind_eq by (rewrite deleteOrder_local_eq; reflexivity));
      cbv beta iota;
      try (eexists _, _; split; [reflexivity|]; cbv beta iota; split; reflexivity);
      (erewrite bind_eq by (rewrite fetchOrders_local_fetch by reflexivity; reflexivity));
      eexists _, _; (split; [reflexivity|]); simpl;
      repeat split; apply filtered_out_id.
  - destruct w as [cache lft stored bn d now rand gen fl].
    destruct fl as [|[|] fl];
      (erewrite bind_eq by (rewrite deleteOrder_remote_eq; reflexivity));
      cbv beta iota; cbn [World.faults tl].
    + erewrite bind_eq
        by (rewrite fetchOrders_remote_fetch by reflexivity; reflexivity).
      eexists _, _. split; [reflexivity|].
      split; [reflexivity|]. split; apply Hmerge;
        solve [apply deleted_row_id | apply filtered_out_id].
    + eexists _, _. split; [reflexivity|]. split; reflexivity.
    + destruct fl as [|[|] fl];
        (erewrite bind_eq
           by (rewrite fetchOrders_remote_fetch by reflexivity; reflexivity));
        eexists _, _; (split; [reflexivity|]); (split; [reflexivity|]);
        cbn [World.ordersCache World.with_faults World.with_lastFetchTime
               World.with_ordersCache World.with_db];
        split;
        solve [apply filtered_out_id
              | apply Hmerge; solve [apply deleted_row_id | apply filtered_out_id]].
Qed.

(** ** Opening and closing the detail of an order *)

Lemma mark_working_claim (orderId : string) (by_ : option string) (start : option Z)
      (l : list Order.t) (o : Order.t) :
  In o (mark_working orderId by_ start l) ->
  has_id orderId o = true ->
  Order.currentlyWorkingBy o = by_ /\ Order.workingStartTime o = start.
Proof.
  unfold mark_working. intros Hin Hid. apply in_map_iff in Hin as (o0 & E & _).
  destruct (has_id orderId o0) eqn:E0; subst o.
  - split; reflexivity.
  - rewrite E0 in Hid. discriminate Hid.
Qed.

Lemma fresh_claimed (w : World.t) (orderId : string) (by_ : option string)
      (start : option Z) :
  (forall r, In r (DB.orders (World.db w)) -> order_id_is orderId r = true ->
             OrderRow.currently_working_by r = by_
             /\ OrderRow.working_start_time r = start) ->
  (forall o, In o (World.ordersCache w) -> has_id orderId o = true ->
             Order.currentlyWorkingBy o = by_ /\ Order.workingStartTime o = start) ->
  forall o, In o (fresh_active w ++ cached_paid w) -> has_id orderId o = true ->
            Order.currentlyWorkingBy o = by_ /\ Order.workingStartTime o = start.
Proof.
  intros Hd Hc o Hin Hid. apply in_app_or in Hin as [Hin|Hin].
  - unfold fresh_active, select_orders in Hin. rewrite map_map in Hin.
    apply in_map_iff in Hin as (r & E & Hr). subst o.
    apply firstn_incl in Hr. apply filter_In in Hr as (Hr & _).
    apply stable_sort_In in Hr. exact (Hd r Hr Hid).
  - apply filter_In in Hin as (Hin & _). exact (Hc o Hin Hid).
Qed.

Lemma selected_or_given (fresh : list Order.t) (order : Order.t) (P : Order.t -> Prop) :
  (forall x, find (has_id (Order.id order)) fresh = Some x -> P x) ->
  (In (Order.id order) (map Order.id fresh) ->
   P match find (has_id (Order.id order)) fresh with
     | Some updated => updated
     | None => order
     end)
  /\ (~ In (Order.id order) (map Order.id fresh) ->
      match find (has_id (Order.id order)) fresh with
      | Some updated => updated
      | None => order
      end = order).
Proof.
  intros HP. split.
  - intros Hin. destruct (find_has_id_In _ _ Hin) as (x & E). rewrite E. now apply HP.
  - intros Hn. destruct (find _ fresh) as [x|] eqn:E; [|reflexivity].
    exfalso. apply Hn. apply find_some in E as (Hx & Hid).
    unfold has_id in Hid. apply String.eqb_eq in Hid. rewrite <- Hid. now apply in_map.
Qed.

(** X17.  Opening an order claims it: when an operator opens an order
    in preparation that the displayed copy shows without holder, and
    the write of the claim does not fail, the orders are fetched anew
    and the order selected is the fetched copy, held by the operator
    since the time of the claim, whenever the fetched list has the
    order; else the displayed copy is selected as it was.  This holds
    in both modes, and whether the fetch succeeds or not. *)
Theorem opening_an_order_claims_it :
  forall (useLocalStorage : bool) (u : User.t) (order : Order.t) (w : World.t),
    User.role u = armador ->
    Order.status order = en_armado ->
    string_or_undefined (Order.currentlyWorkingBy order) = None ->
    fails_within 1 w = false ->
    exists fresh selected w',
      handleOrderSelect useLocalStorage (Some u) order w
      = (Return (Some fresh, selected), w')
      /\ (In (Order.id order) (map Order.id fresh) ->
          Order.id selected = Order.id order
          /\ Order.currentlyWorkingBy selected = Some (User.name u)
          /\ Order.workingStartTime selected = Some (World.now w))
      /\ (~ In (Order.id order) (map Order.id fresh) -> selected = order).
Proof.
  intros local u order w Hrole Hst Hfree Hf.
  unfold handleOrderSelect. rewrite Hrole, Hst, Hfree.
  change (Role_eqb armador armador && OrderStatus_eqb en_armado en_armado
          && negb (is_set (@None string))) with true.
  change (role_name armador) with "armador"%string. cbv iota.
  set (P := fun x : Order.t =>
              Order.id x = Order.id order
              /\ Order.currentlyWorkingBy x = Some (User.name u)
              /\ Order.workingStartTime x = Some (World.now w)).
  assert (Hfound : forall fresh x,
             (forall o, In o fresh -> has_id (Order.id order) o = true ->
                        Order.currentlyWorkingBy o = Some (User.name u)
                        /\ Order.workingStartTime o = Some (World.now w)) ->
             find (has_id (Order.id order)) fresh = Some x -> P x).
  { intros fresh x Hall E. apply find_some in E as (Hx & Hid).
    destruct (Hall x Hx Hid) as (Hby & Hstart).
    unfold has_id in Hid. apply String.eqb_eq in Hid. now repeat split. }
  unfold fails_within in Hf.
  destruct w as [cache lft stored bn d now rand gen fl].
  destruct local.
  - destruct (find (has_id (Order.id order)) (parsed_or_empty stored)) as [o|] eqn:Hfind.
    + assert (E1 : setWorkingOnOrder true (Order.id order) (User.name u) "armador"
                     (World.mk cache lft stored bn d now rand gen fl)
                   = (Return true,
                      World.mk
                        (mark_working (Order.id order) (Some (User.name u)) (Some now)
                           cache)
                        lft
                        (Some (replace_first (has_id (Order.id order))
                                 (Order.with_working o (Some (User.name u)) (Some now))
                                 (parsed_or_empty stored)))
                        bn d now rand gen (tl fl))).
      { rewrite setWorkingOnOrder_local_run.
        cbn [World.stored_orders World.faults World.ordersCache World.now].
        rewrite Hfind.
        destruct fl as [|[|] fl]; [reflexivity | discriminate Hf | reflexivity]. }
      erewrite bind_eq by exact E1.
      erewrite bind_eq by (rewrite fetchOrders_local_fetch by reflexivity; reflexivity).
      eexists _, _, _. split; [reflexivity|].
      apply (selected_or_given _ order P). intros x Ex.
      pose proof (find_some _ _ Hfind) as (_ & Hid).
      erewrite find_replace_first_found in Ex; [| exact Hfind | exact Hid].
      injection Ex as <-.
      unfold has_id in Hid. apply String.eqb_eq in Hid. now repeat split.
    + assert (E1 : setWorkingOnOrder true (Order.id order) (User.name u) "armador"
                     (World.mk cache lft stored bn d now rand gen fl)
                   = (Return true,
                      World.mk
                        (mark_working (Order.id order) (Some (User.name u)) (Some now)
                           cache)
                        lft stored bn d now rand gen fl)).
      { rewrite setWorkingOnOrder_local_run.
        cbn [World.stored_orders World.faults World.ordersCache World.now].
        now rewrite Hfind. }
      erewrite bind_eq by exact E1.
      destruct stored as [l|];
        (erewrite bind_eq
           by (rewrite fetchOrders_local_fetch by reflexivity; reflexivity));
        eexists _, _, _; (split; [reflexivity|]);
        apply (selected_or_given _ order P); intros x Ex.
      * simpl in Hfind. rewrite Hfind in Ex. discriminate Ex.
      * discriminate Ex.
  - assert (Hrows : forall r,
               In r (rows_marked (Order.id order) (Some (User.name u)) (Some now)
                       (DB.orders d)) ->
               order_id_is (Order.id order) r = true ->
               OrderRow.currently_working_by r = Some (User.name u)
               /\ OrderRow.working_start_time r = Some now)
      by (intros r; apply rows_marked_claim).
    assert (Hcache : forall o,
               In o (mark_working (Order.id order) (Some (User.name u)) (Some now) cache) ->
               has_id (Order.id order) o = true ->
               Order.currentlyWorkingBy o = Some (User.name u)
               /\ Order.workingStartTime o = Some now)
      by (intros o; apply mark_working_claim).
    destruct fl as [|[|] fl]; try discriminate Hf;
      (erewrite bind_eq by (rewrite setWorkingOnOrder_remote_run; reflexivity)).
    + erewrite bind_eq
        by (rewrite fetchOrders_remote_fetch by reflexivity; reflexivity).
      eexists _, _, _. split; [reflexivity|].
      apply (selected_or_given _ order P). intros x. apply Hfound.
      apply fresh_claimed; assumption.
    + destruct fl as [|[|] fl];
        (erewrite bind_eq
           by (rewrite fetchOrders_remote_fetch by reflexivity; reflexivity));
        eexists _, _, _; (split; [reflexivity|]);
        apply (selected_or_given _ order P); intros x; apply Hfound;
        solve [apply fresh_claimed; assumption | exact Hcache].
Qed.

Lemma opening_an_order_claims_it_witness :
  exists fresh selected w',
    handleOrderSelect false (Some camilo) acme acme_world
    = (Return (Some fresh, selected), w')
    /\ (In (Order.id acme) (map Order.id fresh) ->
        Order.id selected = Order.id acme
        /\ Order.currentlyWorkingBy selected = Some (User.name camilo)
        /\ Order.workingStartTime selected = Some (World.now acme_world)).
Proof.
  destruct (opening_an_order_claims_it false camilo acme acme_world
              eq_refl eq_refl eq_refl eq_refl)
    as (fresh & selected & w' & E & H & _).
  exists fresh, selected, w'. split; assumption.
Defined.

(** ** What createOrder broadcasts *)

Lemma createOrder_broadcast_run (useLocalStorage : bool) (orderData : OrderData.t)
      (currentUser : User.t) (w : World.t) :
  fails_within (if useLocalStorage then 1 else 3) w = false ->
  exists (optimistic : Order.t) (b : bool) (w' : World.t),
    createOrder useLocalStorage orderData currentUser w = (Return b, w')
    /\ b = negb (fails_within (if useLocalStorage then 2 else 4) w)
    /\ Order.id optimistic = next_order_id w
    /\ World.ordersCache w'
       = (if b then optimistic :: World.ordersCache w
          else filter (fun o => negb (has_id (next_order_id w) o))
                 (optimistic :: World.ordersCache w))
    /\ (useLocalStorage = true ->
        World.stored_orders w'
        = Some (optimistic :: parsed_or_empty (World.stored_orders w)))
    /\ (useLocalStorage = false ->
        exists row, DB.orders (World.db w') = DB.orders (World.db w) ++ [row]
                    /\ OrderRow.id row = next_order_id w)
    /\ (if b
        then exists id,
            World.broadcast_notification w'
            = Some (Broadcast.mk info "Nuevo Presupuesto"
                      (String.append "Vale creo un presupuesto para "
                         (OrderData.clientName orderData))
                      (Some (User.name currentUser)) (World.now w) id)
        else World.broadcast_notification w' = World.broadcast_notification w).
Proof.
  intros Hfl. unfold createOrder, fails_within, next_order_id in *.
  set (f := fun p : Product.t => _).
  assert (Hf : forall x w, exists y n,
               f x w = (Return y, World.with_generated w n) /\ created_from x y).
  { intros x w0. unfold f.
    destruct (id_or_generate_run (Product.id x) "PROD-" w0) as (y & n & E & _).
    exists (Product.mk y (Product.code x) (Product.name x) (Product.quantity x)
              (Some (Product.quantity x)) (Some false) (Product.unitPrice x)
              (Product.subtotal x)), n.
    unfold bind, ret. rewrite E. now repeat split. }
  destruct w as [cache lft stored bn d now rand gen fl].
  hook_eval.
  match goal with
  | |- context [mapM f ?l ?w0] =>
      destruct (mapM_generated created_from f l Hf w0) as (ys & n & E & HR)
  end.
  hook_eval. rewrite E. clear E. hook_eval.
  match goal with
  | |- context [Order.mk ?a ?b ?c ys ?d ?e ?g ?h ?i ?j ?k ?l ?m ?o ?p ?q ?r ?s] =>
      exists (Order.mk a b c ys d e g h i j k l m o p q r s)
  end.
  destruct useLocalStorage.
  - destruct fl as [|[|] [|[|] fs]]; hook_eval; try discriminate Hfl;
      eexists _, _; (split; [reflexivity|]);
      repeat split; try (intros; discriminate); try (eexists; reflexivity).
  - destruct fl as [|[|] fl]; hook_eval; try discriminate Hfl;
      run_mapM_with (row_created_from (String.append "PED-" (rand gen))) HRrows.
    + eexists _, _; (split; [reflexivity|]);
        repeat split; try (intros; discriminate);
        try (eexists; split; reflexivity); try (eexists; reflexivity).
    + destruct fl as [|[|] fl]; hook_eval; try discriminate Hfl.
      * eexists _, _; (split; [reflexivity|]);
          repeat split; try (intros; discriminate);
          try (eexists; split; reflexivity); try (eexists; reflexivity).
      * destruct fl as [|[|] fl]; hook_eval; try discriminate Hfl.
        -- eexists _, _; (split; [reflexivity|]);
             repeat split; try (intros; discriminate);
             try (eexists; split; reflexivity); try (eexists; reflexivity).
        -- destruct fl as [|[|] fl]; hook_eval;
             eexists _, _; (split; [reflexivity|]);
             repeat split; try (intros; discriminate);
             try (eexists; split; reflexivity); try (eexists; reflexivity).
Qed.

Lemma handler_of_slot (w : World.t) (n : Broadcast.t) (name : string) :
  World.broadcast_notification w = Some n ->
  broadcast_handler name (broadcast_event w)
  = if option_string_eqb (Broadcast.excludeUser n) (Some name) then None else Some n.
Proof.
  intros E. unfold broadcast_handler, broadcast_event. rewrite E. simpl.
  now destruct (option_string_eqb (Broadcast.excludeUser n) (Some name)).
Qed.

(** X18.  A created order is announced to the others: when
    [createOrder] succeeds, the broadcast slot holds the notification
    "Nuevo Presupuesto" for the client of the order, and the handler of
    a tab delivers it unless the name of the user of that tab is the
    name of the author; a tab without user delivers it too, unless the
    author has the empty name. *)
Theorem created_order_is_broadcast_to_others :
  forall (useLocalStorage : bool) (orderData : OrderData.t) (currentUser : User.t)
         (w : World.t),
    fails_within (if useLocalStorage then 2 else 4) w = false ->
    exists w' n,
      createOrder useLocalStorage orderData currentUser w = (Return true, w')
      /\ World.broadcast_notification w' = Some n
      /\ Broadcast.type n = info
      /\ Broadcast.title n = "Nuevo Presupuesto"%string
      /\ Broadcast.message n
         = String.append "Vale creo un presupuesto para " (OrderData.clientName orderData)
      /\ forall tabUser : option User.t,
           broadcast_handler (string_or (currentUser_name tabUser) "") (broadcast_event w')
           = if String.eqb (User.name currentUser)
                  (string_or (currentUser_name tabUser) "")
             then None else Some n.
Proof.
  intros local data u w Hf.
  assert (Hpre : fails_within (if local then 1 else 3) w = false).
  { unfold fails_within in *. destruct local.
    - destruct (World.faults w) as [|[|] [|[|] fl]];
        try reflexivity; discriminate Hf.
    - destruct (World.faults w) as [|[|] [|[|] [|[|] [|[|] fl]]]];
        try reflexivity; discriminate Hf. }
  destruct (createOrder_broadcast_run local data u w Hpre)
    as (opt & b & w' & E & Hb & _ & _ & _ & _ & Hslot).
  rewrite Hf in Hb. simpl in Hb. subst b. destruct Hslot as (id & Hslot).
  eexists w', _. split; [exact E|]. split; [exact Hslot|].
  repeat split. intros tabUser.
  rewrite (handler_of_slot w' _ _ Hslot). reflexivity.
Qed.

Lemma created_order_is_broadcast_to_others_witness :
  exists w' n,
    createOrder false acme_data riki acme_world = (Return true, w')
    /\ World.broadcast_notification w' = Some n
    /\ broadcast_handler (string_or (currentUser_name (Some camilo)) "")
         (broadcast_event w')
       = Some n.
Proof.
  destruct (created_order_is_broadcast_to_others false acme_data riki acme_world eq_refl)
    as (w' & n & E & Hs & _ & _ & _ & Hh).
  exists w', n. split; [exact E|]. split; [exact Hs|]. exact (Hh (Some camilo)).
Defined.

(** X19.  When the order is stored but the write of the broadcast
    fails, [createOrder] reports a failure and takes the order out of
    the cache, although the stored list (local mode) or the table of
    orders (remote mode) holds it; nothing is broadcast. *)
Theorem failed_broadcast_fails_a_stored_order :
  forall (useLocalStorage : bool) (orderData : OrderData.t) (currentUser : User.t)
         (w : World.t),
    fails_within (if useLocalStorage then 1 else 3) w = false ->
    fails_within (if useLocalStorage then 2 else 4) w = true ->
    exists w',
      createOrder useLocalStorage orderData currentUser w = (Return false, w')
      /\ ~ In (next_order_id w) (map Order.id (World.ordersCache w'))
      /\ (if useLocalStorage
          then In (next_order_id w)
                 (map Order.id (parsed_or_empty (World.stored_orders w')))
          else In (next_order_id w) (map OrderRow.id (DB.orders (World.db w'))))
      /\ World.broadcast_notification w' = World.broadcast_notification w.
Proof.
  intros local data u w Hpre Hf.
  destruct (createOrder_broadcast_run local data u w Hpre)
    as (opt & b & w' & E & Hb & Hid & Hc & Hs & Hd & Hslot).
  rewrite Hf in Hb. simpl in Hb. subst b.
  exists w'. split; [exact E|]. split; [|split; [|exact Hslot]].
  - rewrite Hc. apply filtered_out_id.
  - destruct local.
    + rewrite (Hs eq_refl). simpl. left. exact Hid.
    + destruct (Hd eq_refl) as (row & -> & Hrow).
      rewrite map_app. apply in_or_app. right. simpl. left. exact Hrow.
Qed.

Lemma failed_broadcast_fails_a_stored_order_witness :
  exists w',
    createOrder true acme_data riki acme_world_second_fails = (Return false, w')
    /\ ~ In (next_order_id acme_world_second_fails) (map Order.id (World.ordersCache w'))
    /\ In (next_order_id acme_world_second_fails)
         (map Order.id (parsed_or_empty (World.stored_orders w'))).
Proof.
  destruct (failed_broadcast_fails_a_stored_order true acme_data riki
              acme_world_second_fails eq_refl eq_refl)
    as (w' & E & Hc & Hs & _).
  exists w'. repeat split; assumption.
Defined.

(** ** A claim and the other users *)

Lemma setWorkingOnOrder_success_cache (useLocalStorage : bool) (orderId userName : string)
      (w : World.t) :
  fails_within 1 w = false ->
  exists w',
    setWorkingOnOrder useLocalStorage orderId userName "armador" w = (Return true, w')
    /\ World.ordersCache w'
       = mark_working orderId (Some userName) (Some (World.now w)) (World.ordersCache w).
Proof.
  intros Hf. unfold fails_within in Hf.
  destruct w as [cache lft stored bn d now rand gen fl]. simpl in Hf.
  destruct useLocalStorage.
  - rewrite setWorkingOnOrder_local_run. simpl.
    destruct (find (has_id orderId) (parsed_or_empty stored));
      [destruct fl as [|[|] fl]; try discriminate Hf|];
      eexists; split; reflexivity.
  - rewrite setWorkingOnOrder_remote_run. simpl.
    destruct fl as [|[|] fl]; try discriminate Hf; eexists; split; reflexivity.
Qed.

(** X20.  A claim locks the other operators out: once an operator
    has claimed an order, every copy of the order in the cache can be
    worked on by the coordinator and by the operators of that name
    only, and the card of the order offers no action to an operator of
    another name. *)
Theorem claim_locks_out_other_operators :
  forall (useLocalStorage : bool) (orderId userName : string) (w : World.t),
    truthy_string userName = true ->
    fails_within 1 w = false ->
    exists w',
      setWorkingOnOrder useLocalStorage orderId userName "armador" w = (Return true, w')
      /\ forall (o : Order.t) (v : User.t),
           In o (World.ordersCache w') ->
           has_id orderId o = true ->
           (canUserWorkOnOrder o v = true <->
            User.role v = vale \/ User.name v = userName)
           /\ (User.role v = armador -> User.name v <> userName ->
               forall isCompleted, card_action v isCompleted o = None).
Proof.
  intros local orderId userName w Hname Hf.
  destruct (setWorkingOnOrder_success_cache local orderId userName w Hf)
    as (w' & E & Hc).
  exists w'. split; [exact E|]. intros o v Hin Hid.
  rewrite Hc in Hin. destruct (mark_working_claim _ _ _ _ _ Hin Hid) as (Hby & _).
  assert (Hcan : canUserWorkOnOrder o v = true <->
                 User.role v = vale \/ User.name v = userName).
  { unfold canUserWorkOnOrder. rewrite Hby, Hname.
    destruct (User.role v); simpl.
    - split; [now left | reflexivity].
    - destruct (String.eqb userName (User.name v)) eqn:Ev; simpl.
      + apply String.eqb_eq in Ev. split; [now right | reflexivity].
      + split; [discriminate|]. intros [H | H]; [discriminate H|].
        rewrite H, String.eqb_refl in Ev. discriminate Ev. }
  split; [exact Hcan|]. intros Hrole Hne isCompleted.
  unfold card_action.
  destruct (canUserWorkOnOrder o v) eqn:Ec.
  - exfalso. destruct (proj1 Hcan eq_refl) as [H | H];
      [rewrite Hrole in H; discriminate H | contradiction].
  - now rewrite andb_false_r.
Qed.

Lemma claim_locks_out_other_operators_witness :
  exists w',
    setWorkingOnOrder false "PED-1" "Camilo" "armador" acme_world = (Return true, w')
    /\ forall (o : Order.t) (v : User.t),
         In o (World.ordersCache w') ->
         has_id "PED-1" o = true ->
         (canUserWorkOnOrder o v = true <->
          User.role v = vale \/ User.name v = "Camilo"%string)
         /\ (User.role v = armador -> User.name v <> "Camilo"%string ->
             forall isCompleted, card_action v isCompleted o = None).
Proof.
  apply claim_locks_out_other_operators; reflexivity.
Defined.

(** X21.  Closing the detail releases the claim: when an operator
    closes the detail of an order that the selected copy shows as held
    by them, and the write of the release does not fail, the orders
    are fetched anew and the copy of the order the fetched list gives
    has no holder.  In local mode this needs the stored copy to be held
    by the same name, for the stored list is written only then. *)
Theorem closing_the_detail_releases_the_claim :
  forall (useLocalStorage : bool) (u : User.t) (selectedOrder : Order.t) (w : World.t),
    User.role u = armador ->
    Order.currentlyWorkingBy selectedOrder = Some (User.name u) ->
    fails_within 1 w = false ->
    (useLocalStorage = true ->
     forall o, find (has_id (Order.id selectedOrder))
                 (parsed_or_empty (World.stored_orders w)) = Some o ->
               Order.currentlyWorkingBy o = Some (User.name u)) ->
    exists fresh w',
      onClose useLocalStorage u selectedOrder w = (Return (Some fresh), w')
      /\ forall o, find (has_id (Order.id selectedOrder)) fresh = Some o -> no_claim o.
Proof.
  intros local u sel w Hrole Hby Hf Hstored.
  unfold onClose. rewrite Hby, Hrole.
  change (role_name armador) with "armador"%string.
  cbn [option_string_eqb]. rewrite String.eqb_refl.
  unfold fails_within in Hf.
  destruct w as [cache lft stored bn d now rand gen fl].
  cbn [World.faults World.stored_orders] in *.
  destruct local.
  - destruct (find (has_id (Order.id sel)) (parsed_or_empty stored)) as [o|] eqn:Hfind.
    + pose proof (Hstored eq_refl o eq_refl) as Ho.
      pose proof (find_some _ _ Hfind) as (_ & Hid).
      assert (E1 : clearWorkingOnOrder true (Order.id sel) (Some (User.name u))
                     (Some "armador"%string)
                     (World.mk cache lft stored bn d now rand gen fl)
                   = (Return true,
                      World.mk (mark_working (Order.id sel) None None cache) lft
                        (Some (replace_first (has_id (Order.id sel))
                                 (Order.with_working o None None)
                                 (parsed_or_empty stored)))
                        bn d now rand gen (tl fl))).
      { rewrite clearWorkingOnOrder_local_run.
        cbn [World.stored_orders World.faults World.ordersCache].
        rewrite Hfind, Ho. cbn [option_string_eqb].
        rewrite String.eqb_refl, orb_true_r.
        destruct fl as [|[|] fl]; [reflexivity | discriminate Hf | reflexivity]. }
      erewrite bind_eq by exact E1.
      erewrite bind_eq by (rewrite fetchOrders_local_fetch by reflexivity; reflexivity).
      eexists _, _. split; [reflexivity|]. intros x Ex.
      erewrite find_replace_first_found in Ex; [| exact Hfind | exact Hid].
      injection Ex as <-. split; reflexivity.
    + assert (E1 : clearWorkingOnOrder true (Order.id sel) (Some (User.name u))
                     (Some "armador"%string)
                     (World.mk cache lft stored bn d now rand gen fl)
                   = (Return true,
                      World.mk (mark_working (Order.id sel) None None cache) lft
                        stored bn d now rand gen fl)).
      { rewrite clearWorkingOnOrder_local_run.
        cbn [World.stored_orders World.faults World.ordersCache].
        now rewrite Hfind. }
      erewrite bind_eq by exact E1.
      destruct stored as [l|];
        (erewrite bind_eq
           by (rewrite fetchOrders_local_fetch by reflexivity; reflexivity));
        eexists _, _; (split; [reflexivity|]); intros x Ex.
      * simpl in Hfind. rewrite Hfind in Ex. discriminate Ex.
      * discriminate Ex.
  - assert (Hfound : forall fresh x,
               (forall o, In o fresh -> has_id (Order.id sel) o = true ->
                          Order.currentlyWorkingBy o = None
                          /\ Order.workingStartTime o = None) ->
               find (has_id (Order.id sel)) fresh = Some x -> no_claim x).
    { intros fresh x Hall E. apply find_some in E as (Hx & Hid).
      exact (Hall x Hx Hid). }
    assert (Hrows : forall r,
               In r (rows_marked (Order.id sel) None None (DB.orders d)) ->
               order_id_is (Order.id sel) r = true ->
               OrderRow.currently_working_by r = None
               /\ OrderRow.working_start_time r = None)
      by (intros r; apply rows_marked_claim).
    assert (Hcache : forall o,
               In o (mark_working (Order.id sel) None None cache) ->
               has_id (Order.id sel) o = true ->
               Order.currentlyWorkingBy o = None /\ Order.workingStartTime o = None)
      by (intros o; apply mark_working_claim).
    destruct fl as [|[|] fl]; try discriminate Hf;
      (erewrite bind_eq by (rewrite clearWorkingOnOrder_remote_run; reflexivity)).
    + erewrite bind_eq
        by (rewrite fetchOrders_remote_fetch by reflexivity; reflexivity).
      eexists _, _. split; [reflexivity|].
      intros x. apply Hfound. apply fresh_claimed; assumption.
    + destruct fl as [|[|] fl];
        (erewrite bind_eq
           by (rewrite fetchOrders_remote_fetch by reflexivity; reflexivity));
        eexists _, _; (split; [reflexivity|]);
        intros x; apply Hfound;
        solve [apply fresh_claimed; assumption | exact Hcache].
Qed.

Lemma closing_the_detail_releases_the_claim_witness :
  exists fresh w',
    onClose false camilo acme_held_by_camilo acme_claimed_world
    = (Return (Some fresh), w')
    /\ forall o, find (has_id (Order.id acme_held_by_camilo)) fresh = Some o -> no_claim o.
Proof.
  apply closing_the_detail_releases_the_claim.
  - reflexivity.
  - reflexivity.
  - reflexivity.
  - discriminate.
Defined.

(** ** Updating an order that the stored list does not hold *)

Lemma existsb_has_id_false (orderId : string) (l : list Order.t) :
  ~ In orderId (map Order.id l) -> existsb (has_id orderId) l = false.
Proof.
  intros Hn. destruct (existsb (has_id orderId) l) eqn:E; [|reflexivity].
  exfalso. apply existsb_exists in E as (o & Ho & Hid). apply Hn.
  unfold has_id in Hid. apply String.eqb_eq in Hid. rewrite <- Hid. now apply in_map.
Qed.

(** X22.  In local mode [updateOrder] reports success for an order
    that the stored list does not hold, although it stores nothing: the
    stored list is as it was, so that the order the next forced fetch
    returns does not include the order, even when the cache held it and
    was updated. *)
Theorem updateOrder_local_unknown_order_reports_success :
  forall (order : Order.t) (nulls : Nulls.t) (currentUser : option User.t)
         (w : World.t),
    ~ In (Order.id order) (map Order.id (parsed_or_empty (World.stored_orders w))) ->
    fails_within 1 w = false ->
    exists w',
      updateOrder true order nulls currentUser w = (Return true, w')
      /\ World.stored_orders w' = World.stored_orders w
      /\ World.ordersCache w'
         = replace_first (has_id (Order.id order)) order (World.ordersCache w)
      /\ forall prioritizeActive,
           exists fetched w2,
             fetchOrders true true prioritizeActive w' = (Return fetched, w2)
             /\ ~ In (Order.id order) (map Order.id fetched).
Proof.
  intros order nulls cu w Hn Hf.
  pose proof (existsb_has_id_false _ _ Hn) as Hex.
  unfold fails_within in Hf.
  destruct w as [cache lft stored bn d now rand gen fl].
  cbn [World.stored_orders World.faults] in *.
  assert (Hfetch : forall c l bn' g fl' prio,
             exists fetched w2,
               fetchOrders true true prio (World.mk c l stored bn' d now rand g fl')
               = (Return fetched, w2)
               /\ ~ In (Order.id order) (map Order.id fetched)).
  { intros c l bn' g fl' prio. rewrite fetchOrders_local_fetch by reflexivity.
    cbn [World.stored_orders]. destruct stored as [parsed|].
    - eexists _, _. split; [reflexivity | exact Hn].
    - eexists _, _. split; [reflexivity | intros []]. }
  unfold updateOrder, notify_update. hook_eval. rewrite Hex.
  destruct cu as [u|]; [|hook_eval; eexists; repeat split; apply Hfetch].
  destruct (last_entry (Order.history order)) as [last|];
    [|hook_eval; eexists; repeat split; apply Hfetch].
  destruct (String.eqb (HistoryEntry.user last) (User.name u));
    [|hook_eval; eexists; repeat split; apply Hfetch].
  destruct fl as [|[|] fl]; try discriminate Hf;
    hook_eval; eexists; repeat split; apply Hfetch.
Qed.

Lemma updateOrder_local_unknown_order_reports_success_witness :
  exists w',
    updateOrder true bodega_paid Nulls.none (Some riki) local_world = (Return true, w')
    /\ World.stored_orders w' = World.stored_orders local_world.
Proof.
  destruct (updateOrder_local_unknown_order_reports_success bodega_paid Nulls.none
              (Some riki) local_world)
    as (w' & E & Hs & _).
  - simpl. intros [H | []]. discriminate H.
  - reflexivity.
  - exists w'. split; assumption.
Defined.

(* ================================================================= *)
(** * The cache when a persistence call fails *)

(** ** When no persistence call fails *)

Lemma succeeds_weaken {A : Type} (m : M A) (Q Q' : A -> Prop) :
  succeeds m Q -> (forall a, Q a -> Q' a) -> succeeds m Q'.
Proof.
  intros Hm HQ w Hw. destruct (Hm w Hw) as (a & w' & E & Hw' & Ha).
  exists a, w'. repeat split; auto.
Qed.

Lemma succeeds_ret {A : Type} (a : A) : succeeds (ret a) (fun x => x = a).
Proof. intros w Hw. now exists a, w. Qed.

Lemma succeeds_gets {A : Type} (f : World.t -> A) : succeeds (gets f) (fun _ => True).
Proof. intros w Hw. now exists (f w), w. Qed.

Lemma succeeds_modify (f : World.t -> World.t) :
  (forall w, World.faults (f w) = World.faults w) -> succeeds (modify f) (fun _ => True).
Proof. intros Hf w Hw. exists tt, (f w). rewrite Hf. now repeat split. Qed.

Lemma succeeds_bind {A B : Type} (m : M A) (k : A -> M B) (Q : A -> Prop)
      (R : B -> Prop) :
  succeeds m Q -> (forall a, Q a -> succeeds (k a) R) -> succeeds (bind m k) R.
Proof.
  intros Hm Hk w Hw. destruct (Hm w Hw) as (a & w1 & E & Hw1 & Ha).
  destruct (Hk a Ha w1 Hw1) as (b & w2 & E2 & Hw2 & Hb).
  exists b, w2. unfold bind. rewrite E. now repeat split.
Qed.

Lemma succeeds_try_catch {A : Type} (m h : M A) (Q : A -> Prop) :
  succeeds m Q -> succeeds (try_catch m h) Q.
Proof.
  intros Hm w Hw. destruct (Hm w Hw) as (a & w1 & E & Hw1 & Ha).
  exists a, w1. unfold try_catch. rewrite E. now repeat split.
Qed.

Lemma succeeds_next_fault : succeeds next_fault (fun failed => failed = false).
Proof.
  intros w Hw. unfold next_fault, any_failure in *.
  destruct w as [cache lft stored bn d now rand gen fl]. simpl in *.
  destruct fl as [|[|] fl]; simpl in *; try discriminate Hw;
    eexists _, _; repeat split; assumption.
Qed.

Lemma succeeds_await {A : Type} (q : DB.t -> A * DB.t) :
  succeeds (await q) (fun r => Response.error r = false).
Proof.
  unfold await. eapply succeeds_bind; [apply succeeds_next_fault|].
  intros failed ->. intros w Hw. cbv iota.
  destruct (q (World.db w)) as [a d] eqn:E.
  eexists _, _. split; [reflexivity|]. now split.
Qed.

Lemma succeeds_throw_if_error {A : Type} (r : Response.t A) :
  Response.error r = false -> succeeds (throw_if_error r) (fun _ => True).
Proof.
  intros Hr. unfold throw_if_error. rewrite Hr.
  eapply succeeds_weaken; [apply succeeds_ret | trivial].
Qed.

Lemma succeeds_localStorage_set (write : World.t -> World.t) :
  (forall w, World.faults (write w) = World.faults w) ->
  succeeds (localStorage_set write) (fun _ => True).
Proof.
  intros Hw. unfold localStorage_set.
  eapply succeeds_bind; [apply succeeds_next_fault|].
  intros failed ->. now apply succeeds_modify.
Qed.

Lemma succeeds_generateUniqueId (prefix : string) :
  succeeds (generateUniqueId prefix) (fun _ => True).
Proof. intros w Hw. eexists _, _. now repeat split. Qed.

Lemma succeeds_id_or_generate (x prefix : string) :
  succeeds (id_or_generate x prefix) (fun _ => True).
Proof.
  unfold id_or_generate. destruct (truthy_string x).
  - eapply succeeds_weaken; [apply succeeds_ret | trivial].
  - apply succeeds_generateUniqueId.
Qed.

Lemma succeeds_mapM {A B : Type} (f : A -> M B) (l : list A) :
  (forall x, succeeds (f x) (fun _ => True)) -> succeeds (mapM f l) (fun _ => True).
Proof.
  intros Hf. induction l as [|x l IH]; simpl.
  - eapply succeeds_weaken; [apply succeeds_ret | trivial].
  - eapply succeeds_bind; [apply Hf|]. intros y _.
    eapply succeeds_bind; [exact IH|]. intros ys _.
    eapply succeeds_weaken; [apply succeeds_ret | trivial].
Qed.

Lemma succeeds_broadcastNotification (t : NotificationType) (a b : string)
      (x : option string) :
  succeeds (broadcastNotification t a b x) (fun _ => True).
Proof.
  unfold broadcastNotification.
  eapply succeeds_bind; [apply succeeds_gets|]. intros ts _.
  eapply succeeds_bind; [apply succeeds_generateUniqueId|]. intros i _.
  apply succeeds_localStorage_set. reflexivity.
Qed.

Lemma succeeds_notify_update (order : Order.t) (currentUser : option User.t) :
  succeeds (notify_update order currentUser) (fun _ => True).
Proof.
  unfold notify_update.
  destruct currentUser as [u|];
    [|eapply succeeds_weaken; [apply succeeds_ret | trivial]].
  destruct (last_entry (Order.history order)) as [l|];
    [|eapply succeeds_weaken; [apply succeeds_ret | trivial]].
  destruct (String.eqb (HistoryEntry.user l) (User.name u));
    [apply succeeds_broadcastNotification
    |eapply succeeds_weaken; [apply succeeds_ret | trivial]].
Qed.

Ltac succeeds_step :=
  lazymatch goal with
  | |- succeeds (bind (await _) _) _ =>
      let r := fresh "r" in
      let Hr := fresh "Hr" in
      eapply succeeds_bind; [apply succeeds_await | intros r Hr]
  | |- succeeds (bind _ _) _ =>
      eapply (succeeds_bind _ _ (fun _ => True)); [ | intros ? _]
  | |- succeeds (try_catch _ _) _ => apply succeeds_try_catch
  | |- succeeds (ret _) _ => eapply succeeds_weaken; [apply succeeds_ret | trivial]
  | |- succeeds (gets _) _ => apply succeeds_gets
  | |- succeeds (modify _) _ => apply succeeds_modify; reflexivity
  | |- succeeds (set_ordersCache _) _ => apply succeeds_modify; reflexivity
  | |- succeeds (setItem_orders _) _ => apply succeeds_localStorage_set; reflexivity
  | |- succeeds (localStorage_set _) _ => apply succeeds_localStorage_set; reflexivity
  | |- succeeds (await _) _ =>
      eapply succeeds_weaken; [apply succeeds_await | trivial]
  | |- succeeds (throw_if_error _) _ => apply succeeds_throw_if_error; assumption
  | |- succeeds (mapM _ _) _ => apply succeeds_mapM; intros ?
  | |- succeeds (generateUniqueId _) _ => apply succeeds_generateUniqueId
  | |- succeeds (id_or_generate _ _) _ => apply succeeds_id_or_generate
  | |- succeeds (notify_update _ _) _ => apply succeeds_notify_update
  | |- succeeds (broadcastNotification _ _ _ _) _ => apply succeeds_broadcastNotification
  | |- succeeds (if ?c then _ else _) _ => destruct c
  end.

Lemma updateOrder_succeeds (useLocalStorage : bool) (order : Order.t) (nulls : Nulls.t)
      (currentUser : option User.t) :
  succeeds (updateOrder useLocalStorage order nulls currentUser) (fun b => b = true).
Proof.
  unfold updateOrder. repeat succeeds_step.
Qed.

(** In remote mode the error of the request that deletes the stored
    lines is not looked at. *)
Lemma updateOrder_ignores_failed_delete (order : Order.t) (nulls : Nulls.t)
      (currentUser : option User.t) (w : World.t) (fl : list bool) :
  World.faults w = false :: true :: fl ->
  any_failure fl = false ->
  fst (updateOrder false order nulls currentUser w) = Return true.
Proof.
  intros Efl Hfl.
  destruct w as [cache lft stored bn d now rand gen fl0]. simpl in Efl. subst fl0.
  unfold updateOrder.
  erewrite bind_eq by reflexivity. world_norm.
  unfold try_catch.
  erewrite bind_eq by reflexivity. world_norm.
  erewrite bind_eq by reflexivity.
  erewrite bind_eq by reflexivity. world_norm.
  match goal with
  | |- context [bind ?m ?k ?w3] =>
      let H := fresh "H" in
      assert (H : succeeds (bind m k) (fun b => b = true))
        by (repeat succeeds_step);
      destruct (H w3 Hfl) as (b & w' & E & _ & ->); rewrite E
  end.
  reflexivity.
Qed.

(** In local mode every write [updateOrder] makes is looked at. *)
Lemma updateOrder_local_outcomes (order : Order.t) (nulls : Nulls.t)
      (currentUser : option User.t) (w : World.t) :
  exists outcomes,
    calls_made w (snd (updateOrder true order nulls currentUser w)) outcomes
    /\ fst (updateOrder true order nulls currentUser w)
       = Return (negb (any_failure outcomes)).
Proof.
  destruct w as [cache lft stored bn d now rand gen fl].
  unfold updateOrder, notify_update, calls_made, any_failure.
  hook_eval.
  destruct (existsb (has_id (Order.id order)) (parsed_or_empty stored));
    destruct currentUser as [u|];
    try destruct (last_entry (Order.history order)) as [last|];
    try destruct (String.eqb (HistoryEntry.user last) (User.name u));
    destruct fl as [|[|] [|[|] fl]]; hook_eval;
    first [ exists []; split; reflexivity
          | exists [true]; split; reflexivity
          | exists [false]; split; reflexivity
          | exists [false; true]; split; reflexivity
          | exists [false; false]; split; reflexivity ].
Qed.



